(** * Catalyst to Meraki transfer tool: a model of [config_tool.py]

    The script reads a Catalyst running configuration, extracts the VLAN
    interfaces (SVIs), the shut interfaces and the downlink interface
    settings with regular expressions, and replays them through the Meraki
    dashboard API.  The functions of the script are embedded below as Rocq
    functions:

    - Python exceptions are the [Raised] case of a result type;
    - a Python [dict] is an association list kept in insertion order;
    - the records held in the dicts are Rocq records with optional fields;
    - the dashboard calls are recorded in a trace of [api_call]s;
    - the parsed configuration ([CiscoConfParse]) is a list of top-level
      lines with the text of their direct children, and the regular
      expressions of the script are run by a small backtracking matcher. *)

From Stdlib Require Import String Ascii List ZArith Lia Bool Arith.
From Stdlib Require Import DecimalString Decimal DecimalPos.
Import ListNotations.

Local Open Scope string_scope.
Local Open Scope list_scope.

Set Implicit Arguments.

(** ** Python values, exceptions and results *)

Module Py.

(** The exceptions the script can raise in the modelled functions. *)
Inductive exn : Type :=
| TypeError
| ValueError
| KeyError
| IndexError
| AttributeError.

(** The outcome of a Python computation: a value or a raised exception. *)
Inductive result (A : Type) : Type :=
| Ok (a : A)
| Raised (e : exn).

Arguments Ok {A} a.
Arguments Raised {A} e.

Definition bind {A B : Type} (m : result A) (f : A -> result B) : result B :=
  match m with
  | Ok a => f a
  | Raised e => Raised e
  end.

(** The two kinds of dynamically typed values the script mixes up:
    integers and strings. *)
Inductive value : Type :=
| PInt (z : Z)
| PStr (s : string).

(** [str(n)] for an integer. *)
Definition str_of_Z (z : Z) : string := NilZero.string_of_int (Z.to_int z).

(** [str(v)]. *)
Definition str (v : value) : string :=
  match v with
  | PInt z => str_of_Z z
  | PStr s => s
  end.

Definition is_digit (c : ascii) : bool :=
  let n := nat_of_ascii c in (48 <=? n)%nat && (n <=? 57)%nat.

Fixpoint all_digits (s : string) : bool :=
  match s with
  | EmptyString => true
  | String c s' => is_digit c && all_digits s'
  end.

(** [sys.get_int_max_str_digits()], as CPython sets it by default. *)
Definition max_str_digits : Z := 4300.

(** [int(s)] on the strings the script converts: a capture of [\d] or
    [\d+], or the empty default of [re_match_typed].  A run of decimal
    digits is read in base ten; the empty string (and anything that is not
    a run of digits) raises [ValueError], and so does a run of more than
    [max_str_digits] digits, leading zeros counted. *)
Definition int_of_str (s : string) : result Z :=
  match s with
  | EmptyString => Raised ValueError
  | _ =>
      if all_digits s then
        if (max_str_digits <? Z.of_nat (String.length s))%Z
        then Raised ValueError
        else
          match NilEmpty.uint_of_string s with
          | Some u => Ok (Z.of_uint u)
          | None => Raised ValueError
          end
      else Raised ValueError
  end.

(** [int(v)]: the identity on an integer. *)
Definition int (v : value) : result Z :=
  match v with
  | PInt z => Ok z
  | PStr s => int_of_str s
  end.

(** [a - b]: defined on two integers, a [TypeError] when an operand is a
    string. *)
Definition sub (a b : value) : result Z :=
  match a, b with
  | PInt x, PInt y => Ok (x - y)%Z
  | _, _ => Raised TypeError
  end.

(** [needle in haystack] on strings. *)
Fixpoint contains (needle haystack : string) : bool :=
  if String.prefix needle haystack then true
  else match haystack with
       | EmptyString => false
       | String _ h' => contains needle h'
       end.

(** [s.startswith(p)]. *)
Definition startswith (s p : string) : bool := String.prefix p s.

(** [x in l] for a list of strings. *)
Definition in_list (x : string) (l : list string) : bool :=
  existsb (String.eqb x) l.

(** [l[i]] on a list: a negative index counts from the end, and an index
    outside the list raises [IndexError]. *)
Definition index {A : Type} (l : list A) (i : Z) : result A :=
  let n := Z.of_nat (length l) in
  let j := if (i <? 0)%Z then (i + n)%Z else i in
  if ((0 <=? j) && (j <? n))%Z then
    match nth_error l (Z.to_nat j) with
    | Some a => Ok a
    | None => Raised IndexError
    end
  else Raised IndexError.

End Py.

Import Py.

Notation "x <- m ;; k" := (Py.bind m (fun x => k))
  (at level 61, m at next level, right associativity).

(** ** Python dictionaries

    A [dict] with string keys, in insertion order.  Assigning to a key
    that is present replaces its value in place. *)

Module Dict.

Definition t (V : Type) : Type := list (string * V).

Section Ops.
Variable V : Type.

Fixpoint get (d : t V) (k : string) : option V :=
  match d with
  | [] => None
  | (k', v) :: d' => if String.eqb k k' then Some v else get d' k
  end.

Definition mem (d : t V) (k : string) : bool :=
  match get d k with Some _ => true | None => false end.

Fixpoint set (d : t V) (k : string) (v : V) : t V :=
  match d with
  | [] => [(k, v)]
  | (k', v') :: d' =>
      if String.eqb k k' then (k', v) :: d' else (k', v') :: set d' k v
  end.

(** [del d[k]]: a [KeyError] when the key is absent. *)
Fixpoint del (d : t V) (k : string) : result (t V) :=
  match d with
  | [] => Raised KeyError
  | (k', v') :: d' =>
      if String.eqb k k' then Ok d'
      else d'' <- del d' k ;; Ok ((k', v') :: d'')
  end.

Definition keys (d : t V) : list string := map fst d.
Definition values (d : t V) : list V := map snd d.

End Ops.

End Dict.

(** ** Regular expressions

    The patterns of the script, run the way Python's [re] runs them: a
    backtracking matcher that tries the alternatives in order, greedy
    repetitions longest first and lazy ones shortest first, and
    [re.search] tries the start positions from left to right.  The text is
    taken as ASCII. *)

Module Re.

(** One-character patterns. *)
Inductive cls : Type :=
| Lit (c : ascii)     (* the character itself *)
| Digit               (* \d *)
| Space               (* \s *)
| NonSpace            (* \S *)
| AnyChar             (* .  : anything but a newline *)
| DigitOrDot.         (* [\d\.] *)

Definition is_space (c : ascii) : bool :=
  let n := nat_of_ascii c in
  ((9 <=? n) && (n <=? 13) || (28 <=? n) && (n <=? 32))%nat.

Definition newline : ascii := ascii_of_nat 10.

Definition cls_match (p : cls) (c : ascii) : bool :=
  match p with
  | Lit a => Ascii.eqb a c
  | Digit => is_digit c
  | Space => is_space c
  | NonSpace => negb (is_space c)
  | AnyChar => negb (Ascii.eqb c newline)
  | DigitOrDot => is_digit c || Ascii.eqb c "."
  end.

Inductive regex : Type :=
| Eps
| Chr (p : cls)
| Bol                                 (* ^ *)
| Eol                                 (* $ *)
| Seq (r1 r2 : regex)
| Alt (r1 r2 : regex)                 (* r1|r2 *)
| Star (greedy : bool) (r : regex)    (* r* and r*? *)
| Group (n : nat) (r : regex).        (* the n-th parenthesis *)

(** [r+] and [r+?]. *)
Definition Plus (greedy : bool) (r : regex) : regex := Seq r (Star greedy r).

(** A literal word. *)
Fixpoint Word (s : string) : regex :=
  match s with
  | EmptyString => Eps
  | String c s' => Seq (Chr (Lit c)) (Word s')
  end.

(** The text captured by each group. *)
Definition captures : Type := list (nat * list ascii).

Fixpoint group_of (c : captures) (n : nat) : option (list ascii) :=
  match c with
  | [] => None
  | (m, t) :: c' => if (n =? m)%nat then Some t else group_of c' n
  end.

Definition cont : Type := nat -> list ascii -> captures -> option (nat * captures).

(** The repetition of a pattern, [step] being the match of one more
    occurrence: a greedy repetition tries one more occurrence before it
    goes on with [k], a lazy one goes on with [k] first.  An occurrence
    that takes no character is not repeated; [fuel] bounds the number of
    occurrences by the length of the text. *)
Fixpoint star_loop (greedy : bool)
  (step : nat -> list ascii -> captures -> cont -> option (nat * captures))
  (k : cont) (fuel : nat) (pos : nat) (s : list ascii) (c : captures)
  {struct fuel} : option (nat * captures) :=
  let more :=
    match fuel with
    | O => None
    | S fuel' =>
        step pos s c
          (fun pos' s' c' =>
             if (pos <? pos')%nat
             then star_loop greedy step k fuel' pos' s' c'
             else None)
    end in
  if greedy then
    match more with Some x => Some x | None => k pos s c end
  else
    match k pos s c with Some x => Some x | None => more end.

(** [run r pos s c k]: match [r] at offset [pos], where [s] is the text
    from [pos] on, then continue with [k]; [None] makes the matcher
    backtrack. The result is the offset where the whole match ends. *)
Fixpoint run (r : regex) (pos : nat) (s : list ascii) (c : captures) (k : cont)
  {struct r} : option (nat * captures) :=
  match r with
  | Eps => k pos s c
  | Chr p =>
      match s with
      | a :: s' => if cls_match p a then k (S pos) s' c else None
      | [] => None
      end
  | Bol => if (pos =? 0)%nat then k pos s c else None
  | Eol =>
      match s with
      | [] => k pos s c
      | [a] => if Ascii.eqb a newline then k pos s c else None
      | _ => None
      end
  | Seq r1 r2 => run r1 pos s c (fun pos' s' c' => run r2 pos' s' c' k)
  | Alt r1 r2 =>
      match run r1 pos s c k with
      | Some x => Some x
      | None => run r2 pos s c k
      end
  | Star greedy r' => star_loop greedy (run r') k (length s) pos s c
  | Group n r' =>
      run r' pos s c
        (fun pos' s' c' => k pos' s' ((n, firstn (pos' - pos) s) :: c'))
  end.

(** A match: where it starts, where it ends, and the groups. *)
Record match_obj : Type := MkMatch
  { m_start : nat; m_end : nat; m_groups : captures }.

(** [re.match] at offset [pos]. *)
Definition match_at (r : regex) (pos : nat) (s : list ascii) : option match_obj :=
  match run r pos s [] (fun e _ c => Some (e, c)) with
  | Some (e, c) => Some (MkMatch pos e c)
  | None => None
  end.

Fixpoint search_from (r : regex) (pos : nat) (s : list ascii) : option match_obj :=
  match match_at r pos s with
  | Some m => Some m
  | None =>
      match s with
      | [] => None
      | _ :: s' => search_from r (S pos) s'
      end
  end.

(** [re.search(r, text)]. *)
Definition search (r : regex) (text : string) : option match_obj :=
  search_from r 0 (list_ascii_of_string text).

(** [m.group()]: the whole match. *)
Definition group0 (text : string) (m : match_obj) : string :=
  string_of_list_ascii
    (firstn (m_end m - m_start m) (skipn (m_start m) (list_ascii_of_string text))).

(** [m.group(n)], [None] when the group took no part in the match. *)
Definition group (m : match_obj) (n : nat) : option string :=
  option_map string_of_list_ascii (group_of (m_groups m) n).

(** [re.sub(r, "", text)]: the text with every match of [r] removed. *)
Fixpoint sub_empty_from (fuel : nat) (r : regex) (pos : nat) (s : list ascii)
  : list ascii :=
  match fuel with
  | O => s
  | S fuel' =>
      match s with
      | [] => []
      | a :: s' =>
          match match_at r pos s with
          | Some m =>
              if (pos <? m_end m)%nat
              then sub_empty_from fuel' r (m_end m) (skipn (m_end m - pos) s)
              else a :: sub_empty_from fuel' r (S pos) s'
          | None => a :: sub_empty_from fuel' r (S pos) s'
          end
      end
  end.

Definition sub_empty (r : regex) (text : string) : string :=
  let s := list_ascii_of_string text in
  string_of_list_ascii (sub_empty_from (length s) r 0 s).

End Re.

(** ** The parsed configuration

    What [CiscoConfParse] hands to the script: the configuration lines
    with, for each one, the text of its direct children.  [find_objects]
    keeps the lines whose text the pattern is found in. *)

Module Conf.

Record line : Type := MkLine
  { text : string;              (* [obj.text] *)
    children : list string }.   (* [child.text] for [child] in [obj.children] *)

Definition config : Type := list line.

Definition re_search (r : Re.regex) (t : string) : bool :=
  match Re.search r t with Some _ => true | None => false end.

(** [parse.find_objects(r)]. *)
Definition find_objects (r : Re.regex) (cfg : config) : list line :=
  filter (fun l => re_search r (text l)) cfg.

(** [parse.find_objects_w_child(parent, child)]: the lines matching
    [parent] that have a direct child matching [child]. *)
Definition find_objects_w_child (parent child : Re.regex) (cfg : config)
  : list line :=
  filter (fun l => existsb (re_search child) (children l))
    (find_objects parent cfg).

(** [re_match_typed(r, group=n)] with the default result type [str] and
    the default value [""]. *)
Definition re_match_typed (r : Re.regex) (n : nat) (t : string) : string :=
  match Re.search r t with
  | Some m =>
      match Re.group m n with
      | Some g => g
      | None => ""
      end
  | None => ""
  end.

End Conf.

(** ** The patterns of the script *)

Module Pat.
Import Re.

(** Pattern "^interface Vlan". *)
Definition interface_vlan : regex := Seq Bol (Word "interface Vlan").

(** Pattern "\d+". *)
Definition digits : regex := Plus true (Chr Digit).

(** Pattern "description\s(.+)". *)
Definition description_re : regex :=
  Seq (Word "description")
    (Seq (Chr Space) (Group 1 (Plus true (Chr AnyChar)))).

(** Pattern "ip\saddress\s([\d\.]+)\s([\d\.]+)". *)
Definition ip_address_re : regex :=
  Seq (Word "ip")
    (Seq (Chr Space)
       (Seq (Word "address")
          (Seq (Chr Space)
             (Seq (Group 1 (Plus true (Chr DigitOrDot)))
                (Seq (Chr Space) (Group 2 (Plus true (Chr DigitOrDot)))))))).

(** Pattern "^interface". *)
Definition interface : regex := Seq Bol (Word "interface").

(** Pattern "^\s+shutdown". *)
Definition shutdown : regex :=
  Seq Bol (Seq (Plus true (Chr Space)) (Word "shutdown")).

(** Pattern "^interface\s+(\S.+?)$". *)
Definition shut_name : regex :=
  Seq Bol
    (Seq (Word "interface")
       (Seq (Plus true (Chr Space))
          (Seq (Group 1 (Seq (Chr NonSpace) (Plus false (Chr AnyChar)))) Eol))).

(** Pattern "^interface\s+(G)$" with "\S.*" for G. *)
Definition intf_name : regex :=
  Seq Bol
    (Seq (Word "interface")
       (Seq (Plus true (Chr Space))
          (Seq (Group 1 (Seq (Chr NonSpace) (Star true (Chr AnyChar)))) Eol))).

(** Pattern "\d+|\/". *)
Definition digits_or_slash : regex := Alt (Plus true (Chr Digit)) (Chr (Lit "/")).

(** Pattern "^interface\s\S+?thernet+(\d)". *)
Definition switch_module : regex :=
  Seq Bol
    (Seq (Word "interface")
       (Seq (Chr Space)
          (Seq (Plus false (Chr NonSpace))
             (Seq (Word "therne")
                (Seq (Plus true (Chr (Lit "t"))) (Group 1 (Chr Digit))))))).

(** Pattern "^interface\s\S+?thernet\d.\d.(\d+)". *)
Definition port_number : regex :=
  Seq Bol
    (Seq (Word "interface")
       (Seq (Chr Space)
          (Seq (Plus false (Chr NonSpace))
             (Seq (Word "thernet")
                (Seq (Chr Digit)
                   (Seq (Chr AnyChar)
                      (Seq (Chr Digit)
                         (Seq (Chr AnyChar) (Group 1 (Plus true (Chr Digit))))))))))).

(** The words of a switchport line: "\sswitchport\sW1\sW2..." followed by
    "\s+". *)
Fixpoint spaced_words (ws : list string) (rest : regex) : regex :=
  match ws with
  | [] => Seq (Plus true (Chr Space)) rest
  | [w] => Seq (Chr Space) (Seq (Word w) (Seq (Plus true (Chr Space)) rest))
  | w :: ws' => Seq (Chr Space) (Seq (Word w) (spaced_words ws' rest))
  end.

(** Pattern "\sswitchport\smode\s+(.+)". *)
Definition port_mode_re : regex :=
  spaced_words ["switchport"; "mode"] (Group 1 (Plus true (Chr AnyChar))).

(** Pattern "\sswitchport\svoice\svlan\s+(\d+)". *)
Definition voice_vlan_re : regex :=
  spaced_words ["switchport"; "voice"; "vlan"] (Group 1 (Plus true (Chr Digit))).

(** Pattern "\sswitchport\saccess\svlan\s+(G)" with "\S.*" for G. *)
Definition data_vlan_re : regex :=
  spaced_words ["switchport"; "access"; "vlan"]
    (Group 1 (Seq (Chr NonSpace) (Star true (Chr AnyChar)))).

(** Pattern "\sswitchport\strunk\snative\svlan\s+(G)" with ".*" for G. *)
Definition trunk_native_re : regex :=
  spaced_words ["switchport"; "trunk"; "native"; "vlan"]
    (Group 1 (Star true (Chr AnyChar))).

(** Pattern "\sswitchport\strunk\sallowed\svlan\s+(G)" with ".*" for G. *)
Definition vlan_allowed_re : regex :=
  spaced_words ["switchport"; "trunk"; "allowed"; "vlan"]
    (Group 1 (Star true (Chr AnyChar))).

End Pat.

(** ** IPv4 addresses and networks

    The part of Python's [ipaddress] module the script uses, on text.  Every
    failure of that module is a [ValueError] (or one of its subclasses).
    The text the script extracts holds digits and dots only, where the IPv6
    reading of [ip_network] can never succeed; an IPv6 gateway literal is
    outside this model. *)

Module Ip.

Local Open Scope Z_scope.

(** [s.split(sep)]: always at least one piece. *)
Fixpoint split (sep : ascii) (s : string) : list string :=
  match s with
  | EmptyString => [EmptyString]
  | String c s' =>
      if Ascii.eqb c sep then EmptyString :: split sep s'
      else match split sep s' with
           | [] => [String c EmptyString]
           | w :: ws => String c w :: ws
           end
  end.

(** [sep.join(l)]. *)
Fixpoint join (sep : string) (l : list string) : string :=
  match l with
  | [] => EmptyString
  | [w] => w
  | w :: ws => (w ++ sep ++ join sep ws)%string
  end.

Definition ALL_ONES : Z := 2 ^ 32 - 1.
Definition max_prefixlen : Z := 32.

(** [_parse_octet]: one to three decimal digits, no leading zero except
    for ["0"] itself, at most 255. *)
Definition parse_octet (octet_str : string) : result Z :=
  match octet_str with
  | EmptyString => Raised ValueError
  | String c0 _ =>
      if negb (all_digits octet_str) then Raised ValueError
      else if (3 <? String.length octet_str)%nat then Raised ValueError
      else if negb (String.eqb octet_str "0") && Ascii.eqb c0 "0"
      then Raised ValueError
      else
        octet_int <- int_of_str octet_str ;;
        if 255 <? octet_int then Raised ValueError else Ok octet_int
  end.

(** [int.from_bytes(octets, 'big')]. *)
Definition from_bytes (octets : list Z) : Z :=
  fold_left (fun acc b => acc * 256 + b) octets 0.

Fixpoint parse_octets (l : list string) : result (list Z) :=
  match l with
  | [] => Ok []
  | o :: l' =>
      b <- parse_octet o ;;
      bs <- parse_octets l' ;;
      Ok (b :: bs)
  end.

(** [_ip_int_from_string]. *)
Definition ip_int_from_string (ip_str : string) : result Z :=
  match ip_str with
  | EmptyString => Raised ValueError
  | _ =>
      let octets := split "." ip_str in
      if negb (length octets =? 4)%nat then Raised ValueError
      else bs <- parse_octets octets ;; Ok (from_bytes bs)
  end.

(** [ipaddress.ip_address(text)], the IPv4 reading. *)
Definition ip_address (addr_str : string) : result Z :=
  if contains "/" addr_str then Raised ValueError
  else ip_int_from_string addr_str.

(** [int.bit_length]. *)
Definition bit_length (n : Z) : Z :=
  if n =? 0 then 0 else Z.log2 (Z.abs n) + 1.

(** [_count_righthand_zero_bits]. *)
Definition count_righthand_zero_bits (number bits : Z) : Z :=
  if number =? 0 then bits
  else Z.min bits (bit_length (Z.land (Z.lnot number) (number - 1))).

(** [_prefix_from_ip_int]: the prefix length of a mask made of ones
    followed by zeroes. *)
Definition prefix_from_ip_int (ip_int : Z) : result Z :=
  let trailing_zeroes := count_righthand_zero_bits ip_int max_prefixlen in
  let prefixlen := max_prefixlen - trailing_zeroes in
  let leading_ones := Z.shiftr ip_int trailing_zeroes in
  let all_ones := Z.shiftl 1 prefixlen - 1 in
  if negb (leading_ones =? all_ones) then Raised ValueError
  else Ok prefixlen.

(** [_prefix_from_prefix_string]: a mask written as a prefix length. *)
Definition prefix_from_prefix_string (prefixlen_str : string) : result Z :=
  if negb (all_digits prefixlen_str) then Raised ValueError
  else
    prefixlen <- int_of_str prefixlen_str ;;
    if (0 <=? prefixlen) && (prefixlen <=? max_prefixlen) then Ok prefixlen
    else Raised ValueError.

(** [_prefix_from_ip_string]: a dotted mask, read as a netmask and, when
    that fails, as a hostmask. *)
Definition prefix_from_ip_string (ip_str : string) : result Z :=
  ip_int <- ip_int_from_string ip_str ;;
  match prefix_from_ip_int ip_int with
  | Ok p => Ok p
  | Raised _ => prefix_from_ip_int (Z.lxor ip_int ALL_ONES)
  end.

(** [_ip_int_from_prefix]. *)
Definition ip_int_from_prefix (prefixlen : Z) : Z :=
  Z.lxor ALL_ONES (Z.shiftr ALL_ONES prefixlen).

(** [_make_netmask] on text: the netmask and the prefix length. *)
Definition make_netmask (arg : string) : result (Z * Z) :=
  prefixlen <-
    match prefix_from_prefix_string arg with
    | Ok p => Ok p
    | Raised _ => prefix_from_ip_string arg
    end ;;
  Ok (ip_int_from_prefix prefixlen, prefixlen).

(** An [IPv4Network]. *)
Record network : Type := MkNetwork
  { network_address : Z;
    netmask : Z;
    prefixlen : Z }.

(** [ipaddress.ip_network(text, strict)]. *)
Definition ip_network (address : string) (strict : bool) : result network :=
  match split "/" address with
  | [addr] =>
      packed <- ip_address addr ;;
      Ok (MkNetwork packed (ip_int_from_prefix max_prefixlen) max_prefixlen)
  | [addr; mask] =>
      packed <- ip_address addr ;;
      nm <- make_netmask mask ;;
      let '(netmask, prefixlen) := nm in
      if negb (Z.land packed netmask =? packed) then
        if strict then Raised ValueError
        else Ok (MkNetwork (Z.land packed netmask) netmask prefixlen)
      else Ok (MkNetwork packed netmask prefixlen)
  | _ => Raised ValueError
  end.

(** [ip_int.to_bytes(4, 'big')]. *)
Definition to_bytes (ip_int : Z) : list Z :=
  [Z.shiftr ip_int 24 mod 256; Z.shiftr ip_int 16 mod 256;
   Z.shiftr ip_int 8 mod 256; ip_int mod 256].

(** [str(address)]: the dotted quad. *)
Definition str_of_address (ip_int : Z) : string :=
  join "." (map str_of_Z (to_bytes ip_int)).

(** [str(network)]. *)
Definition str_of_network (n : network) : string :=
  (str_of_address (network_address n) ++ "/" ++ str_of_Z (prefixlen n))%string.

(** [address in network]. *)
Definition contains_address (n : network) (ip : Z) : bool :=
  Z.land ip (netmask n) =? network_address n.

End Ip.

(** ** The records *)

(** An SVI record: the dict [parse_svi_data] builds for a VLAN, with the
    key [defaultGateway] that [create_default_svi] may add. *)
Module Svi.
Record t : Type := Mk
  { name : string;
    vlanId : string;
    interfaceIp : string;
    subnet : string;
    defaultGateway : option string }.

Definition set_defaultGateway (r : t) (g : string) : t :=
  Mk (name r) (vlanId r) (interfaceIp r) (subnet r) (Some g).
End Svi.

(** An interface-config record: the dict [parse_intf_config] builds for a
    downlink interface.  [portId] is always set; the other keys are
    present or absent. *)
Module Intf.
Record t : Type := Mk
  { portId : string;
    module : option Z;
    name : option string;
    type : option string;
    voiceVlan : option string;
    vlan : option string;
    allowedVlans : option string;
    enabled : option bool }.

Definition set_name (r : t) (v : string) : t :=
  Mk (portId r) (module r) (Some v) (type r) (voiceVlan r) (vlan r)
    (allowedVlans r) (enabled r).
Definition set_type (r : t) (v : string) : t :=
  Mk (portId r) (module r) (name r) (Some v) (voiceVlan r) (vlan r)
    (allowedVlans r) (enabled r).
Definition set_voiceVlan (r : t) (v : string) : t :=
  Mk (portId r) (module r) (name r) (type r) (Some v) (vlan r)
    (allowedVlans r) (enabled r).
Definition set_vlan (r : t) (v : string) : t :=
  Mk (portId r) (module r) (name r) (type r) (voiceVlan r) (Some v)
    (allowedVlans r) (enabled r).
Definition set_allowedVlans (r : t) (v : string) : t :=
  Mk (portId r) (module r) (name r) (type r) (voiceVlan r) (vlan r)
    (Some v) (enabled r).
Definition set_enabled (r : t) (v : bool) : t :=
  Mk (portId r) (module r) (name r) (type r) (voiceVlan r) (vlan r)
    (allowedVlans r) (Some v).
Definition del_module (r : t) : t :=
  Mk (portId r) None (name r) (type r) (voiceVlan r) (vlan r)
    (allowedVlans r) (enabled r).
End Intf.

(** A [for] loop whose body may raise. *)
Fixpoint for_each {A S : Type} (body : S -> A -> result S) (l : list A) (s : S)
  : result S :=
  match l with
  | [] => Ok s
  | a :: l' => s' <- body s a ;; for_each body l' s'
  end.

(** ** [parse_svi_data] *)

Import Conf.

(** The loop over [vlan.children]: the description, the address and the
    mask the block ends up with. *)
Definition svi_child (acc : string * string * string) (child : string)
  : string * string * string :=
  let '(description, ip_address, subnet_mask) := acc in
  if contains "description" child then
    (re_match_typed Pat.description_re 1 child, ip_address, subnet_mask)
  else if contains "ip address" child then
    (description, re_match_typed Pat.ip_address_re 1 child,
     re_match_typed Pat.ip_address_re 2 child)
  else acc.

Definition svi_fields (vlan : line) : string * string * string :=
  fold_left svi_child (children vlan) ("", "", "").

(** [re.search(r"\d+", vlan.text).group()]: without a digit in the header
    the search gives [None], and [.group()] raises. *)
Definition vlan_id_of (vlan : line) : result string :=
  match Re.search Pat.digits (text vlan) with
  | Some m => Ok (Re.group0 (text vlan) m)
  | None => Raised AttributeError
  end.

(** The dict stored for a VLAN. *)
Definition svi_record (vlan_id description ip_address : string)
  (subnet : Ip.network) : Svi.t :=
  Svi.Mk (if negb (String.eqb description "") then description
          else "Vlan" ++ vlan_id)
    vlan_id ip_address (Ip.str_of_network subnet) None.

(** The body of the loop over the VLAN blocks. *)
Definition svi_step (svi_data : Dict.t Svi.t) (vlan : line)
  : result (Dict.t Svi.t) :=
  vlan_id <- vlan_id_of vlan ;;
  let '(description, ip_address, subnet_mask) := svi_fields vlan in
  if negb (Dict.mem svi_data vlan_id)
     && negb (String.eqb ip_address "") && negb (String.eqb subnet_mask "")
  then
    subnet <- Ip.ip_network (ip_address ++ "/" ++ subnet_mask) false ;;
    Ok (Dict.set svi_data vlan_id
          (svi_record vlan_id description ip_address subnet))
  else Ok svi_data.

Definition parse_svi_data (cfg : config) : result (Dict.t Svi.t) :=
  let vlans := find_objects Pat.interface_vlan cfg in
  for_each svi_step vlans [].

(** ** [parse_shut_intf] *)

Definition parse_shut_intf (cfg : config) : list string :=
  map (fun intf_obj => re_match_typed Pat.shut_name 1 (text intf_obj))
    (find_objects_w_child Pat.interface Pat.shutdown cfg).

(** ** [parse_intf_config] *)

(** The loop over [intf_obj.children]. *)
Definition intf_child (r : Intf.t) (child : string) : Intf.t :=
  let desc := re_match_typed Pat.description_re 1 child in
  let r := if negb (String.eqb desc "") then Intf.set_name r desc else r in
  let port_mode := re_match_typed Pat.port_mode_re 1 child in
  let r := if negb (String.eqb port_mode "") then Intf.set_type r port_mode else r in
  let voice_vlan := re_match_typed Pat.voice_vlan_re 1 child in
  let r := if negb (String.eqb voice_vlan "") then Intf.set_voiceVlan r voice_vlan else r in
  let data_vlan := re_match_typed Pat.data_vlan_re 1 child in
  let r := if negb (String.eqb data_vlan "") then Intf.set_vlan r data_vlan else r in
  let trunk_native := re_match_typed Pat.trunk_native_re 1 child in
  let r := if negb (String.eqb trunk_native "") then Intf.set_vlan r trunk_native else r in
  let vlan_allowed := re_match_typed Pat.vlan_allowed_re 1 child in
  if negb (String.eqb vlan_allowed "") then Intf.set_allowedVlans r vlan_allowed else r.

(** The port numbering of a retained interface: the new [module_counter],
    the port number and the [module] key.  [switch_module] is the text
    [re_match_typed] captured; only the branch for several switches
    converts it with [int] before using it as a number. *)
Definition number_port (num_switches module_counter : Z)
  (switch_module : value) (port_number : Z) : result (Z * Z * option Z) :=
  (if num_switches =? 1 then
     m <- int switch_module ;;
     if m =? 1 then Ok (module_counter + 1, port_number, None)
     else
       m' <- int switch_module ;;
       if 1 <? m' then
         d <- sub switch_module (PInt 1) ;;
         Ok (module_counter, port_number + module_counter * d, None)
       else Ok (module_counter, port_number, None)
   else if 1 <? num_switches then
     m <- int switch_module ;;
     Ok (module_counter, port_number, Some m)
   else Ok (module_counter, port_number, None))%Z.

(** What the header of an interface block gives: the name, the name
    without digits and slashes, the stacking unit and the port. *)
Definition intf_name_of (intf_obj : line) : string :=
  re_match_typed Pat.intf_name 1 (text intf_obj).

Definition only_intf_name_of (intf_obj : line) : string :=
  Re.sub_empty Pat.digits_or_slash (intf_name_of intf_obj).

Definition switch_module_of (intf_obj : line) : string :=
  re_match_typed Pat.switch_module 1 (text intf_obj).

Definition port_number_of (intf_obj : line) : string :=
  re_match_typed Pat.port_number 1 (text intf_obj).

(** The test for a downlink interface. *)
Definition is_downlink (intf_obj : line) : bool :=
  startswith (only_intf_name_of intf_obj) "Giga"
  && negb (String.eqb (port_number_of intf_obj) "").

(** The body of the loop over the interfaces; the state is
    [module_counter] and [intf_configs]. *)
Definition intf_step (num_switches : Z) (st : Z * Dict.t Intf.t) (intf_obj : line)
  : result (Z * Dict.t Intf.t) :=
  let '(module_counter, intf_configs) := st in
  let intf_name := intf_name_of intf_obj in
  let switch_module := switch_module_of intf_obj in
  let port_number := port_number_of intf_obj in
  if is_downlink intf_obj then
    port_number <- int_of_str port_number ;;
    n <- number_port num_switches module_counter (PStr switch_module) port_number ;;
    let '(module_counter, port_number, module) := n in
    let r := Intf.Mk (str_of_Z port_number) module None None None None None None in
    Ok (module_counter,
        Dict.set intf_configs intf_name (fold_left intf_child (children intf_obj) r))
  else Ok st.

Definition parse_intf_config (cfg : config) (num_switches : Z)
  : result (Dict.t Intf.t) :=
  let interfaces := find_objects Pat.interface cfg in
  st <- for_each (intf_step num_switches) interfaces (0%Z, []) ;;
  Ok (snd st).

(** ** The dashboard *)

(** What [getDeviceSwitchRoutingInterfaces] answers for a routed interface
    of a device, as far as the script reads it: the [vlanId] (a number, or
    text) and whether the interface carries a default gateway. *)
Record routed_interface : Type := MkRouted
  { ri_vlanId : value;
    ri_defaultGateway : option string }.

(** The answer of the dashboard to the query on a device (by serial). *)
Definition dashboard : Type := string -> list routed_interface.

(** The calls the script issues. *)
Inductive api_call : Type :=
| getDeviceSwitchRoutingInterfaces (serial : string)
| createDeviceSwitchRoutingInterface (serial : string) (kwargs : Svi.t)
| updateDeviceSwitchPort (serial : string) (kwargs : Intf.t).

(** A computation that issues calls and may raise: the calls it issued, in
    order, and its outcome; the calls issued before an exception stay
    issued.  The calls themselves are taken to succeed. *)
Definition M (A : Type) : Type := (list api_call * result A)%type.

Definition ret {A : Type} (a : A) : M A := ([], Ok a).

Definition bindM {A B : Type} (m : M A) (f : A -> M B) : M B :=
  match m with
  | (t, Ok a) => let '(t', r) := f a in (t ++ t', r)
  | (t, Raised e) => (t, Raised e)
  end.

Definition lift {A : Type} (r : result A) : M A := ([], r).

Definition call (c : api_call) : M unit := ([c], Ok tt).

Notation "x <~ m ;; k" := (bindM m (fun x => k))
  (at level 61, m at next level, right associativity).
Notation "m ;;; k" := (bindM m (fun _ => k))
  (at level 61, right associativity).

(** Where a loop body leaves the function: it goes on with a new state, or
    the function returns. *)
Inductive flow (A : Type) : Type :=
| Next (a : A)
| Return.

Arguments Next {A} a.
Arguments Return {A}.

(** ** [check_default_gateway] *)

(** The parameter is the list [configure_meraki] passes: the [vlanId]s of
    the existing interfaces as text, so that [in] is the substring test. *)
Fixpoint check_default_gateway (meraki_svis : list string) : bool :=
  match meraki_svis with
  | [] => false
  | svi :: rest =>
      if contains "defaultGateway" svi then true
      else check_default_gateway rest
  end.

(** ** [create_default_svi] *)

(** The record is the one held in [svi_data]: the result carries the
    record as the function leaves it, for the caller to put back. *)
Definition create_default_svi (vlan_info : Svi.t) (default_gateway serial : string)
  : M (Svi.t * option string) :=
  network <~ lift (Ip.ip_network (Svi.subnet vlan_info) true) ;;
  gw <~ lift (Ip.ip_address default_gateway) ;;
  if Ip.contains_address network gw then
    let vlan_info := Svi.set_defaultGateway vlan_info default_gateway in
    call (createDeviceSwitchRoutingInterface serial vlan_info) ;;;
    ret (vlan_info, Some (Svi.vlanId vlan_info))
  else ret (vlan_info, None).

(** ** [configure_meraki] *)

(** The loop over [svi_data.values()] for one device.  The state is the
    part of [svi_data] already visited, as the loop leaves it, and
    [default_svi]. *)
Fixpoint gateway_scan (default_gateway serial : string)
  (values : Dict.t Svi.t) (default_svi : string)
  : M (flow (Dict.t Svi.t * string)) :=
  match values with
  | [] => ret (Next ([], default_svi))
  | (k, vlan_info) :: rest =>
      network <~ lift (Ip.ip_network (Svi.subnet vlan_info) true) ;;
      gw <~ lift (Ip.ip_address default_gateway) ;;
      if Ip.contains_address network gw then
        r <~ create_default_svi vlan_info default_gateway serial ;;
        match snd r with
        | None => ret Return
        | Some default_svi =>
            f <~ gateway_scan default_gateway serial rest default_svi ;;
            match f with
            | Next (rest', d) => ret (Next ((k, fst r) :: rest', d))
            | Return => ret Return
            end
        end
      else
        f <~ gateway_scan default_gateway serial rest default_svi ;;
        match f with
        | Next (rest', d) => ret (Next ((k, vlan_info) :: rest', d))
        | Return => ret Return
        end
  end.

(** The loop over [serials] that configures the default gateway VLAN. *)
Fixpoint gateway_phase (dash : dashboard) (default_gateway : string)
  (serials : list string) (svi_data : Dict.t Svi.t) (default_svi : string)
  : M (flow (Dict.t Svi.t * string)) :=
  match serials with
  | [] => ret (Next (svi_data, default_svi))
  | serial :: rest =>
      call (getDeviceSwitchRoutingInterfaces serial) ;;;
      let meraki_svi_response := dash serial in
      let meraki_svis := map (fun svi => str (ri_vlanId svi)) meraki_svi_response in
      if negb (check_default_gateway meraki_svis) then
        f <~ gateway_scan default_gateway serial svi_data default_svi ;;
        match f with
        | Next (svi_data, default_svi) =>
            gateway_phase dash default_gateway rest svi_data default_svi
        | Return => ret Return
        end
      else gateway_phase dash default_gateway rest svi_data default_svi
  end.

(** [for serial in serials: createDeviceSwitchRoutingInterface(serial, ...)]. *)
Fixpoint create_on_each (serials : list string) (kwargs : Svi.t) : M unit :=
  match serials with
  | [] => ret tt
  | serial :: rest =>
      call (createDeviceSwitchRoutingInterface serial kwargs) ;;;
      create_on_each rest kwargs
  end.

(** The loop [for vlan in svi_data] over the remaining VLANs. *)
Fixpoint bulk_svis (serials : list string) (svi_data : Dict.t Svi.t)
  (vlans : list string) : M unit :=
  match vlans with
  | [] => ret tt
  | vlan :: rest =>
      kwargs <~ lift (match Dict.get svi_data vlan with
                      | Some r => Ok r
                      | None => Raised KeyError
                      end) ;;
      create_on_each serials kwargs ;;;
      bulk_svis serials svi_data rest
  end.

(** The body of the loop over the interfaces: the record as the body
    leaves it, after the call. *)
Definition port_step (serials shut_interfaces : list string) (intf : string)
  (cfg : Intf.t) : M Intf.t :=
  let cfg :=
    if in_list intf shut_interfaces then Intf.set_enabled cfg false
    else Intf.set_enabled cfg true in
  let '(switch_num, cfg) :=
    match Intf.module cfg with
    | Some m => (m, Intf.del_module cfg)
    | None => (1%Z, cfg)
    end in
  serial <~ lift (index serials (switch_num - 1)%Z) ;;
  call (updateDeviceSwitchPort serial cfg) ;;;
  ret cfg.

(** The loop [for intf in intf_configs] over the downlink interfaces. *)
Fixpoint bulk_ports (serials shut_interfaces : list string)
  (intf_configs : Dict.t Intf.t) (intfs : list string) : M (Dict.t Intf.t) :=
  match intfs with
  | [] => ret intf_configs
  | intf :: rest =>
      cfg <~ lift (match Dict.get intf_configs intf with
                   | Some r => Ok r
                   | None => Raised KeyError
                   end) ;;
      cfg' <~ port_step serials shut_interfaces intf cfg ;;
      bulk_ports serials shut_interfaces (Dict.set intf_configs intf cfg') rest
  end.

(** What follows the loop over the serials: the removal of the default
    SVI (or the error message) and the two bulk loops. *)
Definition apply_bulk (serials : list string) (svi_data : Dict.t Svi.t)
  (default_svi : string) (shut_interfaces : list string)
  (intf_configs : Dict.t Intf.t) : M unit :=
  svi_data <~ (if negb (String.eqb default_svi "")
               then lift (Dict.del svi_data default_svi)
               else ret svi_data) ;;
  bulk_svis serials svi_data (Dict.keys svi_data) ;;;
  bulk_ports serials shut_interfaces intf_configs (Dict.keys intf_configs) ;;;
  ret tt.

Definition configure_meraki (dash : dashboard) (default_gateway : string)
  (serials : list string) (svi_data : Dict.t Svi.t)
  (shut_interfaces : list string) (intf_configs : Dict.t Intf.t) : M unit :=
  f <~ gateway_phase dash default_gateway serials svi_data "" ;;
  match f with
  | Return => ret tt
  | Next (svi_data, default_svi) =>
      apply_bulk serials svi_data default_svi shut_interfaces intf_configs
  end.

(** ** [main], from the parsed configuration on *)

Definition main (dash : dashboard) (cfg : config) (default_gateway : string)
  (serials : list string) : M unit :=
  svi_data <~ lift (parse_svi_data cfg) ;;
  let shut_interfaces := parse_shut_intf cfg in
  interfaces <~ lift (parse_intf_config cfg (Z.of_nat (length serials))) ;;
  configure_meraki dash default_gateway serials svi_data shut_interfaces interfaces.

(** ** Notions used in the statements *)

(** The character occurs in the text. *)
Fixpoint occurs (c : ascii) (s : string) : bool :=
  match s with
  | EmptyString => false
  | String a s' => Ascii.eqb c a || occurs c s'
  end.

(** The call is an [updateDeviceSwitchPort]. *)
Definition is_update (c : api_call) : bool :=
  match c with
  | updateDeviceSwitchPort _ _ => true
  | _ => false
  end.

(** The call is a [createDeviceSwitchRoutingInterface]. *)
Definition is_create (c : api_call) : bool :=
  match c with
  | createDeviceSwitchRoutingInterface _ _ => true
  | _ => false
  end.

(** The block has no address or no mask after the loop over its
    children. *)
Definition svi_fields_missing (vlan : line) : bool :=
  let '(_, ip_address, subnet_mask) := svi_fields vlan in
  String.eqb ip_address "" || String.eqb subnet_mask "".

(** A block [parse_svi_data] gets through: its header holds a VLAN number
    and, when it has an address and a mask, they make an IPv4 network. *)
Definition svi_block_ok (vlan : line) : bool :=
  match vlan_id_of vlan with
  | Raised _ => false
  | Ok _ =>
      let '(_, ip_address, subnet_mask) := svi_fields vlan in
      svi_fields_missing vlan
      || match Ip.ip_network (ip_address ++ "/" ++ subnet_mask) false with
         | Ok _ => true
         | Raised _ => false
         end
  end.

(** Each key is held once, as in a [dict]. *)
Definition dict_ok {V : Type} (d : Dict.t V) : Prop := NoDup (Dict.keys d).

(** The SVI records are stored under their own [vlanId], as
    [parse_svi_data] stores them. *)
Definition svi_data_ok (svi_data : Dict.t Svi.t) : Prop :=
  dict_ok svi_data /\ forall k r, In (k, r) svi_data -> Svi.vlanId r = k.

(** The keywords of the call for a record: [enabled] set from the shut
    list, [module] removed. *)
Definition port_kwargs (shut_interfaces : list string) (intf : string)
  (cfg : Intf.t) : Intf.t :=
  let cfg := Intf.set_enabled cfg (negb (in_list intf shut_interfaces)) in
  match Intf.module cfg with
  | Some _ => Intf.del_module cfg
  | None => cfg
  end.

(** The position in [serials] the call for a record goes to. *)
Definition port_target (cfg : Intf.t) : Z :=
  match Intf.module cfg with
  | Some m => (m - 1)%Z
  | None => 0%Z
  end.

(** An entry of [svi_data] after the gateway loop: the entry itself, or
    the entry with the gateway set on it. *)
Definition flagged (default_gateway : string) (kr kr' : string * Svi.t) : Prop :=
  fst kr' = fst kr
  /\ (snd kr' = snd kr
      \/ snd kr' = Svi.set_defaultGateway (snd kr) default_gateway).

Definition no_update (t : list api_call) : Prop :=
  Forall (fun c => is_update c = false) t.

(** The creations of the bulk loop for the records of a map. *)
Definition bulk_creations (serials : list string) (svi_data : Dict.t Svi.t)
  : list api_call :=
  flat_map
    (fun kr => map (fun serial => createDeviceSwitchRoutingInterface serial (snd kr))
                 serials)
    svi_data.

(** The call issued for an entry of [intf_configs]: an update of its port,
    disabled when its name is in the shut list and enabled otherwise. *)
Definition enabled_as_listed (shut_interfaces : list string)
  (kc : string * Intf.t) (c : api_call) : Prop :=
  exists serial kwargs,
    c = updateDeviceSwitchPort serial kwargs
    /\ Intf.portId kwargs = Intf.portId (snd kc)
    /\ (In (fst kc) shut_interfaces -> Intf.enabled kwargs = Some false)
    /\ (~ In (fst kc) shut_interfaces -> Intf.enabled kwargs = Some true).

(** No record has the address [a] in its subnet. *)
Definition gateway_nowhere (a : Z) (svi_data : Dict.t Svi.t) : Prop :=
  forall k r, In (k, r) svi_data ->
    exists n, Ip.ip_network (Svi.subnet r) true = Ok n
              /\ Ip.contains_address n a = false.

(** What a pattern matches, as a relation. *)
Module ReSem.
Import Re.

(** [matches r pos s c pos' s' c']: the pattern [r] can take the text
    from offset [pos], where [s] is what lies ahead, to offset [pos'],
    where [s'] is left, the captures going from [c] to [c']. *)
Inductive matches
  : regex -> nat -> list ascii -> captures -> nat -> list ascii -> captures -> Prop :=
| M_Eps pos s c : matches Eps pos s c pos s c
| M_Chr p a pos s c :
    cls_match p a = true -> matches (Chr p) pos (a :: s) c (S pos) s c
| M_Bol s c : matches Bol 0 s c 0 s c
| M_Eol_end pos c : matches Eol pos [] c pos [] c
| M_Eol_newline pos c : matches Eol pos [newline] c pos [newline] c
| M_Seq r1 r2 pos s c pos1 s1 c1 pos2 s2 c2 :
    matches r1 pos s c pos1 s1 c1 -> matches r2 pos1 s1 c1 pos2 s2 c2 ->
    matches (Seq r1 r2) pos s c pos2 s2 c2
| M_Alt_left r1 r2 pos s c pos' s' c' :
    matches r1 pos s c pos' s' c' -> matches (Alt r1 r2) pos s c pos' s' c'
| M_Alt_right r1 r2 pos s c pos' s' c' :
    matches r2 pos s c pos' s' c' -> matches (Alt r1 r2) pos s c pos' s' c'
| M_Star_stop g r pos s c : matches (Star g r) pos s c pos s c
| M_Star_more g r pos s c pos1 s1 c1 pos2 s2 c2 :
    matches r pos s c pos1 s1 c1 -> (pos < pos1)%nat ->
    matches (Star g r) pos1 s1 c1 pos2 s2 c2 ->
    matches (Star g r) pos s c pos2 s2 c2
| M_Group n r pos s c pos' s' c' :
    matches r pos s c pos' s' c' ->
    matches (Group n r) pos s c pos' s' ((n, firstn (pos' - pos) s) :: c').

(** The statement of completeness: with a continuation that succeeds
    where the match ends, the matcher succeeds; for a repetition, with
    any fuel that covers the text. *)
Definition succeeds (r : regex) (pos : nat) (s : list ascii)
  (pos' : nat) (s' : list ascii) : Prop :=
  forall k : cont,
    (forall c', k pos' s' c' <> None) ->
    forall c,
      run r pos s c k <> None
      /\ match r with
         | Star g r' =>
             forall fuel, (length s <= fuel)%nat ->
                          star_loop g (run r') k fuel pos s c <> None
         | _ => True
         end.

End ReSem.

(** The update issued for an entry of [intf_configs]: it goes to the
    serial at the position of the [module] of the record, the first one
    when the record has none, and carries the settings of the record
    without the [module] key. *)
Definition update_of_record (serials : list string) (kc : string * Intf.t)
  (c : api_call) : Prop :=
  exists serial kwargs,
    c = updateDeviceSwitchPort serial kwargs
    /\ index serials (match Intf.module (snd kc) with
                      | Some m => (m - 1)%Z
                      | None => 0%Z
                      end) = Ok serial
    /\ Intf.module kwargs = None
    /\ Intf.portId kwargs = Intf.portId (snd kc)
    /\ Intf.name kwargs = Intf.name (snd kc)
    /\ Intf.type kwargs = Intf.type (snd kc)
    /\ Intf.voiceVlan kwargs = Intf.voiceVlan (snd kc)
    /\ Intf.vlan kwargs = Intf.vlan (snd kc)
    /\ Intf.allowedVlans kwargs = Intf.allowedVlans (snd kc).

(** The record has the address [a] in its subnet. *)
Definition holds_gateway (a : Z) (r : Svi.t) : bool :=
  match Ip.ip_network (Svi.subnet r) true with
  | Ok n => Ip.contains_address n a
  | Raised _ => false
  end.

(** The record as the gateway loop leaves it. *)
Definition flag_gateway (default_gateway : string) (a : Z) (r : Svi.t) : Svi.t :=
  if holds_gateway a r then Svi.set_defaultGateway r default_gateway else r.

(** The [vlanId] of the last record that holds the gateway, [d] when
    there is none. *)
Definition last_holder (a : Z) (svi_data : Dict.t Svi.t) (d : string) : string :=
  fold_left (fun d kr => if holds_gateway a (snd kr) then Svi.vlanId (snd kr) else d)
    svi_data d.

(** The subnet of every record is the text of an IPv4 network. *)
Definition subnets_parse (svi_data : Dict.t Svi.t) : Prop :=
  forall k r, In (k, r) svi_data ->
    exists n, Ip.ip_network (Svi.subnet r) true = Ok n.

(** The dashboard gives the [vlanId]s of the devices as numbers. *)
Definition numeric_ids (dash : dashboard) (serials : list string) : Prop :=
  forall serial ri, In serial serials -> In ri (dash serial) ->
    exists z, ri_vlanId ri = PInt z.

(** The calls of the gateway loop for one device: the query, then the
    creation of every record that holds the gateway, with the gateway set
    on it. *)
Definition gateway_calls (default_gateway : string) (a : Z)
  (svi_data : Dict.t Svi.t) (serial : string) : list api_call :=
  getDeviceSwitchRoutingInterfaces serial
  :: map (fun kr => createDeviceSwitchRoutingInterface serial
                      (Svi.set_defaultGateway (snd kr) default_gateway))
       (filter (fun kr => holds_gateway a (snd kr)) svi_data).

(** The text of a byte is read back as the byte and holds neither a dot
    nor a slash. *)
Definition byte_text_ok (b : Z) : bool :=
  match Ip.parse_octet (str_of_Z b) with
  | Ok z => (z =? b)%Z
  | Raised _ => false
  end
  && negb (occurs "." (str_of_Z b)) && negb (occurs "/" (str_of_Z b)).

(** The text of a prefix length is read back as that mask and holds no
    slash. *)
Definition prefix_text_ok (p : Z) : bool :=
  match Ip.make_netmask (str_of_Z p) with
  | Ok (nm, q) => (nm =? Ip.ip_int_from_prefix p)%Z && (q =? p)%Z
  | Raised _ => false
  end
  && negb (occurs "/" (str_of_Z p)).

(** A network as [ip_network] builds it: a 32-bit address without host
    bits, the mask of its prefix length. *)
Definition network_ok (n : Ip.network) : Prop :=
  (0 <= Ip.prefixlen n <= 32)%Z
  /\ Ip.netmask n = Ip.ip_int_from_prefix (Ip.prefixlen n)
  /\ (0 <= Ip.network_address n < 2 ^ 32)%Z
  /\ Z.land (Ip.network_address n) (Ip.netmask n) = Ip.network_address n.

(** A record as [parse_svi_data] stores it under the key [k]: stored under
    its own [vlanId], a run of digits; without a gateway; with the
    address of the block and the text of a network as subnet. *)
Definition svi_record_ok (k : string) (r : Svi.t) : Prop :=
  Svi.vlanId r = k
  /\ k <> "" /\ all_digits k = true
  /\ Svi.defaultGateway r = None
  /\ Svi.interfaceIp r <> ""
  /\ exists n, network_ok n /\ Svi.subnet r = Ip.str_of_network n.

(** The record of a retained interface on unit [u] with raw port [p]: the
    port number as read, the unit as [module] when there are several
    target switches, and the settings of the children. *)
Definition intf_record (num_switches u p : Z) (intf_obj : line) : Intf.t :=
  fold_left intf_child (children intf_obj)
    (Intf.Mk (str_of_Z p) (if (1 <? num_switches)%Z then Some u else None)
       None None None None None None).

(** The port number in the header is longer than [int] accepts. *)
Definition port_too_long (intf_obj : line) : bool :=
  (max_str_digits <? Z.of_nat (String.length (port_number_of intf_obj)))%Z.

(** The exception the loop body of [parse_intf_config] raises on a block,
    if any: a [ValueError] of [int] for a retained interface whose port
    number is too long, a [TypeError] for a retained interface on a unit
    above 1 when there is one target switch. *)
Definition step_fault (num_switches : Z) (intf_obj : line) : option exn :=
  if is_downlink intf_obj then
    if port_too_long intf_obj then Some ValueError
    else if (num_switches =? 1)%Z
            && match int_of_str (switch_module_of intf_obj) with
               | Ok u => (1 <? u)%Z
               | Raised _ => false
               end
         then Some TypeError
         else None
  else None.

(** The exception of the first block that has one. *)
Fixpoint first_fault (num_switches : Z) (interfaces : list line) : option exn :=
  match interfaces with
  | [] => None
  | intf_obj :: rest =>
      match step_fault num_switches intf_obj with
      | Some e => Some e
      | None => first_fault num_switches rest
      end
  end.

(** The header of the block of a port in unit/slot/port numbering, as
    [show run] prints it. *)
Definition stack_header (unit_no slot port : Z) : string :=
  "interface GigabitEthernet" ++ str_of_Z unit_no ++ "/" ++ str_of_Z slot
  ++ "/" ++ str_of_Z port.

(** The interface block has a [shutdown] line among its children. *)
Definition is_shut (intf_obj : line) : bool :=
  existsb (re_search Pat.shutdown) (children intf_obj).

(** Some interface block of the configuration with this name has a
    [shutdown] line. *)
Definition shut_in_config (cfg : config) (intf_name : string) : bool :=
  existsb (fun b => is_shut b && String.eqb (intf_name_of b) intf_name)
    (find_objects Pat.interface cfg).

(** The header of an interface block, taken apart: the word [interface],
    white space, a name that starts with a character that is no white
    space and stays on the line, and the end of the text or a last
    newline. *)
Definition header_parts (s ws name tail : list ascii) : Prop :=
  s = list_ascii_of_string "interface" ++ ws ++ name ++ tail
  /\ ws <> []
  /\ forallb Re.is_space ws = true
  /\ (exists a w,
        name = a :: w
        /\ Re.is_space a = false
        /\ forallb (Re.cls_match Re.AnyChar) w = true)
  /\ (tail = [] \/ tail = [Re.newline]).

(** ** Sample configurations *)

Module Sample.

(** The block of a downlink port, as [show run] prints its header. *)
Definition gigabit (unit_no port : nat) (children : list string) : line :=
  MkLine ("interface GigabitEthernet" ++ str_of_Z (Z.of_nat unit_no)
          ++ "/0/" ++ str_of_Z (Z.of_nat port)) children.

Definition vlan10 : line :=
  MkLine "interface Vlan10"
    [" description Users"; " ip address 10.0.1.5 255.255.255.0"].

Definition vlan20 : line :=
  MkLine "interface Vlan20"
    [" ip address 10.0.2.1 255.255.255.0"; " ip helper-address 10.9.9.9"].

(** A VLAN interface without an address. *)
Definition vlan30 : line :=
  MkLine "interface Vlan30" [" no ip address"; " shutdown"].

(** A second block for VLAN 10. *)
Definition vlan10_again : line :=
  MkLine "interface Vlan10" [" ip address 10.0.7.5 255.255.255.0"].

(** One switch with two VLAN interfaces and two ports, one of them shut. *)
Definition one_switch : config :=
  [ MkLine "hostname sw1" [];
    vlan10;
    vlan20;
    gigabit 1 1 [" description uplink"; " switchport mode trunk";
                 " switchport trunk native vlan 99";
                 " switchport trunk allowed vlan 10,20"];
    gigabit 1 2 [" switchport mode access"; " switchport access vlan 10";
                 " switchport voice vlan 20"; " shutdown"] ].

(** A stack of two units with 24 ports each. *)
Definition stack_2x24 : config :=
  map (fun p => gigabit 1 p []) (seq 1 24)
  ++ map (fun p => gigabit 2 p []) (seq 1 24).

(** A stack of two units with the VLAN interfaces of [one_switch]. *)
Definition two_units : config :=
  [ vlan10; vlan20;
    gigabit 1 1 [" switchport mode access"];
    gigabit 2 7 [" switchport access vlan 20"] ].

(** A dashboard on which no device has a routed interface yet. *)
Definition empty_dashboard : dashboard := fun _ => [].

(** A dashboard on which every device has a routed interface for VLAN 5
    that carries a default gateway. *)
Definition dashboard_with_gateway : dashboard :=
  fun _ => [MkRouted (PInt 5) (Some "10.0.5.1")].

(** What the extractors give on [one_switch]. *)
Definition svi_data : Dict.t Svi.t :=
  [ ("10", Svi.Mk "Users" "10" "10.0.1.5" "10.0.1.0/24" None);
    ("20", Svi.Mk "Vlan20" "20" "10.0.2.1" "10.0.2.0/24" None) ].

Definition shut_interfaces : list string := ["GigabitEthernet1/0/2"].

Definition intf_configs : Dict.t Intf.t :=
  [ ("GigabitEthernet1/0/1",
     Intf.Mk "1" None (Some "uplink") (Some "trunk") None (Some "99")
       (Some "10,20") None);
    ("GigabitEthernet1/0/2",
     Intf.Mk "2" None None (Some "access") (Some "20") (Some "10") None None) ].

(** The serials of two target switches. *)
Definition two_serials : list string := ["Q2XX-0001"; "Q2XX-0002"].

(** Two SVI records whose subnets both hold 10.0.2.1. *)
Definition overlapping : Dict.t Svi.t :=
  [ ("5", Svi.Mk "Wide" "5" "10.0.0.1" "10.0.0.0/16" None);
    ("20", Svi.Mk "Vlan20" "20" "10.0.2.1" "10.0.2.0/24" None) ].

(** Two blocks for one port, with different access VLANs. *)
Definition repeated_port : config :=
  [ gigabit 1 3 [" switchport access vlan 10"; " shutdown"];
    gigabit 1 3 [" switchport access vlan 30"] ].

(** Two VLAN interfaces whose subnets both hold 10.0.2.1: VLAN 5, in a
    VRF of its own, and VLAN 20. *)
Definition overlapping_subnets : config :=
  [ MkLine "interface Vlan5"
      [" description Wide"; " vrf forwarding LAB";
       " ip address 10.0.0.1 255.255.0.0"];
    vlan20 ].

End Sample.

(** * Properties *)

(** ** Dictionaries *)

Section DictFacts.
Variable V : Type.
Implicit Types (d : Dict.t V) (k : string) (v : V).

Lemma get_set_eq d k v : Dict.get (Dict.set d k v) k = Some v.
Proof.
  induction d as [| [k' v'] d IH]; simpl.
  - now rewrite String.eqb_refl.
  - destruct (String.eqb k k') eqn:E; simpl; rewrite E; auto.
Qed.

Lemma get_set_neq d k k' v :
  k <> k' -> Dict.get (Dict.set d k v) k' = Dict.get d k'.
Proof.
  intros Hne. induction d as [| [k0 v0] d IH]; simpl.
  - destruct (String.eqb_spec k' k); congruence.
  - destruct (String.eqb_spec k k0) as [-> | Hk]; simpl.
    + destruct (String.eqb_spec k' k0); congruence.
    + now rewrite IH.
Qed.

Lemma get_none_keys d k : Dict.get d k = None <-> ~ In k (Dict.keys d).
Proof.
  induction d as [| [k0 v0] d IH]; simpl.
  - tauto.
  - destruct (String.eqb_spec k k0) as [-> | Hk].
    + split; [discriminate | tauto].
    + rewrite IH. split; [intros H [E | H']; [congruence | tauto] | tauto].
Qed.

Lemma mem_false_get d k : Dict.mem d k = false <-> Dict.get d k = None.
Proof.
  unfold Dict.mem. destruct (Dict.get d k); split; congruence.
Qed.

Lemma set_fresh d k v :
  Dict.get d k = None -> Dict.set d k v = d ++ [(k, v)].
Proof.
  induction d as [| [k0 v0] d IH]; simpl; [reflexivity |].
  destruct (String.eqb k k0); [discriminate |].
  intros H. now rewrite IH.
Qed.

Lemma keys_set_present d k v :
  Dict.get d k <> None -> Dict.keys (Dict.set d k v) = Dict.keys d.
Proof.
  induction d as [| [k0 v0] d IH]; simpl; [congruence |].
  destruct (String.eqb k k0); simpl; [reflexivity |].
  intros H. now rewrite IH.
Qed.

Lemma dict_ok_set d k v : dict_ok d -> dict_ok (Dict.set d k v).
Proof.
  unfold dict_ok. intros Hd.
  destruct (Dict.get d k) eqn:G.
  - rewrite keys_set_present; [assumption | congruence].
  - rewrite (@set_fresh d k v G). unfold Dict.keys. rewrite map_app. simpl.
    apply NoDup_app; [assumption | repeat constructor; simpl; tauto |].
    intros x Hx [<- | []]. now apply get_none_keys in G.
Qed.

Lemma get_in d k v : dict_ok d -> In (k, v) d -> Dict.get d k = Some v.
Proof.
  unfold dict_ok. induction d as [| [k0 v0] d IH]; simpl; [tauto |].
  intros Hd [E | Hin].
  - injection E as -> ->. now rewrite String.eqb_refl.
  - inversion Hd as [| ? ? Hnot Hd']; subst.
    destruct (String.eqb_spec k k0) as [-> | _].
    + exfalso. apply Hnot. change k0 with (fst (k0, v)). now apply in_map.
    + now apply IH.
Qed.

Lemma in_get d k v : Dict.get d k = Some v -> In (k, v) d.
Proof.
  induction d as [| [k0 v0] d IH]; simpl; [discriminate |].
  destruct (String.eqb_spec k k0) as [-> | _].
  - intros [= ->]. now left.
  - intros H. right. now apply IH.
Qed.

(** Removing a key that is present leaves the other entries, in order. *)
Lemma del_present d k :
  dict_ok d -> In k (Dict.keys d) ->
  Dict.del d k = Ok (filter (fun kv => negb (String.eqb (fst kv) k)) d).
Proof.
  unfold dict_ok. induction d as [| [k0 v0] d IH]; simpl; [tauto |].
  intros Hd Hin. inversion Hd as [| ? ? Hnot Hd']; subst.
  destruct (String.eqb_spec k k0) as [-> | Hk].
  - rewrite String.eqb_refl. simpl. f_equal.
    symmetry. apply forallb_filter_id. apply forallb_forall.
    intros [k1 v1] H1. simpl. destruct (String.eqb_spec k1 k0) as [-> | _]; [| reflexivity].
    exfalso. apply Hnot. change k0 with (fst (k0, v1)). now apply in_map.
  - destruct Hin as [E | Hin]; [congruence |].
    rewrite (IH Hd' Hin). simpl.
    destruct (String.eqb_spec k0 k) as [E | _]; [congruence | reflexivity].
Qed.

End DictFacts.

Lemma for_each_app {A S : Type} (body : S -> A -> result S) (l1 l2 : list A) (s : S) :
  for_each body (l1 ++ l2) s = (s' <- for_each body l1 s ;; for_each body l2 s').
Proof.
  revert s. induction l1 as [| a l1 IH]; intros s; simpl; [reflexivity |].
  destruct (body s a); simpl; auto.
Qed.

(** ** C1: a gateway outside every subnet *)

(** C1.  The claim: when the gateway address lies in none of the extracted
    subnets, [configure_meraki] reports the error and returns without any
    bulk call.  The code prints the message and goes on: with the gateway
    10.0.9.1, outside 10.0.1.0/24 and 10.0.2.0/24, the run on [one_switch]
    still creates both routed interfaces and updates both ports. *)
Theorem C1_no_gateway_bulk_still_applied :
  main Sample.empty_dashboard Sample.one_switch "10.0.9.1" ["Q2XX-0001"] =
  ([ getDeviceSwitchRoutingInterfaces "Q2XX-0001";
     createDeviceSwitchRoutingInterface "Q2XX-0001"
       (Svi.Mk "Users" "10" "10.0.1.5" "10.0.1.0/24" None);
     createDeviceSwitchRoutingInterface "Q2XX-0001"
       (Svi.Mk "Vlan20" "20" "10.0.2.1" "10.0.2.0/24" None);
     updateDeviceSwitchPort "Q2XX-0001"
       (Intf.Mk "1" None (Some "uplink") (Some "trunk") None (Some "99")
          (Some "10,20") (Some true));
     updateDeviceSwitchPort "Q2XX-0001"
       (Intf.Mk "2" None None (Some "access") (Some "20") (Some "10")
          None (Some false)) ],
   Ok tt).
Proof. vm_compute. reflexivity. Qed.

(** ** C2: port numbers on a single target switch *)

(** With one target switch, the branch for a unit above 1 subtracts from
    the captured text without converting it: the subtraction raises. *)
Lemma number_port_single_raises (module_counter port_number m : Z) (sm : string) :
  int_of_str sm = Ok m -> (1 < m)%Z ->
  number_port 1 module_counter (PStr sm) port_number = Raised TypeError.
Proof.
  intros Hm Hlt. unfold number_port. simpl. rewrite Hm. simpl.
  destruct (Z.eqb_spec m 1) as [E | _]; [lia |].
  destruct (Z.ltb_spec 1 m) as [_ | E]; [reflexivity | lia].
Qed.

(** C2.  The claim: with one target switch, unit 1 with ports 1..24 and
    unit 2 with ports 1..24, port 5 of unit 2 gets portId 29.  The code
    raises [TypeError] at the first port of unit 2 and produces no record
    at all. *)
Theorem C2_single_switch_stack_raises :
  parse_intf_config Sample.stack_2x24 1 = Raised TypeError.
Proof. vm_compute. reflexivity. Qed.

(** ** C3: devices that already have a default gateway *)

Lemma contains_occurs (c : ascii) (needle haystack : string) :
  contains (String c needle) haystack = true -> occurs c haystack = true.
Proof.
  induction haystack as [| a h IH]; simpl.
  - discriminate.
  - destruct (ascii_dec c a) as [-> | Hne].
    + intros _. now rewrite Ascii.eqb_refl.
    + intros H. rewrite (IH H). apply orb_true_r.
Qed.

Lemma uint_has_no_letter (u : Decimal.uint) :
  occurs "d" (NilEmpty.string_of_uint u) = false.
Proof. induction u; simpl; auto. Qed.

Lemma str_of_Z_has_no_letter (z : Z) : occurs "d" (str_of_Z z) = false.
Proof.
  unfold str_of_Z, NilZero.string_of_int, NilZero.string_of_uint.
  destruct (Z.to_int z) as [u | u].
  - destruct u; try apply uint_has_no_letter; reflexivity.
  - destruct u; simpl; try apply uint_has_no_letter; reflexivity.
Qed.

(** The list [configure_meraki] passes holds the [vlanId]s as text: when
    they are numbers, the test finds no default gateway, whatever the
    interfaces of the device carry. *)
Lemma check_default_gateway_numeric (response : list routed_interface) :
  (forall ri, In ri response -> exists z, ri_vlanId ri = PInt z) ->
  check_default_gateway (map (fun svi => str (ri_vlanId svi)) response) = false.
Proof.
  induction response as [| ri rest IH]; intros Hnum; simpl.
  - reflexivity.
  - destruct (Hnum ri (or_introl eq_refl)) as [z Hz]. rewrite Hz. simpl str.
    destruct (contains "defaultGateway" (str_of_Z z)) eqn:Hc.
    + apply contains_occurs in Hc. now rewrite str_of_Z_has_no_letter in Hc.
    + apply IH. intros ri' Hin. apply Hnum. now right.
Qed.

(** C3.  The claim: a device whose routed interfaces already include one
    with a default gateway gets no gateway-creating call.  On
    [dashboard_with_gateway] the device has such an interface, and the run
    still creates the routed interface of VLAN 20 with the gateway on it. *)
Theorem C3_gateway_created_despite_existing :
  Sample.dashboard_with_gateway "Q2XX-0001"
    = [MkRouted (PInt 5) (Some "10.0.5.1")]
  /\ main Sample.dashboard_with_gateway Sample.one_switch "10.0.2.1"
       ["Q2XX-0001"] =
     ([ getDeviceSwitchRoutingInterfaces "Q2XX-0001";
        createDeviceSwitchRoutingInterface "Q2XX-0001"
          (Svi.Mk "Vlan20" "20" "10.0.2.1" "10.0.2.0/24" (Some "10.0.2.1"));
        createDeviceSwitchRoutingInterface "Q2XX-0001"
          (Svi.Mk "Users" "10" "10.0.1.5" "10.0.1.0/24" None);
        updateDeviceSwitchPort "Q2XX-0001"
          (Intf.Mk "1" None (Some "uplink") (Some "trunk") None (Some "99")
             (Some "10,20") (Some true));
        updateDeviceSwitchPort "Q2XX-0001"
          (Intf.Mk "2" None None (Some "access") (Some "20") (Some "10")
             None (Some false)) ],
      Ok tt).
Proof. split; [reflexivity | vm_compute; reflexivity]. Qed.

(** ** The SVI extractor *)

Lemma split_not_nil (sep : ascii) (s : string) : Ip.split sep s <> [].
Proof.
  destruct s as [| c s]; simpl; [discriminate |].
  destruct (Ascii.eqb c sep); [discriminate |].
  destruct (Ip.split sep s); discriminate.
Qed.

Lemma split_single (sep : ascii) (s w : string) :
  Ip.split sep s = [w] -> w = s.
Proof.
  revert w. induction s as [| c s IH]; simpl; intros w.
  - now intros [= <-].
  - destruct (Ascii.eqb c sep).
    + intros [= _ H]. now apply split_not_nil in H.
    + destruct (Ip.split sep s) as [| w' ws] eqn:E.
      * now apply split_not_nil in E.
      * intros [= <- ->]. f_equal. now apply IH.
Qed.

Lemma split_append (sep : ascii) (a b : string) :
  Ip.split sep (a ++ String sep b) = Ip.split sep a ++ Ip.split sep b.
Proof.
  induction a as [| c a IH]; simpl.
  - now rewrite Ascii.eqb_refl.
  - destruct (Ascii.eqb c sep); [now rewrite IH |].
    rewrite IH. destruct (Ip.split sep a) as [| w ws] eqn:E.
    + now apply split_not_nil in E.
    + reflexivity.
Qed.

(** The network of an address and a mask, read without strictness: the
    address with the mask applied, whether or not it had host bits. *)
Lemma ip_network_nonstrict (ip mask : string) (n : Ip.network) :
  Ip.ip_network (ip ++ "/" ++ mask) false = Ok n ->
  exists a nm p,
    Ip.ip_address ip = Ok a /\ Ip.make_netmask mask = Ok (nm, p)
    /\ n = Ip.MkNetwork (Z.land a nm) nm p.
Proof.
  unfold Ip.ip_network. simpl append. rewrite split_append.
  destruct (Ip.split "/" ip) as [| w1 r1] eqn:E1; [now apply split_not_nil in E1 |].
  destruct (Ip.split "/" mask) as [| w2 r2] eqn:E2; [now apply split_not_nil in E2 |].
  destruct r1 as [| x r1]; simpl.
  - apply split_single in E1. subst w1.
    destruct r2 as [| y r2]; [| discriminate].
    apply split_single in E2. subst w2.
    destruct (Ip.ip_address ip) as [a |]; simpl; [| discriminate].
    destruct (Ip.make_netmask mask) as [[nm p] |]; simpl; [| discriminate].
    destruct (Z.eqb_spec (Z.land a nm) a) as [E | _]; simpl; intros [= <-];
      exists a, nm, p; repeat split; congruence.
  - destruct r1; simpl; [destruct r2 |]; discriminate.
Qed.

Section SviSteps.
Implicit Types (d : Dict.t Svi.t) (v : line) (id : string).

(** What the loop body does, once the header and the children are read. *)
Lemma svi_step_unfold d v id desc ip mask :
  vlan_id_of v = Ok id -> svi_fields v = (desc, ip, mask) ->
  svi_step d v =
  if negb (Dict.mem d id) && negb (String.eqb ip "") && negb (String.eqb mask "")
  then subnet <- Ip.ip_network (ip ++ "/" ++ mask) false ;;
       Ok (Dict.set d id (svi_record id desc ip subnet))
  else Ok d.
Proof. intros Hid Hf. unfold svi_step. rewrite Hid, Hf. reflexivity. Qed.

Lemma svi_step_missing d v id :
  vlan_id_of v = Ok id -> svi_fields_missing v = true -> svi_step d v = Ok d.
Proof.
  intros Hid Hm. unfold svi_fields_missing in Hm.
  destruct (svi_fields v) as [[desc ip] mask] eqn:Hf.
  rewrite (@svi_step_unfold d v id desc ip mask Hid Hf).
  destruct (String.eqb ip ""), (String.eqb mask ""); simpl in *;
    try discriminate; now rewrite ?andb_false_r.
Qed.

(** A record that is in the map stays as it is. *)
Lemma svi_step_keeps d d' v id r :
  svi_step d v = Ok d' -> Dict.get d id = Some r -> Dict.get d' id = Some r.
Proof.
  intros Hs Hg. unfold svi_step in Hs.
  destruct (vlan_id_of v) as [id' |]; simpl in Hs; [| discriminate].
  destruct (svi_fields v) as [[desc ip] mask].
  destruct (Dict.mem d id') eqn:Hm; simpl in Hs; [now injection Hs as <- |].
  destruct (negb (String.eqb ip "") && negb (String.eqb mask ""));
    [| now injection Hs as <-].
  destruct (Ip.ip_network _ false); simpl in Hs; [| discriminate].
  injection Hs as <-. rewrite get_set_neq; [assumption |].
  intros ->. apply mem_false_get in Hm. congruence.
Qed.

(** A block touches the entry of its own VLAN only. *)
Lemma svi_step_other d d' v id :
  svi_step d v = Ok d' -> vlan_id_of v <> Ok id -> Dict.get d' id = Dict.get d id.
Proof.
  intros Hs Hne. unfold svi_step in Hs.
  destruct (vlan_id_of v) as [id' |]; simpl in Hs; [| discriminate].
  destruct (svi_fields v) as [[desc ip] mask].
  destruct (negb (Dict.mem d id') && negb (String.eqb ip "")
            && negb (String.eqb mask "")); [| now injection Hs as <-].
  destruct (Ip.ip_network _ false); simpl in Hs; [| discriminate].
  injection Hs as <-. apply get_set_neq. congruence.
Qed.

Lemma svi_step_ok d d' v :
  svi_data_ok d -> svi_step d v = Ok d' -> svi_data_ok d'.
Proof.
  intros [Hd Hk] Hs. unfold svi_step in Hs.
  destruct (vlan_id_of v) as [id' |]; simpl in Hs; [| discriminate].
  destruct (svi_fields v) as [[desc ip] mask].
  destruct (Dict.mem d id') eqn:Hm; simpl in Hs;
    [injection Hs as <-; now split |].
  destruct (negb (String.eqb ip "") && negb (String.eqb mask ""));
    [| injection Hs as <-; now split].
  destruct (Ip.ip_network _ false) as [n |]; simpl in Hs; [| discriminate].
  injection Hs as <-. split; [now apply dict_ok_set |].
  apply mem_false_get in Hm. rewrite (@set_fresh _ d id' _ Hm).
  intros k r Hin. apply in_app_or in Hin. destruct Hin as [Hin | [E | []]].
  - now apply Hk.
  - injection E as <- <-. reflexivity.
Qed.

Lemma for_each_svi_keeps l d d' id r :
  for_each svi_step l d = Ok d' -> Dict.get d id = Some r -> Dict.get d' id = Some r.
Proof.
  revert d. induction l as [| v l IH]; simpl; intros d.
  - now intros [= <-].
  - destruct (svi_step d v) as [d1 |] eqn:E; simpl; [| discriminate].
    intros H G. apply (IH d1 H). eapply svi_step_keeps; eassumption.
Qed.

Lemma for_each_svi_ok l d d' :
  svi_data_ok d -> for_each svi_step l d = Ok d' -> svi_data_ok d'.
Proof.
  revert d. induction l as [| v l IH]; simpl; intros d Hd.
  - now intros [= <-].
  - destruct (svi_step d v) as [d1 |] eqn:E; simpl; [| discriminate].
    apply IH. eapply svi_step_ok; eassumption.
Qed.

(** Blocks without an address leave no record for their VLAN. *)
Lemma for_each_svi_none l d d' id :
  (forall x, In x l -> vlan_id_of x = Ok id -> svi_fields_missing x = true) ->
  for_each svi_step l d = Ok d' -> Dict.get d id = None -> Dict.get d' id = None.
Proof.
  revert d. induction l as [| v l IH]; simpl; intros d Hl.
  - now intros [= <-].
  - destruct (svi_step d v) as [d1 |] eqn:E; simpl; [| discriminate].
    intros H G. apply (IH d1); [intros x Hx; apply Hl; now right | assumption |].
    destruct (vlan_id_of v) as [id' |] eqn:Hid.
    + destruct (String.eqb_spec id' id) as [-> | Hne].
      * rewrite (@svi_step_missing d v id Hid) in E by (apply Hl; auto).
        now injection E as <-.
      * rewrite (@svi_step_other d d1 v id E); [assumption | congruence].
    + rewrite (@svi_step_other d d1 v id E); [assumption | congruence].
Qed.

(** The first block of a VLAN that has an address and a mask gives the
    record of that VLAN. *)
Lemma for_each_svi_first pre b post id desc ip mask d0 d :
  (forall x, In x pre -> vlan_id_of x = Ok id -> svi_fields_missing x = true) ->
  Dict.get d0 id = None ->
  vlan_id_of b = Ok id -> svi_fields b = (desc, ip, mask) ->
  ip <> "" -> mask <> "" ->
  for_each svi_step (pre ++ b :: post) d0 = Ok d ->
  exists n, Ip.ip_network (ip ++ "/" ++ mask) false = Ok n
            /\ Dict.get d id = Some (svi_record id desc ip n).
Proof.
  intros Hpre G0 Hid Hf Hip Hmask Hrun.
  rewrite for_each_app in Hrun.
  destruct (for_each svi_step pre d0) as [d1 |] eqn:E1; simpl in Hrun; [| discriminate].
  pose proof (@for_each_svi_none pre d0 d1 id Hpre E1 G0) as G1.
  simpl in Hrun.
  destruct (svi_step d1 b) as [d2 |] eqn:E2; simpl in Hrun; [| discriminate].
  rewrite (@svi_step_unfold d1 b id desc ip mask Hid Hf) in E2.
  apply mem_false_get in G1. rewrite G1 in E2.
  destruct (String.eqb_spec ip "") as [? | _]; [contradiction |].
  destruct (String.eqb_spec mask "") as [? | _]; [contradiction |].
  simpl in E2.
  destruct (Ip.ip_network _ false) as [n |]; simpl in E2; [| discriminate].
  injection E2 as <-.
  exists n. split; [reflexivity |].
  eapply for_each_svi_keeps; [eassumption |]. apply get_set_eq.
Qed.

(** The extraction gets through blocks that are well formed. *)
Lemma for_each_svi_returns l d :
  forallb svi_block_ok l = true -> exists d', for_each svi_step l d = Ok d'.
Proof.
  revert d. induction l as [| v l IH]; simpl; intros d.
  - intros _. now exists d.
  - intros H. apply andb_prop in H. destruct H as [Hv Hl].
    assert (exists d1, svi_step d v = Ok d1) as [d1 E].
    { unfold svi_block_ok, svi_fields_missing in Hv. unfold svi_step.
      destruct (vlan_id_of v) as [id |]; [| discriminate]. simpl.
      destruct (svi_fields v) as [[desc ip] mask].
      destruct (Dict.mem d id); simpl; [now eexists |].
      destruct (String.eqb ip ""); simpl; [now eexists |].
      destruct (String.eqb mask ""); simpl; [now eexists |].
      simpl in Hv. destruct (Ip.ip_network _ false); [| discriminate].
      simpl. now eexists. }
    rewrite E. simpl. apply IH. assumption.
Qed.

End SviSteps.

Lemma find_objects_app (r : Re.regex) (c1 c2 : config) :
  find_objects r (c1 ++ c2) = find_objects r c1 ++ find_objects r c2.
Proof. apply filter_app. Qed.

(** C5.  For a VLAN block with an address and a mask, the first one of its
    VLAN to have them, the record [parse_svi_data] returns for the VLAN has
    as subnet the text of the network made of the address with the mask
    applied (host bits cleared, not rejected) and of the prefix length of
    the mask, and keeps the address as written. *)
Theorem C5_subnet_is_cidr_network
  (cfg : config) (pre post : list line) (b : line)
  (id desc ip mask : string) (d : Dict.t Svi.t) :
  find_objects Pat.interface_vlan cfg = pre ++ b :: post ->
  vlan_id_of b = Ok id ->
  svi_fields b = (desc, ip, mask) -> ip <> "" -> mask <> "" ->
  (forall x, In x pre -> vlan_id_of x = Ok id -> svi_fields_missing x = true) ->
  parse_svi_data cfg = Ok d ->
  exists a nm p r,
    Ip.ip_address ip = Ok a
    /\ Ip.make_netmask mask = Ok (nm, p)
    /\ nm = Ip.ip_int_from_prefix p
    /\ Dict.get d id = Some r
    /\ Svi.subnet r = Ip.str_of_network (Ip.MkNetwork (Z.land a nm) nm p)
    /\ Z.land (Z.land a nm) nm = Z.land a nm
    /\ Svi.interfaceIp r = ip.
Proof.
  intros Hv Hid Hf Hip Hmask Hpre Hrun. unfold parse_svi_data in Hrun.
  rewrite Hv in Hrun.
  destruct (@for_each_svi_first pre b post id desc ip mask [] d
              Hpre eq_refl Hid Hf Hip Hmask Hrun) as (n & Hn & Hg).
  destruct (@ip_network_nonstrict ip mask n Hn) as (a & nm & p & Ha & Hm & ->).
  exists a, nm, p, (svi_record id desc ip (Ip.MkNetwork (Z.land a nm) nm p)).
  repeat split; try assumption.
  - unfold Ip.make_netmask in Hm.
    destruct (match Ip.prefix_from_prefix_string mask with
              | Ok p0 => Ok p0 | Raised _ => Ip.prefix_from_ip_string mask end);
      simpl in Hm; [| discriminate].
    now injection Hm as <- <-.
  - now rewrite <- Z.land_assoc, Z.land_diag.
Qed.

Lemma C5_subnet_is_cidr_network_witness :
  exists a nm p r,
    Ip.ip_address "10.0.1.5" = Ok a
    /\ Ip.make_netmask "255.255.255.0" = Ok (nm, p)
    /\ nm = Ip.ip_int_from_prefix p
    /\ Dict.get [("10", Svi.Mk "Users" "10" "10.0.1.5" "10.0.1.0/24" None);
                 ("20", Svi.Mk "Vlan20" "20" "10.0.2.1" "10.0.2.0/24" None)]
         "10" = Some r
    /\ Svi.subnet r = Ip.str_of_network (Ip.MkNetwork (Z.land a nm) nm p)
    /\ Z.land (Z.land a nm) nm = Z.land a nm
    /\ Svi.interfaceIp r = "10.0.1.5".
Proof.
  apply (@C5_subnet_is_cidr_network Sample.one_switch [] [Sample.vlan20]
           Sample.vlan10 "10" "Users" "10.0.1.5" "255.255.255.0").
  - vm_compute. reflexivity.
  - vm_compute. reflexivity.
  - vm_compute. reflexivity.
  - discriminate.
  - discriminate.
  - intros x [].
  - vm_compute. reflexivity.
Defined.

(** C6.  A VLAN block that ends up without an address or without a mask is
    skipped: the loop body leaves the map as it is, the extraction gives
    the same result as without the block, and when every block of a VLAN
    is such a block the returned map has no record for that VLAN. *)
Theorem C6_block_without_address_skipped
  (c1 c2 : config) (b : line) (id : string) :
  vlan_id_of b = Ok id ->
  svi_fields_missing b = true ->
  (forall svi_data, svi_step svi_data b = Ok svi_data)
  /\ parse_svi_data (c1 ++ b :: c2) = parse_svi_data (c1 ++ c2)
  /\ (forall d,
        parse_svi_data (c1 ++ b :: c2) = Ok d ->
        (forall x, In x (find_objects Pat.interface_vlan (c1 ++ c2)) ->
                   vlan_id_of x = Ok id -> svi_fields_missing x = true) ->
        Dict.get d id = None).
Proof.
  intros Hid Hm.
  assert (Hstep : forall svi_data, svi_step svi_data b = Ok svi_data).
  { intros svi_data. now apply svi_step_missing with (id := id). }
  assert (Heq : parse_svi_data (c1 ++ b :: c2) = parse_svi_data (c1 ++ c2)).
  { unfold parse_svi_data. rewrite !find_objects_app. simpl.
    destruct (re_search Pat.interface_vlan (text b)); [| reflexivity].
    rewrite !for_each_app.
    destruct (for_each svi_step (find_objects Pat.interface_vlan c1) []) as [d1 |];
      simpl; [| reflexivity].
    now rewrite Hstep. }
  repeat split; try assumption.
  intros d Hrun Hall. rewrite Heq in Hrun. unfold parse_svi_data in Hrun.
  now apply (@for_each_svi_none _ [] d id Hall Hrun).
Qed.

Lemma C6_block_without_address_skipped_witness :
  (forall svi_data, svi_step svi_data Sample.vlan30 = Ok svi_data)
  /\ parse_svi_data ([Sample.vlan10] ++ Sample.vlan30 :: [Sample.vlan20])
     = parse_svi_data ([Sample.vlan10] ++ [Sample.vlan20])
  /\ (forall d,
        parse_svi_data ([Sample.vlan10] ++ Sample.vlan30 :: [Sample.vlan20]) = Ok d ->
        (forall x,
            In x (find_objects Pat.interface_vlan ([Sample.vlan10] ++ [Sample.vlan20])) ->
            vlan_id_of x = Ok "30" -> svi_fields_missing x = true) ->
        Dict.get d "30" = None).
Proof.
  apply (@C6_block_without_address_skipped [Sample.vlan10] [Sample.vlan20]
           Sample.vlan30 "30").
  - vm_compute. reflexivity.
  - vm_compute. reflexivity.
Defined.

(** C7.  When several blocks carry the same VLAN number and have an address
    and a mask, the map [parse_svi_data] returns holds for that VLAN the
    record built from the first of them, and holds the VLAN once; and the
    extraction does return a map when its blocks are well formed. *)
Theorem C7_first_block_wins
  (cfg : config) (pre post : list line) (b : line) (id desc ip mask : string) :
  find_objects Pat.interface_vlan cfg = pre ++ b :: post ->
  (forall x, In x pre -> vlan_id_of x <> Ok id) ->
  vlan_id_of b = Ok id ->
  svi_fields b = (desc, ip, mask) -> ip <> "" -> mask <> "" ->
  (forall d,
      parse_svi_data cfg = Ok d ->
      exists n,
        Ip.ip_network (ip ++ "/" ++ mask) false = Ok n
        /\ Dict.get d id = Some (svi_record id desc ip n)
        /\ count_occ string_dec (Dict.keys d) id = 1%nat)
  /\ (forallb svi_block_ok (pre ++ b :: post) = true ->
      exists d, parse_svi_data cfg = Ok d).
Proof.
  intros Hv Hpre Hid Hf Hip Hmask. split.
  - intros d Hrun. unfold parse_svi_data in Hrun. rewrite Hv in Hrun.
    assert (Hpre' : forall x, In x pre -> vlan_id_of x = Ok id ->
                              svi_fields_missing x = true).
    { intros x Hx E. now apply Hpre in E. }
    destruct (@for_each_svi_first pre b post id desc ip mask [] d
                Hpre' eq_refl Hid Hf Hip Hmask Hrun) as (n & Hn & Hg).
    exists n. repeat split; try assumption.
    assert (Hok : svi_data_ok d).
    { apply (@for_each_svi_ok (pre ++ b :: post) [] d); [| assumption].
      split; [constructor | intros k r []]. }
    destruct Hok as [Hnd _].
    pose proof (proj1 (NoDup_count_occ string_dec (Dict.keys d)) Hnd id) as Hle.
    assert (Hin : In id (Dict.keys d)).
    { apply in_get in Hg. change id with (fst (id, svi_record id desc ip n)).
      now apply in_map. }
    apply (count_occ_In string_dec) in Hin. lia.
  - intros Hok. unfold parse_svi_data. rewrite Hv.
    now apply for_each_svi_returns.
Qed.

Lemma C7_first_block_wins_witness :
  (forall d,
      parse_svi_data [Sample.vlan10; Sample.vlan30; Sample.vlan10_again] = Ok d ->
      exists n,
        Ip.ip_network ("10.0.1.5" ++ "/" ++ "255.255.255.0") false = Ok n
        /\ Dict.get d "10" = Some (svi_record "10" "Users" "10.0.1.5" n)
        /\ count_occ string_dec (Dict.keys d) "10" = 1%nat)
  /\ (forallb svi_block_ok ([] ++ Sample.vlan10 :: [Sample.vlan30; Sample.vlan10_again]) = true ->
      exists d,
        parse_svi_data [Sample.vlan10; Sample.vlan30; Sample.vlan10_again] = Ok d).
Proof.
  apply (@C7_first_block_wins
           [Sample.vlan10; Sample.vlan30; Sample.vlan10_again]
           [] [Sample.vlan30; Sample.vlan10_again] Sample.vlan10
           "10" "Users" "10.0.1.5" "255.255.255.0").
  - vm_compute. reflexivity.
  - intros x [].
  - vm_compute. reflexivity.
  - vm_compute. reflexivity.
  - discriminate.
  - discriminate.
Defined.

(** ** The port loop *)

Lemma index_in_range {A : Type} (l : list A) (i : Z) :
  (0 <= i < Z.of_nat (length l))%Z ->
  exists a, nth_error l (Z.to_nat i) = Some a /\ index l i = Ok a.
Proof.
  intros [H0 H1]. unfold index.
  destruct (Z.ltb_spec i 0) as [? | _]; [lia |].
  destruct (Z.leb_spec 0 i) as [_ | ?]; [| lia].
  destruct (Z.ltb_spec i (Z.of_nat (length l))) as [_ | ?]; [| lia]. simpl.
  destruct (nth_error l (Z.to_nat i)) as [a |] eqn:E.
  - now exists a.
  - apply nth_error_None in E. lia.
Qed.

Lemma index_above {A : Type} (l : list A) (i : Z) :
  (Z.of_nat (length l) <= i)%Z -> index l i = Raised IndexError.
Proof.
  intros H. unfold index.
  destruct (Z.ltb_spec i 0) as [? | _]; [lia |].
  destruct (Z.ltb_spec i (Z.of_nat (length l))) as [? | _]; [lia |].
  now rewrite andb_false_r.
Qed.

Lemma port_step_unfold (serials shut_interfaces : list string) (intf : string)
  (cfg : Intf.t) :
  port_step serials shut_interfaces intf cfg =
  match index serials (port_target cfg) with
  | Ok serial =>
      ([updateDeviceSwitchPort serial (port_kwargs shut_interfaces intf cfg)],
       Ok (port_kwargs shut_interfaces intf cfg))
  | Raised e => ([], Raised e)
  end.
Proof.
  unfold port_step, port_kwargs, port_target.
  destruct (in_list intf shut_interfaces); simpl;
    destruct (Intf.module cfg); simpl;
    match goal with |- context [index ?l ?i] => destruct (index l i) end;
    reflexivity.
Qed.

Lemma port_kwargs_enabled (shut_interfaces : list string) (intf : string)
  (cfg : Intf.t) :
  Intf.enabled (port_kwargs shut_interfaces intf cfg)
  = Some (negb (in_list intf shut_interfaces)).
Proof. unfold port_kwargs. simpl. now destruct (Intf.module cfg). Qed.

Lemma port_kwargs_portId (shut_interfaces : list string) (intf : string)
  (cfg : Intf.t) :
  Intf.portId (port_kwargs shut_interfaces intf cfg) = Intf.portId cfg.
Proof. unfold port_kwargs. simpl. now destruct (Intf.module cfg). Qed.

Lemma port_kwargs_module (shut_interfaces : list string) (intf : string)
  (cfg : Intf.t) :
  Intf.module (port_kwargs shut_interfaces intf cfg) = None.
Proof. unfold port_kwargs. simpl. now destruct (Intf.module cfg) eqn:E. Qed.

Lemma in_list_In (x : string) (l : list string) :
  in_list x l = true <-> In x l.
Proof.
  unfold in_list. rewrite existsb_exists. split.
  - intros (y & Hy & E). apply String.eqb_eq in E. now subst.
  - intros H. exists x. split; [assumption | apply String.eqb_refl].
Qed.

(** The loop over the interfaces, on the entries still to visit: each
    entry gets its call, until a lookup in [serials] fails. *)
Lemma bulk_ports_trace (serials shut_interfaces : list string)
  (todo : Dict.t Intf.t) :
  forall intf_configs : Dict.t Intf.t,
    NoDup (Dict.keys todo) ->
    (forall k c, In (k, c) todo -> Dict.get intf_configs k = Some c) ->
    exists done,
      fst (bulk_ports serials shut_interfaces intf_configs (Dict.keys todo))
      = map (fun kc => updateDeviceSwitchPort
                         (match index serials (port_target (snd kc)) with
                          | Ok s => s | Raised _ => "" end)
                         (port_kwargs shut_interfaces (fst kc) (snd kc)))
          (firstn done todo)
      /\ Forall (fun kc => exists s, index serials (port_target (snd kc)) = Ok s)
           (firstn done todo)
      /\ match snd (bulk_ports serials shut_interfaces intf_configs (Dict.keys todo)) with
         | Ok _ => done = length todo
         | Raised e =>
             e = IndexError
             /\ exists kc, nth_error todo done = Some kc
                           /\ index serials (port_target (snd kc)) = Raised IndexError
         end.
Proof.
  induction todo as [| [k c] todo IH]; intros intf_configs Hnd Hget.
  - exists 0%nat. simpl. repeat split. constructor.
  - simpl Dict.keys. simpl bulk_ports.
    rewrite (Hget k c (or_introl eq_refl)).
    rewrite port_step_unfold.
    destruct (index serials (port_target c)) as [s |] eqn:Ei.
    + unfold bindM. inversion Hnd as [| ? ? Hnot Hnd']; subst.
      destruct (IH (Dict.set intf_configs k (port_kwargs shut_interfaces k c)) Hnd')
        as (done & Ht & Hall & Hres).
      { intros k' c' Hin. rewrite get_set_neq.
        - apply Hget. now right.
        - intros ->. apply Hnot. change k' with (fst (k', c')). now apply in_map. }
      exists (S done).
      destruct (bulk_ports serials shut_interfaces
                  (Dict.set intf_configs k (port_kwargs shut_interfaces k c))
                  (Dict.keys todo)) as [t r].
      simpl in *. rewrite Ei. repeat split.
      * now rewrite Ht.
      * constructor; [now exists s | assumption].
      * destruct r; [now f_equal | assumption].
    + exists 0%nat. simpl. repeat split; [constructor | |].
      * unfold index in Ei.
        destruct ((0 <=? _) && (_ <? _))%Z; [| congruence].
        destruct (nth_error serials _); congruence.
      * exists (k, c). split; [reflexivity |]. simpl. rewrite Ei. f_equal.
        unfold index in Ei.
        destruct ((0 <=? _) && (_ <? _))%Z; [| congruence].
        destruct (nth_error serials _); congruence.
Qed.

(** ** The gateway loop *)

Lemma no_update_app (t1 t2 : list api_call) :
  no_update t1 -> no_update t2 -> no_update (t1 ++ t2).
Proof. unfold no_update. intros. apply Forall_app. now split. Qed.

Lemma no_update_filter (t : list api_call) :
  no_update t -> filter is_update t = [].
Proof.
  induction 1 as [| c t Hc _ IH]; simpl; [reflexivity |]. now rewrite Hc.
Qed.

Lemma Forall2_in_left {A B : Type} (R : A -> B -> Prop) (l1 : list A) (l2 : list B) (x : A) :
  Forall2 R l1 l2 -> In x l1 -> exists y, In y l2 /\ R x y.
Proof.
  induction 1 as [| a b l1 l2 Hab _ IH]; simpl; [tauto |].
  intros [<- | Hin].
  - exists b. auto.
  - destruct (IH Hin) as (y & Hy & Hr). exists y. auto.
Qed.

Lemma flagged_refl (gw : string) (l : Dict.t Svi.t) : Forall2 (flagged gw) l l.
Proof. induction l; constructor; [split; auto | assumption]. Qed.

Lemma flagged_trans (gw : string) (l1 l2 l3 : Dict.t Svi.t) :
  Forall2 (flagged gw) l1 l2 -> Forall2 (flagged gw) l2 l3 ->
  Forall2 (flagged gw) l1 l3.
Proof.
  intros H12. revert l3. induction H12 as [| x y l1 l2 [Hk Hr] _ IH]; intros l3 H23.
  - inversion H23. constructor.
  - inversion H23 as [| ? z ? l3' [Hk' Hr'] H23']; subst. constructor; [| now apply IH].
    destruct x as [kx rx], y as [ky ry], z as [kz rz]. unfold flagged. simpl in *.
    split; [congruence |].
    destruct Hr as [-> | ->], Hr' as [-> | ->]; auto.
Qed.

Lemma flagged_keys (gw : string) (l1 l2 : Dict.t Svi.t) :
  Forall2 (flagged gw) l1 l2 -> Dict.keys l2 = Dict.keys l1.
Proof.
  induction 1 as [| x y l1 l2 [Hk _] _ IH]; simpl; [reflexivity |]. now f_equal.
Qed.

Lemma flagged_ok (gw : string) (l1 l2 : Dict.t Svi.t) :
  Forall2 (flagged gw) l1 l2 -> svi_data_ok l1 -> svi_data_ok l2.
Proof.
  intros H [Hnd Hk]. split.
  - unfold dict_ok. now rewrite (flagged_keys H).
  - clear Hnd. induction H as [| [k r] [k' r'] l1 l2 [Hk1 Hr1] _ IH]; [intros ? ? [] |].
    simpl in *. subst k'. intros k0 r0 [E | Hin].
    + injection E as <- <-.
      destruct Hr1 as [-> | ->]; simpl; apply Hk; now left.
    + apply IH; [| assumption]. intros. apply Hk. now right.
Qed.

(** The loop over the SVI records for one device: it never takes the
    [return], it issues nothing but creations, and it leaves each record
    as it was or with the gateway set. *)
Lemma gateway_scan_spec (gw serial : string) (values : Dict.t Svi.t) :
  forall d : string,
    no_update (fst (gateway_scan gw serial values d))
    /\ match snd (gateway_scan gw serial values d) with
       | Ok (Next (values', d')) =>
           Forall2 (flagged gw) values values'
           /\ (d' = d \/ exists k r, In (k, r) values' /\ d' = Svi.vlanId r)
       | Ok Return => False
       | Raised e => True
       end.
Proof.
  induction values as [| [k r] values IH]; intros d; simpl.
  - split; [constructor | split; [constructor | now left]].
  - unfold create_default_svi.
    destruct (Ip.ip_network (Svi.subnet r) true) as [n |]; simpl;
      [| split; [constructor | exact I]].
    destruct (Ip.ip_address gw) as [a |]; simpl;
      [| split; [constructor | exact I]].
    destruct (Ip.contains_address n a); simpl.
    + destruct (IH (Svi.vlanId r)) as [Ht Hr].
      destruct (gateway_scan gw serial values (Svi.vlanId r)) as [t res].
      simpl in *. destruct res as [[[values' d'] |] |]; simpl.
      * split; [constructor; [reflexivity | now rewrite app_nil_r] |].
        destruct Hr as [Hf Hd]. split.
        -- constructor; [split; auto | assumption].
        -- right. destruct Hd as [-> | (k0 & r0 & Hin & ->)].
           ++ exists k, (Svi.set_defaultGateway r gw). split; [now left | reflexivity].
           ++ exists k0, r0. split; [now right | reflexivity].
      * contradiction.
      * split; [constructor; [reflexivity | assumption] | exact I].
    + destruct (IH d) as [Ht Hr].
      destruct (gateway_scan gw serial values d) as [t res].
      simpl in *. destruct res as [[[values' d'] |] |]; simpl.
      * split; [now rewrite app_nil_r |].
        destruct Hr as [Hf Hd]. split.
        -- constructor; [split; auto | assumption].
        -- destruct Hd as [-> | (k0 & r0 & Hin & ->)]; [now left |].
           right. exists k0, r0. split; [now right | reflexivity].
      * contradiction.
      * split; [assumption | exact I].
Qed.

(** The loop over the serials: the same, with the queries. *)
Lemma gateway_phase_spec (dash : dashboard) (gw : string) (serials : list string) :
  forall (svi_data : Dict.t Svi.t) (d : string),
    no_update (fst (gateway_phase dash gw serials svi_data d))
    /\ match snd (gateway_phase dash gw serials svi_data d) with
       | Ok (Next (svi_data', d')) =>
           Forall2 (flagged gw) svi_data svi_data'
           /\ (d' = d \/ exists k r, In (k, r) svi_data' /\ d' = Svi.vlanId r)
       | Ok Return => False
       | Raised e => True
       end.
Proof.
  induction serials as [| serial serials IH]; intros svi_data d; simpl.
  - split; [constructor | split; [apply flagged_refl | now left]].
  - destruct (check_default_gateway _); simpl.
    + destruct (IH svi_data d) as [Ht Hr].
      destruct (gateway_phase dash gw serials svi_data d) as [t res]. simpl in *.
      split; [constructor; [reflexivity | assumption] | assumption].
    + destruct (gateway_scan_spec gw serial svi_data d) as [Ht Hr].
      destruct (gateway_scan gw serial svi_data d) as [t res]. simpl in *.
      destruct res as [[[svi_data1 d1] |] |]; simpl.
      * destruct Hr as [Hf Hd].
        destruct (IH svi_data1 d1) as [Ht' Hr'].
        destruct (gateway_phase dash gw serials svi_data1 d1) as [t' res']. simpl in *.
        split.
        { constructor; [reflexivity |]. now apply no_update_app. }
        destruct res' as [[[svi_data2 d2] |] |]; try assumption.
        destruct Hr' as [Hf' Hd']. split; [eapply flagged_trans; eassumption |].
        destruct Hd' as [-> | Hex]; [| now right].
        destruct Hd as [-> | (k0 & r0 & Hin & ->)]; [now left |].
        right.
        destruct (@Forall2_in_left _ _ _ _ _ (k0, r0) Hf' Hin)
          as ([k1 r1] & Hin1 & Hk1 & Hr1).
        simpl in *. exists k1, r1. split; [assumption |].
        destruct Hr1 as [-> | ->]; reflexivity.
      * contradiction.
      * split; [constructor; [reflexivity | assumption] | exact I].
Qed.

(** ** The bulk loops *)

Lemma create_on_each_trace (serials : list string) (kwargs : Svi.t) :
  create_on_each serials kwargs
  = (map (fun serial => createDeviceSwitchRoutingInterface serial kwargs) serials,
     Ok tt).
Proof.
  induction serials as [| s serials IH]; simpl; [reflexivity |].
  now rewrite IH.
Qed.

Lemma bulk_svis_trace (serials : list string) (svi_data todo : Dict.t Svi.t) :
  (forall k r, In (k, r) todo -> Dict.get svi_data k = Some r) ->
  bulk_svis serials svi_data (Dict.keys todo)
  = (bulk_creations serials todo, Ok tt).
Proof.
  induction todo as [| [k r] todo IH]; intros Hget; simpl; [reflexivity |].
  rewrite (Hget k r (or_introl eq_refl)). simpl.
  rewrite create_on_each_trace. simpl.
  rewrite IH by (intros; apply Hget; now right).
  unfold bulk_creations. simpl. reflexivity.
Qed.

Lemma bulk_creations_no_update (serials : list string) (svi_data : Dict.t Svi.t) :
  no_update (bulk_creations serials svi_data).
Proof.
  unfold no_update, bulk_creations. apply Forall_forall. intros c Hc.
  apply in_flat_map in Hc. destruct Hc as (kr & _ & Hc).
  apply in_map_iff in Hc. destruct Hc as (s & <- & _). reflexivity.
Qed.

(** The second half of [configure_meraki] once the removal of the default
    SVI has gone through. *)
Lemma apply_bulk_trace (serials shut_interfaces : list string)
  (svi_data rest : Dict.t Svi.t) (default_svi : string)
  (intf_configs : Dict.t Intf.t) :
  (if negb (String.eqb default_svi "") then Dict.del svi_data default_svi
   else Ok svi_data) = Ok rest ->
  dict_ok rest ->
  apply_bulk serials svi_data default_svi shut_interfaces intf_configs
  = (bulk_creations serials rest
     ++ fst (bulk_ports serials shut_interfaces intf_configs (Dict.keys intf_configs)),
     match snd (bulk_ports serials shut_interfaces intf_configs (Dict.keys intf_configs)) with
     | Ok _ => Ok tt
     | Raised e => Raised e
     end).
Proof.
  intros Hdel Hok. unfold apply_bulk.
  assert (E : (if negb (String.eqb default_svi "")
               then lift (Dict.del svi_data default_svi) else ret svi_data)
              = ([], Ok rest)).
  { destruct (negb (String.eqb default_svi "")); unfold lift, ret; now rewrite Hdel. }
  rewrite E. simpl.
  rewrite bulk_svis_trace by (intros; now apply get_in).
  simpl.
  destruct (bulk_ports serials shut_interfaces intf_configs (Dict.keys intf_configs))
    as [t [r | e]]; simpl; now rewrite ?app_nil_r.
Qed.

(** When the removal fails, nothing more is issued. *)
Lemma apply_bulk_del_raises (serials shut_interfaces : list string)
  (svi_data : Dict.t Svi.t) (default_svi : string)
  (intf_configs : Dict.t Intf.t) (e : exn) :
  (if negb (String.eqb default_svi "") then Dict.del svi_data default_svi
   else Ok svi_data) = Raised e ->
  apply_bulk serials svi_data default_svi shut_interfaces intf_configs
  = ([], Raised e).
Proof.
  intros Hdel. unfold apply_bulk.
  destruct (negb (String.eqb default_svi "")); unfold lift, ret.
  - now rewrite Hdel.
  - discriminate.
Qed.

Lemma dict_ok_filter {V : Type} (f : string * V -> bool) (d : Dict.t V) :
  dict_ok d -> dict_ok (filter f d).
Proof.
  unfold dict_ok, Dict.keys. induction d as [| kv d IH]; simpl; [auto |].
  intros H. inversion H as [| ? ? Hnot Hd]; subst.
  destruct (f kv); simpl; [| now apply IH].
  constructor; [| now apply IH].
  intros Hin. apply Hnot. apply in_map_iff in Hin.
  destruct Hin as (x & Hx & Hin). apply filter_In in Hin.
  apply in_map_iff. exists x. tauto.
Qed.

Lemma del_ok_dict_ok {V : Type} (d d' : Dict.t V) (k : string) :
  dict_ok d -> Dict.del d k = Ok d' -> dict_ok d'.
Proof.
  intros Hd Hdel.
  destruct (in_dec string_dec k (Dict.keys d)) as [Hin | Hnot].
  - rewrite (@del_present V d k Hd Hin) in Hdel. injection Hdel as <-.
    now apply dict_ok_filter.
  - exfalso. clear Hd. revert d' Hdel.
    induction d as [| [k0 v0] d IH]; simpl in *; intros d'; [discriminate |].
    destruct (String.eqb_spec k k0) as [-> | _]; [tauto |].
    destruct (Dict.del d k) eqn:E; simpl; [| discriminate].
    intros _. eapply IH; [tauto | reflexivity].
Qed.

(** ** The calls of the port loop *)

Lemma port_call_enabled_as_listed (serials shut_interfaces : list string)
  (l : Dict.t Intf.t) :
  Forall2 (enabled_as_listed shut_interfaces) l
    (map (fun kc => updateDeviceSwitchPort
                      (match index serials (port_target (snd kc)) with
                       | Ok s => s | Raised _ => "" end)
                      (port_kwargs shut_interfaces (fst kc) (snd kc))) l).
Proof.
  induction l as [| [k c] l IH]; simpl; constructor; [| assumption].
  eexists _, _. split; [reflexivity |]. simpl.
  rewrite port_kwargs_portId, port_kwargs_enabled.
  repeat split.
  - intros Hin. apply in_list_In in Hin. now rewrite Hin.
  - intros Hnot. destruct (in_list k shut_interfaces) eqn:E; [| reflexivity].
    apply in_list_In in E. contradiction.
Qed.

Lemma filter_all (t : list api_call) :
  Forall (fun c => is_update c = true) t -> filter is_update t = t.
Proof.
  induction 1 as [| c t Hc _ IH]; simpl; [reflexivity |]. now rewrite Hc, IH.
Qed.

Lemma bulk_ports_all_updates (serials shut_interfaces : list string)
  (intf_configs : Dict.t Intf.t) :
  dict_ok intf_configs ->
  Forall (fun c => is_update c = true)
    (fst (bulk_ports serials shut_interfaces intf_configs (Dict.keys intf_configs))).
Proof.
  intros Hok.
  destruct (@bulk_ports_trace serials shut_interfaces intf_configs intf_configs Hok)
    as (done & Ht & _); [intros; now apply get_in |].
  rewrite Ht. apply Forall_forall. intros c Hc.
  apply in_map_iff in Hc. destruct Hc as (kc & <- & _). reflexivity.
Qed.

(** What the extractors give on [Sample.one_switch], and the run of the
    script on a gateway inside the subnet of VLAN 20. *)
Example one_switch_extracted :
  parse_svi_data Sample.one_switch = Ok Sample.svi_data
  /\ parse_shut_intf Sample.one_switch = Sample.shut_interfaces
  /\ parse_intf_config Sample.one_switch 1 = Ok Sample.intf_configs.
Proof. vm_compute. repeat split. Qed.

(** ** C9: the default SVI and the bulk step *)

(** What the code removes is the record under the last value of
    [default_svi]: after the calls of the gateway loop, the trace goes on
    with the creations of the other records of the working map, in order
    and once per serial, then with port updates only; no creation of the
    bulk step has that [vlanId].  The gateway loop has no [break]: when
    several records hold the gateway, each of them is created there, and
    [default_svi] names the last one only. *)
Lemma default_svi_removed_before_bulk
  (dash : dashboard) (default_gateway : string) (serials : list string)
  (svi_data : Dict.t Svi.t) (shut_interfaces : list string)
  (intf_configs : Dict.t Intf.t)
  (t1 : list api_call) (svi_data' : Dict.t Svi.t) (default_svi : string) :
  svi_data_ok svi_data -> dict_ok intf_configs ->
  gateway_phase dash default_gateway serials svi_data ""
    = (t1, Ok (Next (svi_data', default_svi))) ->
  default_svi <> "" ->
  let others :=
    filter (fun kr => negb (String.eqb (fst kr) default_svi)) svi_data' in
  exists t3 res,
    configure_meraki dash default_gateway serials svi_data shut_interfaces
      intf_configs
    = (t1 ++ bulk_creations serials others ++ t3, res)
    /\ Forall (fun c => is_update c = true) t3
    /\ Forall2 (flagged default_gateway) svi_data svi_data'
    /\ In default_svi (Dict.keys svi_data')
    /\ (forall serial kwargs,
          In (createDeviceSwitchRoutingInterface serial kwargs)
            (bulk_creations serials others ++ t3) ->
          Svi.vlanId kwargs <> default_svi).
Proof.
  intros Hok Hintf Hgw Hsel others.
  destruct (gateway_phase_spec dash default_gateway serials svi_data "") as [_ Hr].
  rewrite Hgw in Hr. simpl in Hr. destruct Hr as [Hf Hd].
  pose proof (flagged_ok Hf Hok) as [Hnd' Hkeys'].
  assert (Hin : In default_svi (Dict.keys svi_data')).
  { destruct Hd as [-> | (k & r & Hin & ->)]; [contradiction |].
    rewrite (Hkeys' k r Hin). change k with (fst (k, r)). now apply in_map. }
  assert (Hdel : (if negb (String.eqb default_svi "")
                  then Dict.del svi_data' default_svi else Ok svi_data')
                 = Ok others).
  { destruct (String.eqb_spec default_svi "") as [? | _]; [contradiction |].
    simpl. now apply del_present. }
  assert (Hoth : dict_ok others) by now apply dict_ok_filter.
  exists (fst (bulk_ports serials shut_interfaces intf_configs (Dict.keys intf_configs))).
  eexists. unfold configure_meraki. rewrite Hgw. simpl.
  rewrite (@apply_bulk_trace serials shut_interfaces svi_data' others
             default_svi intf_configs Hdel Hoth).
  split; [reflexivity |].
  pose proof (bulk_ports_all_updates serials shut_interfaces Hintf) as Hupd.
  repeat split; try assumption.
  intros serial kwargs Hc. apply in_app_or in Hc. destruct Hc as [Hc | Hc].
  - unfold bulk_creations in Hc. apply in_flat_map in Hc.
    destruct Hc as ([k r] & Hkr & Hc). apply in_map_iff in Hc.
    destruct Hc as (s & E & _). injection E as _ <-. simpl.
    apply filter_In in Hkr. destruct Hkr as [Hkr Hne]. simpl in Hne.
    rewrite (Hkeys' k r Hkr).
    destruct (String.eqb_spec k default_svi); [discriminate | assumption].
  - rewrite Forall_forall in Hupd. apply Hupd in Hc. discriminate.
Qed.

(** C9.  The claim: the gateway-bearing record that was applied is never
    applied again by the bulk step.  On [Sample.overlapping_subnets] the
    subnets of VLAN 5 and VLAN 20 both hold the gateway 10.0.2.1: the
    gateway loop creates both records with the gateway on each device, only
    VLAN 20 (the last one) is removed from the map, and the bulk step
    creates the record of VLAN 5, gateway set, once more on each device. *)
Theorem C9_gateway_svi_created_again :
  parse_svi_data Sample.overlapping_subnets = Ok Sample.overlapping
  /\ main Sample.empty_dashboard Sample.overlapping_subnets "10.0.2.1"
       Sample.two_serials
     = (let wide := Svi.Mk "Wide" "5" "10.0.0.1" "10.0.0.0/16" (Some "10.0.2.1") in
        let vlan20 :=
          Svi.Mk "Vlan20" "20" "10.0.2.1" "10.0.2.0/24" (Some "10.0.2.1") in
        [ getDeviceSwitchRoutingInterfaces "Q2XX-0001";
          createDeviceSwitchRoutingInterface "Q2XX-0001" wide;
          createDeviceSwitchRoutingInterface "Q2XX-0001" vlan20;
          getDeviceSwitchRoutingInterfaces "Q2XX-0002";
          createDeviceSwitchRoutingInterface "Q2XX-0002" wide;
          createDeviceSwitchRoutingInterface "Q2XX-0002" vlan20;
          createDeviceSwitchRoutingInterface "Q2XX-0001" wide;
          createDeviceSwitchRoutingInterface "Q2XX-0002" wide ],
        Ok tt).
Proof. split; vm_compute; reflexivity. Qed.

(** A module number within the serial list selects the serial at the
    position before it. *)
Lemma port_step_in_range
  (serials shut_interfaces : list string) (intf : string) (cfg : Intf.t) (m : Z) :
  Intf.module cfg = Some m ->
  (1 <= m <= Z.of_nat (length serials))%Z ->
  exists serial,
    nth_error serials (Z.to_nat (m - 1)) = Some serial
    /\ port_step serials shut_interfaces intf cfg
       = ([updateDeviceSwitchPort serial (port_kwargs shut_interfaces intf cfg)],
          Ok (port_kwargs shut_interfaces intf cfg)).
Proof.
  intros Hm Hrange. rewrite port_step_unfold. unfold port_target. rewrite Hm.
  destruct (@index_in_range _ serials (m - 1)%Z) as (serial & Hnth & Hidx); [lia |].
  exists serial. now rewrite Hidx.
Qed.

(** ** C10: the lookup of the target switch *)

(** C10.  A record with a [module] key is sent to the serial at position
    [module - 1]: when the module number is between 1 and the number of
    serials, the call goes to the serial at that position; when it is
    above the number of serials, the lookup raises [IndexError], no call
    is issued for the record, and the port loop ends on that exception. *)
Theorem C10_module_indexes_serials_unchecked
  (serials shut_interfaces : list string) (intf : string) (cfg : Intf.t) (m : Z) :
  Intf.module cfg = Some m ->
  ((1 <= m <= Z.of_nat (length serials))%Z ->
   exists serial,
     nth_error serials (Z.to_nat (m - 1)) = Some serial
     /\ port_step serials shut_interfaces intf cfg
        = ([updateDeviceSwitchPort serial (port_kwargs shut_interfaces intf cfg)],
           Ok (port_kwargs shut_interfaces intf cfg)))
  /\ ((Z.of_nat (length serials) < m)%Z ->
      port_step serials shut_interfaces intf cfg = ([], Raised IndexError)
      /\ forall intf_configs : Dict.t Intf.t,
           dict_ok intf_configs -> In (intf, cfg) intf_configs ->
           snd (bulk_ports serials shut_interfaces intf_configs
                  (Dict.keys intf_configs)) = Raised IndexError).
Proof.
  intros Hm. split.
  - intros Hrange. now apply port_step_in_range.
  - intros Habove.
    assert (Hidx : index serials (port_target cfg) = Raised IndexError).
    { unfold port_target. rewrite Hm. apply index_above. lia. }
    split; [rewrite port_step_unfold; now rewrite Hidx |].
    intros intf_configs Hok Hin.
    destruct (@bulk_ports_trace serials shut_interfaces intf_configs intf_configs Hok)
      as (done & _ & Hall & Hres); [intros; now apply get_in |].
    destruct (snd (bulk_ports serials shut_interfaces intf_configs
                     (Dict.keys intf_configs))) as [d | e].
    + subst done. rewrite firstn_all in Hall. rewrite Forall_forall in Hall.
      destruct (Hall _ Hin) as [s Hs]. simpl in Hs. congruence.
    + destruct Hres as [-> _]. reflexivity.
Qed.

Lemma C10_module_indexes_serials_unchecked_witness :
  let unit2 := Intf.Mk "7" (Some 2%Z) None None None (Some "20") None None in
  let unit3 := Intf.Mk "7" (Some 3%Z) None None None (Some "20") None None in
  (exists serial,
     nth_error Sample.two_serials (Z.to_nat (2 - 1)) = Some serial
     /\ port_step Sample.two_serials [] "GigabitEthernet2/0/7" unit2
        = ([updateDeviceSwitchPort serial (port_kwargs [] "GigabitEthernet2/0/7" unit2)],
           Ok (port_kwargs [] "GigabitEthernet2/0/7" unit2)))
  /\ port_step Sample.two_serials [] "GigabitEthernet3/0/7" unit3
     = ([], Raised IndexError).
Proof.
  intros unit2 unit3. split.
  - apply (proj1 (@C10_module_indexes_serials_unchecked Sample.two_serials []
                    "GigabitEthernet2/0/7" unit2 2%Z eq_refl)).
    simpl. lia.
  - apply (proj2 (@C10_module_indexes_serials_unchecked Sample.two_serials []
                    "GigabitEthernet3/0/7" unit3 3%Z eq_refl)).
    simpl. lia.
Defined.

(** A stack of three units sent to two switches: the ports of units 1 and 2
    are updated, and the run ends on the port of unit 3. *)
Example three_units_two_serials :
  main Sample.empty_dashboard
    [ Sample.gigabit 1 1 []; Sample.gigabit 2 7 []; Sample.gigabit 3 7 [] ]
    "10.0.2.1" Sample.two_serials
  = ([ getDeviceSwitchRoutingInterfaces "Q2XX-0001";
       getDeviceSwitchRoutingInterfaces "Q2XX-0002";
       updateDeviceSwitchPort "Q2XX-0001"
         (Intf.Mk "1" None None None None None None (Some true));
       updateDeviceSwitchPort "Q2XX-0002"
         (Intf.Mk "7" None None None None None None (Some true)) ],
     Raised IndexError).
Proof. vm_compute. reflexivity. Qed.

(** ** The children of an interface block *)

Lemma intf_child_keeps (r : Intf.t) (child : string) :
  Intf.portId (intf_child r child) = Intf.portId r
  /\ Intf.module (intf_child r child) = Intf.module r.
Proof.
  unfold intf_child. cbv zeta.
  repeat match goal with
         | |- context [if ?b then _ else _] => destruct b
         end; simpl; auto.
Qed.

Lemma intf_children_keep (children : list string) (r : Intf.t) :
  Intf.portId (fold_left intf_child children r) = Intf.portId r
  /\ Intf.module (fold_left intf_child children r) = Intf.module r.
Proof.
  revert r. induction children as [| c children IH]; intros r; simpl; [auto |].
  destruct (IH (intf_child r c)) as [-> ->]. apply intf_child_keeps.
Qed.

(** ** A gateway outside every subnet, in general *)

Section NoGateway.
Variables (dash : dashboard) (default_gateway : string) (a : Z).
Hypothesis gateway_address : Ip.ip_address default_gateway = Ok a.

Lemma gateway_scan_no_match (serial : string) (values : Dict.t Svi.t) (d : string) :
  gateway_nowhere a values ->
  gateway_scan default_gateway serial values d = ([], Ok (Next (values, d))).
Proof.
  induction values as [| [k r] values IH]; intros Hno; simpl; [reflexivity |].
  destruct (Hno k r (or_introl eq_refl)) as (n & -> & Hc). simpl.
  rewrite gateway_address. simpl. rewrite Hc.
  rewrite IH by (intros k' r' Hin; apply (Hno k' r'); now right).
  reflexivity.
Qed.

Lemma gateway_phase_no_match (serials : list string) (svi_data : Dict.t Svi.t) :
  gateway_nowhere a svi_data ->
  gateway_phase dash default_gateway serials svi_data ""
  = (map getDeviceSwitchRoutingInterfaces serials, Ok (Next (svi_data, ""))).
Proof.
  intros Hno. induction serials as [| s serials IH]; simpl; [reflexivity |].
  destruct (check_default_gateway _); simpl.
  - now rewrite IH.
  - rewrite gateway_scan_no_match by assumption. simpl. now rewrite IH.
Qed.

(** When the gateway is in no subnet, the run queries the devices and then
    applies everything: the creations of all the records on all the
    serials and the port updates. *)
Lemma no_gateway_all_applied (serials : list string) (svi_data : Dict.t Svi.t)
  (shut_interfaces : list string) (intf_configs : Dict.t Intf.t) :
  dict_ok svi_data -> gateway_nowhere a svi_data ->
  fst (configure_meraki dash default_gateway serials svi_data shut_interfaces
         intf_configs)
  = map getDeviceSwitchRoutingInterfaces serials
    ++ bulk_creations serials svi_data
    ++ fst (bulk_ports serials shut_interfaces intf_configs (Dict.keys intf_configs)).
Proof.
  intros Hok Hno. unfold configure_meraki.
  rewrite gateway_phase_no_match by assumption. simpl.
  rewrite (@apply_bulk_trace serials shut_interfaces svi_data svi_data ""
             intf_configs eq_refl Hok).
  reflexivity.
Qed.

End NoGateway.

(** ** The matcher and what it matches *)

Module ReFacts.
Import Re ReSem.

(** What is matched is a prefix of what lies ahead. *)
Lemma matches_prefix r pos s c pos' s' c' :
  matches r pos s c pos' s' c' ->
  exists w, s = w ++ s' /\ pos' = (pos + length w)%nat.
Proof.
  induction 1.
  - now exists [].
  - exists [a]. split; [reflexivity | simpl; lia].
  - now exists [].
  - now exists [].
  - now exists [].
  - destruct IHmatches1 as (w1 & -> & ->). destruct IHmatches2 as (w2 & -> & ->).
    exists (w1 ++ w2). rewrite length_app, <- app_assoc. split; [reflexivity | lia].
  - assumption.
  - assumption.
  - now exists [].
  - destruct IHmatches1 as (w1 & -> & ->). destruct IHmatches2 as (w2 & -> & ->).
    exists (w1 ++ w2). rewrite length_app, <- app_assoc. split; [reflexivity | lia].
  - assumption.
Qed.

Section Sound.

(** The loop of a repetition, given that one occurrence is sound. *)
Lemma star_loop_sound (g : bool) (r : regex) (k : cont) (x : nat * captures) :
  (forall pos s c k', run r pos s c k' = Some x ->
     exists pos' s' c', matches r pos s c pos' s' c' /\ k' pos' s' c' = Some x) ->
  forall fuel pos s c,
    star_loop g (run r) k fuel pos s c = Some x ->
    exists pos' s' c', matches (Star g r) pos s c pos' s' c' /\ k pos' s' c' = Some x.
Proof.
  intros IHr. induction fuel as [| fuel IH]; intros pos s c Hrun.
  - simpl in Hrun.
    assert (Hk : k pos s c = Some x).
    { destruct g; [assumption | now destruct (k pos s c)]. }
    exists pos, s, c. split; [constructor | assumption].
  - simpl in Hrun.
    assert (Hcases :
      k pos s c = Some x
      \/ run r pos s c
           (fun pos' s' c' =>
              if (pos <? pos')%nat then star_loop g (run r) k fuel pos' s' c'
              else None) = Some x).
    { destruct g.
      - destruct (run r pos s c _) eqn:E; [right; congruence | now left].
      - destruct (k pos s c) eqn:E; [left; congruence | now right]. }
    destruct Hcases as [Hk | Hmore].
    + exists pos, s, c. split; [constructor | assumption].
    + apply IHr in Hmore. destruct Hmore as (pos1 & s1 & c1 & Hm & Hk).
      destruct (Nat.ltb_spec pos pos1) as [Hlt | _]; [| discriminate].
      apply IH in Hk. destruct Hk as (pos2 & s2 & c2 & Hm2 & Hk).
      exists pos2, s2, c2. split; [| assumption].
      econstructor; eassumption.
Qed.

(** A result of the matcher comes from a match followed by the
    continuation. *)
Lemma run_sound (r : regex) :
  forall pos s c k x,
    run r pos s c k = Some x ->
    exists pos' s' c', matches r pos s c pos' s' c' /\ k pos' s' c' = Some x.
Proof.
  induction r as [| p | | | r1 IH1 r2 IH2 | r1 IH1 r2 IH2 | g r IH | n r IH];
    intros pos s c k x Hrun; simpl in Hrun.
  - exists pos, s, c. split; [constructor | assumption].
  - destruct s as [| a s]; [discriminate |].
    destruct (cls_match p a) eqn:E; [| discriminate].
    exists (S pos), s, c. split; [now constructor | assumption].
  - destruct (Nat.eqb_spec pos 0) as [-> | _]; [| discriminate].
    exists 0%nat, s, c. split; [constructor | assumption].
  - destruct s as [| a [| b s]]; try discriminate.
    + exists pos, [], c. split; [constructor | assumption].
    + destruct (Ascii.eqb_spec a newline) as [-> | _]; [| discriminate].
      exists pos, [newline], c. split; [constructor | assumption].
  - apply IH1 in Hrun. destruct Hrun as (pos1 & s1 & c1 & Hm1 & Hrun).
    apply IH2 in Hrun. destruct Hrun as (pos2 & s2 & c2 & Hm2 & Hk).
    exists pos2, s2, c2. split; [econstructor; eassumption | assumption].
  - destruct (run r1 pos s c k) eqn:E.
    + injection Hrun as ->. apply IH1 in E.
      destruct E as (pos' & s' & c' & Hm & Hk).
      exists pos', s', c'. split; [now apply M_Alt_left | assumption].
    + apply IH2 in Hrun. destruct Hrun as (pos' & s' & c' & Hm & Hk).
      exists pos', s', c'. split; [now apply M_Alt_right | assumption].
  - eapply star_loop_sound; [| eassumption]. intros; now apply IH.
  - apply IH in Hrun. destruct Hrun as (pos' & s' & c' & Hm & Hk).
    eexists pos', s', _. split; [constructor; eassumption | assumption].
Qed.

End Sound.

Lemma run_complete r pos s c pos' s' c' :
  matches r pos s c pos' s' c' -> succeeds r pos s pos' s'.
Proof.
  induction 1; intros k Hk c0; simpl.
  - split; [apply Hk | exact I].
  - rewrite H. split; [apply Hk | exact I].
  - split; [apply Hk | exact I].
  - split; [apply Hk | exact I].
  - rewrite ?Ascii.eqb_refl. split; [apply Hk | exact I].
  - split; [| exact I].
    apply IHmatches1. intros c'. now apply IHmatches2.
  - split; [| exact I].
    destruct (run r1 pos s c0 k) eqn:E; [discriminate |].
    exfalso. revert E. now apply IHmatches.
  - split; [| exact I].
    destruct (run r1 pos s c0 k) eqn:E; [discriminate |].
    now apply IHmatches.
  - assert (Hloop : forall fuel, star_loop g (run r) k fuel pos s c0 <> None).
    { intros fuel. pose proof (Hk c0) as Hk0.
      destruct fuel; simpl; destruct g;
        repeat match goal with
               | |- context [match ?e with Some _ => _ | None => _ end] =>
                   destruct e
               end; congruence. }
    split; [apply Hloop | intros; apply Hloop].
  - apply matches_prefix in H as Hw. destruct Hw as (w & -> & ->).
    assert (Hloop : forall fuel, (length (w ++ s1) <= fuel)%nat ->
                                 star_loop g (run r) k fuel pos (w ++ s1) c0 <> None).
    { intros fuel Hfuel. rewrite length_app in Hfuel.
      destruct fuel as [| fuel]; [lia |]. simpl.
      assert (Hmore :
        run r pos (w ++ s1) c0
          (fun pos' s' c' =>
             if (pos <? pos')%nat then star_loop g (run r) k fuel pos' s' c'
             else None) <> None).
      { apply IHmatches1. intros c'.
        destruct (Nat.ltb_spec pos (pos + length w)) as [_ | ?]; [| lia].
        apply (IHmatches2 k Hk c'). lia. }
      destruct g.
      - destruct (run r pos (w ++ s1) c0 _); congruence.
      - destruct (k pos (w ++ s1) c0); [discriminate | assumption]. }
    split; [now apply Hloop | assumption].
  - split; [| exact I].
    apply IHmatches. intros c'0. apply Hk.
Qed.

Lemma match_at_sound r pos s m :
  match_at r pos s = Some m ->
  m_start m = pos /\ exists s', matches r pos s [] (m_end m) s' (m_groups m).
Proof.
  unfold match_at. intros H.
  destruct (run r pos s [] (fun e _ c => Some (e, c))) as [[e c] |] eqn:E;
    [| discriminate].
  injection H as <-. simpl. split; [reflexivity |].
  apply run_sound in E. destruct E as (pos' & s' & c' & Hm & [= <- <-]).
  now exists s'.
Qed.

Lemma match_at_complete r pos s pos' s' c' :
  matches r pos s [] pos' s' c' -> match_at r pos s <> None.
Proof.
  intros Hm. unfold match_at.
  destruct (run r pos s [] (fun e _ c => Some (e, c))) as [[e c] |] eqn:E;
    [discriminate |].
  exfalso. revert E. apply (run_complete Hm). discriminate.
Qed.

Lemma search_from_sound r :
  forall s pos m,
    search_from r pos s = Some m ->
    exists n, match_at r (pos + n) (skipn n s) = Some m.
Proof.
  induction s as [| a s IH]; intros pos m; simpl.
  - destruct (match_at r pos []) eqn:E; [| discriminate].
    intros [= <-]. exists 0%nat. now rewrite Nat.add_0_r.
  - destruct (match_at r pos (a :: s)) eqn:E.
    + intros [= <-]. exists 0%nat. now rewrite Nat.add_0_r.
    + intros H. apply IH in H. destruct H as (n & H). exists (S n).
      simpl. now rewrite Nat.add_succ_r.
Qed.

Lemma search_from_first r pos s m :
  match_at r pos s = Some m -> search_from r pos s = Some m.
Proof. intros H. destruct s; simpl; now rewrite H. Qed.

Lemma lit_match (c a : ascii) : cls_match (Lit c) a = true -> a = c.
Proof. simpl. intros H. apply Ascii.eqb_eq in H. now subst. Qed.

(** A run of digits. *)
Lemma digits_star g pos s c pos' s' c' :
  matches (Star g (Chr Digit)) pos s c pos' s' c' ->
  exists w, s = w ++ s' /\ pos' = (pos + length w)%nat
            /\ forallb is_digit w = true.
Proof.
  intros H. remember (Star g (Chr Digit)) as r eqn:Er.
  induction H; try discriminate.
  - exists []. repeat split. simpl. lia.
  - injection Er as -> ->.
    inversion H as [| p a pos0 s0 c0 Hd | | | | | | | | |]; subst.
    destruct (IHmatches2 eq_refl) as (w & -> & -> & Hw).
    exists (a :: w). simpl in *. repeat split; [lia |].
    now rewrite Hd, Hw.
Qed.

(** Taking apart a match of a pattern that is not a repetition. *)
Ltac invert_match :=
  match goal with
  | H : matches (Seq _ _) _ _ _ _ _ _ |- _ => inversion H; subst; clear H
  | H : matches (Chr (Lit _)) _ _ _ _ _ _ |- _ =>
      inversion H as [| ? ? ? ? ? Hlit | | | | | | | | |]; subst; clear H;
      apply lit_match in Hlit; subst
  | H : matches (Chr _) _ _ _ _ _ _ |- _ => inversion H; subst; clear H
  | H : matches Eps _ _ _ _ _ _ |- _ => inversion H; subst; clear H
  | H : matches Bol _ _ _ _ _ _ |- _ => inversion H; subst; clear H
  | H : matches (Group _ _) _ _ _ _ _ _ |- _ => inversion H; subst; clear H
  end.

(** A difference of offsets that was reduced halfway. *)
Ltac solve_offset :=
  match goal with
  | |- context [match ?p with O => _ | S _ => _ end] => destruct p; lia
  | _ => lia
  end.

(** The header of a block whose port number is found: the stacking unit is
    found as well. *)
Lemma port_match_shape s e s' cs :
  matches Pat.port_number 0 s [] e s' cs ->
  (exists w, group_of cs 1 = Some w /\ w <> [] /\ forallb is_digit w = true)
  /\ exists e2 s2 cs2, matches Pat.switch_module 0 s [] e2 s2 cs2.
Proof.
  unfold Pat.port_number, Pat.switch_module, Plus. cbn [Word].
  intros H. repeat invert_match.
  match goal with
  | Hd : matches (Star true (Chr Digit)) _ _ _ _ _ _ |- _ =>
      apply digits_star in Hd; destruct Hd as (w & -> & -> & Hw)
  end.
  split.
  - eexists. simpl group_of. split; [reflexivity |].
    match goal with
    | |- context [firstn ?n (?a :: w ++ s')] =>
        replace n with (S (length w)) by solve_offset
    end.
    simpl. rewrite firstn_app, firstn_all, Nat.sub_diag. simpl.
    rewrite app_nil_r. split; [discriminate |].
    simpl. rewrite Hw.
    match goal with Hd : cls_match Digit _ = true |- _ => simpl in Hd end.
    now rewrite andb_true_r.
  - do 3 eexists.
    eapply M_Seq; [apply M_Bol |].
    eapply M_Seq;
      [repeat (eapply M_Seq; [apply M_Chr; reflexivity |]); apply M_Eps |].
    eapply M_Seq; [apply M_Chr; eassumption |].
    eapply M_Seq; [eapply M_Seq; [apply M_Chr; eassumption | eassumption] |].
    eapply M_Seq;
      [repeat (eapply M_Seq; [apply M_Chr; reflexivity |]); apply M_Eps |].
    eapply M_Seq; [eapply M_Seq; [apply M_Chr; reflexivity | apply M_Star_stop] |].
    apply M_Group. apply M_Chr. eassumption.
Qed.

(** The stacking unit that is found is one digit. *)
Lemma switch_match_shape pos s e s' cs :
  matches Pat.switch_module pos s [] e s' cs ->
  exists a, group_of cs 1 = Some [a] /\ is_digit a = true.
Proof.
  unfold Pat.switch_module, Plus. cbn [Word].
  intros H. repeat invert_match.
  match goal with
  | Hd : cls_match Digit ?a = true |- _ => exists a; split; [| exact Hd]
  end.
  simpl group_of. f_equal.
  match goal with
  | |- firstn ?n _ = _ => replace n with 1%nat by solve_offset
  end.
  reflexivity.
Qed.

End ReFacts.

(** ** The numbers in the header of a downlink interface *)

Lemma digit_uint (a : ascii) (u : Decimal.uint) :
  is_digit a = true -> uint_of_char a (Some u) <> None.
Proof.
  destruct a as [[|] [|] [|] [|] [|] [|] [|] [|]]; intros H; vm_compute in H;
    try discriminate; simpl; discriminate.
Qed.

Lemma digits_uint (w : list ascii) :
  forallb is_digit w = true ->
  all_digits (string_of_list_ascii w) = true
  /\ exists u, NilEmpty.uint_of_string (string_of_list_ascii w) = Some u.
Proof.
  induction w as [| a w IH]; simpl; intros H.
  - split; [reflexivity | now eexists].
  - apply andb_prop in H. destruct H as [Ha Hw].
    destruct (IH Hw) as (Hall & u & Hu). rewrite Ha, Hall, Hu. split; [reflexivity |].
    destruct (uint_of_char a (Some u)) eqn:E; [now eexists |].
    now apply digit_uint in E.
Qed.

(** [int] reads a run of digits, up to [max_str_digits] of them. *)
Lemma digits_int (w : list ascii) :
  forallb is_digit w = true -> w <> [] ->
  if (max_str_digits <? Z.of_nat (length w))%Z
  then int_of_str (string_of_list_ascii w) = Raised ValueError
  else exists p, int_of_str (string_of_list_ascii w) = Ok p /\ (0 <= p)%Z.
Proof.
  intros Hw Hne. destruct (@digits_uint w Hw) as (Hall & u & Hu).
  assert (Hlen : String.length (string_of_list_ascii w) = length w).
  { clear. induction w as [| a w IH]; simpl; [reflexivity | now rewrite IH]. }
  assert (E : int_of_str (string_of_list_ascii w)
              = if (max_str_digits <? Z.of_nat (length w))%Z
                then Raised ValueError else Ok (Z.of_uint u)).
  { unfold int_of_str. rewrite Hall, Hu, Hlen.
    destruct w as [| a w]; [contradiction | reflexivity]. }
  rewrite E. destruct (max_str_digits <? Z.of_nat (length w))%Z; [reflexivity |].
  exists (Z.of_uint u). split; [reflexivity |].
  unfold Z.of_uint. apply N2Z.is_nonneg.
Qed.

Lemma digit_int (a : ascii) :
  is_digit a = true ->
  exists u, int_of_str (String a EmptyString) = Ok u /\ (0 <= u <= 9)%Z.
Proof.
  destruct a as [[|] [|] [|] [|] [|] [|] [|] [|]]; intros H; vm_compute in H;
    try discriminate; eexists; (split; [vm_compute; reflexivity | lia]).
Qed.

Lemma string_of_list_length (l : list ascii) :
  String.length (string_of_list_ascii l) = length l.
Proof. induction l as [| a l IH]; simpl; [reflexivity | now rewrite IH]. Qed.

(** The header of an interface whose port number is found gives a
    stacking unit of one digit and a run of digits as port number, which
    [int] reads unless it is too long. *)
Lemma header_numbers (intf_obj : line) :
  port_number_of intf_obj <> "" ->
  (exists u, int_of_str (switch_module_of intf_obj) = Ok u /\ (0 <= u <= 9)%Z)
  /\ if port_too_long intf_obj
     then int_of_str (port_number_of intf_obj) = Raised ValueError
     else exists p, int_of_str (port_number_of intf_obj) = Ok p /\ (0 <= p)%Z.
Proof.
  unfold port_too_long, port_number_of, switch_module_of, re_match_typed, Re.search.
  set (s := list_ascii_of_string (text intf_obj)).
  destruct (Re.search_from Pat.port_number 0 s) as [m |] eqn:Es; [| congruence].
  apply ReFacts.search_from_sound in Es. destruct Es as (n & Hm).
  apply ReFacts.match_at_sound in Hm. destruct Hm as (_ & s' & Hm).
  assert (n = 0%nat) as ->.
  { unfold Pat.port_number in Hm. inversion Hm; subst.
    match goal with
    | Hb : ReSem.matches Re.Bol _ _ _ _ _ _ |- _ => inversion Hb; subst
    end.
    lia. }
  simpl in Hm.
  destruct (ReFacts.port_match_shape Hm) as ((w & Hg & Hne & Hw) & e2 & s2 & cs2 & Hsw).
  unfold Re.group. rewrite Hg. cbn [option_map]. intros _.
  rewrite string_of_list_length. split; [| exact (@digits_int w Hw Hne)].
  destruct (Re.match_at Pat.switch_module 0 s) as [m2 |] eqn:E2;
    [| now apply ReFacts.match_at_complete in Hsw].
  rewrite (@ReFacts.search_from_first _ _ _ _ E2).
  apply ReFacts.match_at_sound in E2. destruct E2 as (_ & s3 & Hm2).
  destruct (ReFacts.switch_match_shape Hm2) as (a & Hga & Ha).
  rewrite Hga. simpl.
  destruct (@digit_int a Ha) as (u & Hu & Hu9).
  exists u. auto.
Qed.

(** ** A stack of two units on two target switches *)

(** The run on a stack of two units and two switches: port 7 of unit 2 is
    sent to the second serial as port "7". *)
Example two_units_two_serials :
  main Sample.empty_dashboard Sample.two_units "10.0.2.1" Sample.two_serials
  = (let flagged20 :=
       Svi.Mk "Vlan20" "20" "10.0.2.1" "10.0.2.0/24" (Some "10.0.2.1") in
     let users := Svi.Mk "Users" "10" "10.0.1.5" "10.0.1.0/24" None in
     [ getDeviceSwitchRoutingInterfaces "Q2XX-0001";
       createDeviceSwitchRoutingInterface "Q2XX-0001" flagged20;
       getDeviceSwitchRoutingInterfaces "Q2XX-0002";
       createDeviceSwitchRoutingInterface "Q2XX-0002" flagged20;
       createDeviceSwitchRoutingInterface "Q2XX-0001" users;
       createDeviceSwitchRoutingInterface "Q2XX-0002" users;
       updateDeviceSwitchPort "Q2XX-0001"
         (Intf.Mk "1" None None (Some "access") None None None (Some true));
       updateDeviceSwitchPort "Q2XX-0002"
         (Intf.Mk "7" None None None None (Some "20") None (Some true)) ],
     Ok tt).
Proof. vm_compute. reflexivity. Qed.

(** ** C2, for every stack *)

Lemma is_downlink_port (intf_obj : line) :
  is_downlink intf_obj = true -> port_number_of intf_obj <> "".
Proof.
  unfold is_downlink. intros H. apply andb_prop in H. destruct H as [_ H].
  destruct (String.eqb_spec (port_number_of intf_obj) ""); [discriminate | assumption].
Qed.

Lemma intf_step_skips (n : Z) (st : Z * Dict.t Intf.t) (intf_obj : line) :
  is_downlink intf_obj = false -> intf_step n st intf_obj = Ok st.
Proof. intros H. destruct st. unfold intf_step. now rewrite H. Qed.

(** The outcome of the loop body on a block. *)
Lemma intf_step_outcome (n mc : Z) (d : Dict.t Intf.t) (intf_obj : line) :
  match step_fault n intf_obj with
  | Some e => intf_step n (mc, d) intf_obj = Raised e
  | None => exists st', intf_step n (mc, d) intf_obj = Ok st'
  end.
Proof.
  unfold step_fault. destruct (is_downlink intf_obj) eqn:Hdown;
    [| rewrite intf_step_skips by assumption; now eexists].
  destruct (@header_numbers intf_obj (@is_downlink_port intf_obj Hdown))
    as ((u & Hu & _) & Hp).
  destruct (port_too_long intf_obj).
  - unfold intf_step. now rewrite Hdown, Hp.
  - destruct Hp as (p & Hp & _). rewrite Hu.
    unfold intf_step. rewrite Hdown, Hp. cbn [Py.bind].
    unfold number_port. cbn [Py.int Py.bind]. rewrite Hu. cbn [Py.bind].
    destruct (n =? 1)%Z; cbn [andb].
    + destruct (u =? 1)%Z eqn:Eu.
      * apply Z.eqb_eq in Eu. subst u. simpl. now eexists.
      * destruct (1 <? u)%Z; simpl; [reflexivity | now eexists].
    + destruct (1 <? n)%Z; simpl; now eexists.
Qed.

(** With one target switch, a retained interface on a unit above 1 makes
    the loop body raise, whatever the counter: a [TypeError], when its
    port number is one [int] reads. *)
Lemma intf_step_single_raises (st : Z * Dict.t Intf.t) (intf_obj : line) (u : Z) :
  is_downlink intf_obj = true ->
  int_of_str (switch_module_of intf_obj) = Ok u -> (1 < u)%Z ->
  intf_step 1 st intf_obj
  = Raised (if port_too_long intf_obj then ValueError else TypeError).
Proof.
  intros Hdown Hu Hlt. destruct st as [mc d].
  pose proof (@intf_step_outcome 1 mc d intf_obj) as H.
  unfold step_fault in H. rewrite Hdown, Hu in H.
  destruct (port_too_long intf_obj); [assumption |].
  apply Z.ltb_lt in Hlt. now rewrite Hlt in H.
Qed.

Lemma step_fault_kind (n : Z) (intf_obj : line) (e : exn) :
  step_fault n intf_obj = Some e -> e = TypeError \/ e = ValueError.
Proof.
  unfold step_fault.
  destruct (is_downlink intf_obj); [| discriminate].
  destruct (port_too_long intf_obj); [intros [= <-]; now right |].
  destruct ((n =? 1)%Z && _); [intros [= <-]; now left | discriminate].
Qed.

(** With one target switch, a configuration that holds a retained
    interface on a unit above 1 gives no interface records: the
    extraction raises, a [TypeError] unless the [ValueError] of a port
    number too long for [int] comes first. *)
Lemma parse_intf_config_single_raises (cfg : config) (intf_obj : line) (u : Z) :
  In intf_obj (find_objects Pat.interface cfg) ->
  is_downlink intf_obj = true ->
  int_of_str (switch_module_of intf_obj) = Ok u -> (1 < u)%Z ->
  parse_intf_config cfg 1 = Raised TypeError
  \/ parse_intf_config cfg 1 = Raised ValueError.
Proof.
  intros Hin Hdown Hu Hlt. unfold parse_intf_config.
  assert (H : forall l st, In intf_obj l ->
                           for_each (intf_step 1) l st = Raised TypeError
                           \/ for_each (intf_step 1) l st = Raised ValueError).
  { induction l as [| x l IH]; intros [mc d] Hl; [destruct Hl |].
    cbn [for_each]. destruct Hl as [-> | Hl].
    - rewrite (@intf_step_single_raises (mc, d) intf_obj u Hdown Hu Hlt).
      destruct (port_too_long intf_obj); cbn [Py.bind]; auto.
    - pose proof (@intf_step_outcome 1 mc d x) as Hx.
      destruct (step_fault 1 x) as [e |] eqn:Ex.
      + rewrite Hx. cbn [Py.bind].
        destruct (step_fault_kind _ _ Ex) as [-> | ->]; auto.
      + destruct Hx as [st' ->]. cbn [Py.bind]. now apply IH. }
  destruct (H _ (0%Z, []) Hin) as [-> | ->]; auto.
Qed.

(** ** Unit 0 *)

Lemma index_minus_one {A : Type} (l : list A) (x : A) :
  index (l ++ [x]) (-1) = Ok x.
Proof.
  unfold index. cbv zeta.
  assert (Hn : Z.of_nat (length (l ++ [x])) = (Z.of_nat (length l) + 1)%Z).
  { rewrite length_app. simpl. lia. }
  rewrite Hn.
  destruct (Z.ltb_spec (-1) 0) as [_ | ?]; [| lia].
  replace (-1 + (Z.of_nat (length l) + 1))%Z with (Z.of_nat (length l)) by lia.
  destruct (Z.leb_spec 0 (Z.of_nat (length l))) as [_ | ?]; [| lia].
  destruct (Z.ltb_spec (Z.of_nat (length l)) (Z.of_nat (length l) + 1))
    as [_ | ?]; [| lia].
  simpl. rewrite Nat2Z.id, nth_error_app2, Nat.sub_diag by lia. reflexivity.
Qed.

(** X14.  A record whose [module] is 0 is outside the positions 1 to the
    number of serials as well; there the index -1 counts from the end and
    the call goes to the last serial, whatever the serials before it: the
    port step raises nothing and sends the update of the record, without
    its [module] key, to that switch. *)
Lemma module_zero_goes_to_last (serials shut_interfaces : list string)
  (intf last : string) (cfg : Intf.t) :
  Intf.module cfg = Some 0%Z ->
  port_step (serials ++ [last]) shut_interfaces intf cfg
  = ([updateDeviceSwitchPort last (port_kwargs shut_interfaces intf cfg)],
     Ok (port_kwargs shut_interfaces intf cfg)).
Proof.
  intros Hm. rewrite port_step_unfold. unfold port_target. rewrite Hm.
  change (0 - 1)%Z with (-1)%Z. now rewrite index_minus_one.
Qed.

Lemma module_zero_goes_to_last_witness :
  port_step (["Q2XX-0001"] ++ ["Q2XX-0002"]) ["GigabitEthernet0/0/5"]
    "GigabitEthernet0/0/5"
    (Intf.Mk "5" (Some 0%Z) None (Some "access") None (Some "10") None None)
  = ([updateDeviceSwitchPort "Q2XX-0002"
        (port_kwargs ["GigabitEthernet0/0/5"] "GigabitEthernet0/0/5"
           (Intf.Mk "5" (Some 0%Z) None (Some "access") None (Some "10") None
              None))],
     Ok (port_kwargs ["GigabitEthernet0/0/5"] "GigabitEthernet0/0/5"
           (Intf.Mk "5" (Some 0%Z) None (Some "access") None (Some "10") None
              None))).
Proof.
  apply (@module_zero_goes_to_last ["Q2XX-0001"] ["GigabitEthernet0/0/5"]
           "GigabitEthernet0/0/5" "Q2XX-0002").
  reflexivity.
Defined.

(** * Further properties *)

(** ** The early return of [configure_meraki] *)

(** X1.  The [return] inside the gateway loop (taken when
    [create_default_svi] gives [None]) is dead code: [create_default_svi]
    is called only for a record whose subnet holds the gateway and tests
    the same thing again, so the loop over the serials never ends by it,
    whatever the dashboard, the gateway text, the serials and the
    records. *)
Theorem gateway_early_return_unreachable
  (dash : dashboard) (default_gateway : string) (serials : list string)
  (svi_data : Dict.t Svi.t) (default_svi : string) :
  snd (gateway_phase dash default_gateway serials svi_data default_svi)
  <> Ok Return.
Proof.
  destruct (gateway_phase_spec dash default_gateway serials svi_data default_svi)
    as [_ H].
  destruct (snd (gateway_phase dash default_gateway serials svi_data default_svi))
    as [[[d' s'] |] | e]; [discriminate | contradiction | discriminate].
Qed.

(** ** No serial *)

Lemma index_nil {A : Type} (i : Z) : index (@nil A) i = Raised IndexError.
Proof.
  unfold index. simpl.
  destruct (i <? 0)%Z eqn:E; [rewrite Z.add_0_r |];
    destruct (Z.leb_spec 0 i), (Z.ltb_spec i 0); simpl; try reflexivity; lia.
Qed.

(** X2.  With an empty list of serials [configure_meraki] issues no call
    at all; it returns normally when there is no interface record and
    raises [IndexError] at the first one otherwise. *)
Theorem no_serial_no_call
  (dash : dashboard) (default_gateway : string) (svi_data : Dict.t Svi.t)
  (shut_interfaces : list string) (intf_configs : Dict.t Intf.t) :
  dict_ok svi_data ->
  configure_meraki dash default_gateway [] svi_data shut_interfaces intf_configs
  = ([], match intf_configs with
         | [] => Ok tt
         | _ :: _ => Raised IndexError
         end).
Proof.
  intros Hok. unfold configure_meraki. simpl.
  rewrite (@apply_bulk_trace [] shut_interfaces svi_data svi_data ""
             intf_configs eq_refl Hok).
  assert (Hb : bulk_creations [] svi_data = []).
  { unfold bulk_creations. induction svi_data as [| kr l IH]; simpl; [reflexivity |].
    apply IH. unfold dict_ok in *. simpl in Hok. now inversion Hok. }
  rewrite Hb. destruct intf_configs as [| [k c] l]; simpl; [reflexivity |].
  rewrite String.eqb_refl. simpl. rewrite port_step_unfold, index_nil. reflexivity.
Qed.

Lemma no_serial_no_call_witness :
  configure_meraki Sample.empty_dashboard "10.0.2.1" [] Sample.svi_data
    Sample.shut_interfaces Sample.intf_configs
  = ([], Raised IndexError).
Proof.
  apply (@no_serial_no_call Sample.empty_dashboard "10.0.2.1" Sample.svi_data
           Sample.shut_interfaces Sample.intf_configs).
  unfold dict_ok. simpl. repeat constructor; simpl; intuition discriminate.
Defined.

(** ** What [configure_meraki] can raise *)

Ltac only_value_error :=
  repeat match goal with
         | |- context [match ?x with _ => _ end] => destruct x eqn:?; simpl
         | |- context [if ?b then _ else _] => destruct b eqn:?; simpl
         end;
  try congruence.

Lemma int_of_str_raises (s : string) (e : exn) :
  int_of_str s = Raised e -> e = ValueError.
Proof. unfold int_of_str. only_value_error. Qed.

Lemma parse_octet_raises (s : string) (e : exn) :
  Ip.parse_octet s = Raised e -> e = ValueError.
Proof.
  unfold Ip.parse_octet. destruct s as [| c s]; [congruence |].
  destruct (negb (all_digits (String c s))); [congruence |].
  destruct (3 <? String.length (String c s))%nat; [congruence |].
  destruct (negb (String.eqb (String c s) "0") && Ascii.eqb c "0"); [congruence |].
  destruct (int_of_str (String c s)) as [z |] eqn:E; simpl.
  - destruct (255 <? z)%Z; congruence.
  - apply int_of_str_raises in E. congruence.
Qed.

Lemma parse_octets_raises (l : list string) (e : exn) :
  Ip.parse_octets l = Raised e -> e = ValueError.
Proof.
  induction l as [| o l IH]; simpl; [discriminate |].
  destruct (Ip.parse_octet o) eqn:E; simpl.
  - destruct (Ip.parse_octets l); simpl; [discriminate |].
    intros [= <-]. now apply IH.
  - intros [= <-]. now apply parse_octet_raises in E.
Qed.

Lemma ip_int_from_string_raises (s : string) (e : exn) :
  Ip.ip_int_from_string s = Raised e -> e = ValueError.
Proof.
  unfold Ip.ip_int_from_string. destruct s as [| c s]; [congruence |].
  destruct (negb _); [congruence |].
  destruct (Ip.parse_octets _) eqn:E; simpl; [discriminate |].
  intros [= <-]. now apply parse_octets_raises in E.
Qed.

Lemma ip_address_raises (s : string) (e : exn) :
  Ip.ip_address s = Raised e -> e = ValueError.
Proof.
  unfold Ip.ip_address. destruct (contains "/" s); [congruence |].
  apply ip_int_from_string_raises.
Qed.

Lemma prefix_from_ip_int_raises (z : Z) (e : exn) :
  Ip.prefix_from_ip_int z = Raised e -> e = ValueError.
Proof. unfold Ip.prefix_from_ip_int. cbv zeta. destruct (negb _); congruence. Qed.

Lemma make_netmask_raises (s : string) (e : exn) :
  Ip.make_netmask s = Raised e -> e = ValueError.
Proof.
  unfold Ip.make_netmask.
  destruct (Ip.prefix_from_prefix_string s); simpl; [discriminate |].
  unfold Ip.prefix_from_ip_string.
  destruct (Ip.ip_int_from_string s) as [z |] eqn:E; simpl.
  - destruct (Ip.prefix_from_ip_int z); simpl; [discriminate |].
    destruct (Ip.prefix_from_ip_int (Z.lxor z Ip.ALL_ONES)) eqn:E2; simpl;
      [discriminate |].
    intros [= <-]. now apply prefix_from_ip_int_raises in E2.
  - intros [= <-]. now apply ip_int_from_string_raises in E.
Qed.

Lemma ip_network_raises (s : string) (strict : bool) (e : exn) :
  Ip.ip_network s strict = Raised e -> e = ValueError.
Proof.
  unfold Ip.ip_network.
  destruct (Ip.split "/" s) as [| addr [| mask [| x l]]]; try congruence.
  - destruct (Ip.ip_address addr) eqn:E; simpl; [discriminate |].
    intros [= <-]. now apply ip_address_raises in E.
  - destruct (Ip.ip_address addr) eqn:E; simpl.
    + destruct (Ip.make_netmask mask) as [[nm p] |] eqn:E2; simpl.
      * destruct (negb _); [destruct strict |]; congruence.
      * intros [= <-]. now apply make_netmask_raises in E2.
    + intros [= <-]. now apply ip_address_raises in E.
Qed.

Lemma gateway_scan_raises (gw serial : string) (values : Dict.t Svi.t) :
  forall (d : string) (e : exn),
    snd (gateway_scan gw serial values d) = Raised e -> e = ValueError.
Proof.
  induction values as [| [k r] values IH]; intros d e; simpl; [discriminate |].
  unfold create_default_svi.
  destruct (Ip.ip_network (Svi.subnet r) true) as [n |] eqn:En; simpl;
    [| intros [= <-]; now apply ip_network_raises in En].
  destruct (Ip.ip_address gw) as [a |] eqn:Ea; simpl;
    [| intros [= <-]; now apply ip_address_raises in Ea].
  destruct (Ip.contains_address n a); simpl.
  - specialize (IH (Svi.vlanId r) e).
    destruct (gateway_scan gw serial values (Svi.vlanId r)) as [t res].
    simpl in *. destruct res as [[[values' d'] |] |]; simpl; auto; discriminate.
  - specialize (IH d e).
    destruct (gateway_scan gw serial values d) as [t res].
    simpl in *. destruct res as [[[values' d'] |] |]; simpl; auto; discriminate.
Qed.

Lemma gateway_phase_raises (dash : dashboard) (gw : string) (serials : list string) :
  forall (svi_data : Dict.t Svi.t) (d : string) (e : exn),
    snd (gateway_phase dash gw serials svi_data d) = Raised e -> e = ValueError.
Proof.
  induction serials as [| serial serials IH]; intros svi_data d e; simpl;
    [discriminate |].
  destruct (check_default_gateway _); simpl.
  - specialize (IH svi_data d e).
    destruct (gateway_phase dash gw serials svi_data d) as [t res]. simpl in *.
    assumption.
  - pose proof (@gateway_scan_raises gw serial svi_data d e) as Hs.
    destruct (gateway_scan gw serial svi_data d) as [t res]. simpl in *.
    destruct res as [[[svi_data1 d1] |] |]; simpl; auto; try discriminate.
    specialize (IH svi_data1 d1 e).
    destruct (gateway_phase dash gw serials svi_data1 d1) as [t' res']. simpl in *.
    assumption.
Qed.

(** X3.  On dicts as [parse_svi_data] and [parse_intf_config] build them,
    [configure_meraki] ends in one of three ways: normally, on a
    [ValueError] of the address parser (a gateway or a subnet that is not
    an IPv4 text, with no port update issued), or on the [IndexError] of
    a lookup in [serials].  In particular [del svi_data[default_svi]] and
    the lookups by key never raise [KeyError]. *)
Theorem configure_meraki_outcome
  (dash : dashboard) (default_gateway : string) (serials : list string)
  (svi_data : Dict.t Svi.t) (shut_interfaces : list string)
  (intf_configs : Dict.t Intf.t) :
  svi_data_ok svi_data -> dict_ok intf_configs ->
  let run := configure_meraki dash default_gateway serials svi_data
               shut_interfaces intf_configs in
  snd run = Ok tt
  \/ (snd run = Raised ValueError /\ no_update (fst run))
  \/ snd run = Raised IndexError.
Proof.
  intros Hsvi Hintf run. subst run. unfold configure_meraki.
  destruct (gateway_phase_spec dash default_gateway serials svi_data "") as [Ht Hr].
  pose proof (@gateway_phase_raises dash default_gateway serials svi_data "") as He.
  destruct (gateway_phase dash default_gateway serials svi_data "") as [t1 res].
  simpl in Ht, Hr, He.
  destruct res as [[[svi_data' default_svi] |] | e]; simpl.
  - destruct Hr as [Hf Hd].
    pose proof (flagged_ok Hf Hsvi) as [Hnd' Hkeys'].
    assert (Hdel : exists rest,
               (if negb (String.eqb default_svi "")
                then Dict.del svi_data' default_svi else Ok svi_data') = Ok rest
               /\ dict_ok rest).
    { destruct (String.eqb_spec default_svi "") as [-> | Hne]; simpl.
      - now exists svi_data'.
      - eexists. split; [| apply dict_ok_filter; exact Hnd'].
        apply del_present; [assumption |].
        destruct Hd as [-> | (k & r & Hin & ->)]; [contradiction |].
        rewrite (Hkeys' k r Hin). change k with (fst (k, r)). now apply in_map. }
    destruct Hdel as (rest & Hdel & Hrest).
    rewrite (@apply_bulk_trace serials shut_interfaces svi_data' rest
               default_svi intf_configs Hdel Hrest). simpl.
    destruct (@bulk_ports_trace serials shut_interfaces intf_configs
                intf_configs Hintf) as (done & _ & _ & Hres);
      [intros; now apply get_in |].
    destruct (snd (bulk_ports serials shut_interfaces intf_configs
                     (Dict.keys intf_configs))) as [d | e].
    + now left.
    + destruct Hres as [-> _]. right. now right.
  - contradiction.
  - right. left. rewrite (He e eq_refl). now split.
Qed.

Lemma configure_meraki_outcome_witness :
  let run := configure_meraki Sample.empty_dashboard "10.0.2.x" Sample.two_serials
               Sample.svi_data Sample.shut_interfaces Sample.intf_configs in
  snd run = Ok tt
  \/ (snd run = Raised ValueError /\ no_update (fst run))
  \/ snd run = Raised IndexError.
Proof.
  apply (@configure_meraki_outcome Sample.empty_dashboard "10.0.2.x"
           Sample.two_serials Sample.svi_data Sample.shut_interfaces
           Sample.intf_configs).
  - split.
    + unfold dict_ok. simpl. repeat constructor; simpl; intuition discriminate.
    + simpl. intros k r [E | [E | []]]; injection E as <- <-; reflexivity.
  - unfold dict_ok. simpl. repeat constructor; simpl; intuition discriminate.
Defined.

(** ** The update calls *)

(** The updates of the trace, read off the records. *)
Lemma configure_meraki_updates
  (dash : dashboard) (default_gateway : string) (serials : list string)
  (svi_data : Dict.t Svi.t) (shut_interfaces : list string)
  (intf_configs : Dict.t Intf.t) :
  dict_ok svi_data -> dict_ok intf_configs ->
  exists done,
    filter is_update
      (fst (configure_meraki dash default_gateway serials svi_data
              shut_interfaces intf_configs))
    = map (fun kc => updateDeviceSwitchPort
                       (match index serials (port_target (snd kc)) with
                        | Ok s => s | Raised _ => "" end)
                       (port_kwargs shut_interfaces (fst kc) (snd kc)))
        (firstn done intf_configs)
    /\ Forall (fun kc => exists s, index serials (port_target (snd kc)) = Ok s)
         (firstn done intf_configs)
    /\ (snd (configure_meraki dash default_gateway serials svi_data
               shut_interfaces intf_configs) = Ok tt ->
        done = length intf_configs).
Proof.
  intros Hsvi Hintf. unfold configure_meraki.
  destruct (gateway_phase_spec dash default_gateway serials svi_data "") as [Ht Hr].
  destruct (gateway_phase dash default_gateway serials svi_data "") as [t1 res].
  simpl in Ht, Hr.
  destruct res as [[[svi_data' default_svi] |] | e]; simpl.
  - destruct Hr as [Hf _].
    assert (Hsvi' : dict_ok svi_data').
    { unfold dict_ok. now rewrite (flagged_keys Hf). }
    destruct (if negb (String.eqb default_svi "")
              then Dict.del svi_data' default_svi else Ok svi_data')
      as [rest | e] eqn:Hdel.
    + assert (Hrest : dict_ok rest).
      { destruct (negb (String.eqb default_svi "")).
        - eapply del_ok_dict_ok; eassumption.
        - now injection Hdel as <-. }
      rewrite (@apply_bulk_trace serials shut_interfaces svi_data' rest
                 default_svi intf_configs Hdel Hrest).
      destruct (@bulk_ports_trace serials shut_interfaces intf_configs
                  intf_configs Hintf) as (done & Htr & Hall & Hres);
        [intros; now apply get_in |].
      exists done. simpl. rewrite !filter_app.
      rewrite (no_update_filter Ht).
      rewrite (no_update_filter (bulk_creations_no_update serials rest)).
      rewrite filter_all by now apply bulk_ports_all_updates.
      simpl. rewrite Htr. repeat split; [assumption |].
      destruct (snd (bulk_ports serials shut_interfaces intf_configs
                       (Dict.keys intf_configs))); [auto | discriminate].
    + rewrite (@apply_bulk_del_raises serials shut_interfaces svi_data'
                 default_svi intf_configs e Hdel).
      exists 0%nat. simpl. rewrite app_nil_r, (no_update_filter Ht).
      repeat split; [constructor | discriminate].
  - contradiction.
  - exists 0%nat. rewrite (no_update_filter Ht).
    repeat split; [constructor | discriminate].
Qed.

(** X4.  Each update-port call of [configure_meraki] is the one of a
    record of [intf_configs], in order: it is sent to [serials[module-1]],
    or to [serials[0]] for a record without [module], and its keywords are
    the settings of the record (portId, name, type, voiceVlan, vlan,
    allowedVlans) unchanged, with no [module] key; a run that ends
    normally has sent one for every record. *)
Theorem updates_carry_the_records
  (dash : dashboard) (default_gateway : string) (serials : list string)
  (svi_data : Dict.t Svi.t) (shut_interfaces : list string)
  (intf_configs : Dict.t Intf.t) :
  dict_ok svi_data -> dict_ok intf_configs ->
  exists done,
    Forall2 (update_of_record serials)
      (firstn done intf_configs)
      (filter is_update
         (fst (configure_meraki dash default_gateway serials svi_data
                 shut_interfaces intf_configs)))
    /\ (snd (configure_meraki dash default_gateway serials svi_data
               shut_interfaces intf_configs) = Ok tt ->
        done = length intf_configs).
Proof.
  intros Hsvi Hintf.
  destruct (@configure_meraki_updates dash default_gateway serials svi_data
              shut_interfaces intf_configs Hsvi Hintf) as (done & Htr & Hall & Hres).
  exists done. split; [| assumption]. rewrite Htr. clear Htr Hres.
  induction Hall as [| [k c] l [s Hs] _ IH]; simpl; constructor; [| assumption].
  simpl in Hs. rewrite Hs. exists s, (port_kwargs shut_interfaces k c).
  unfold port_target in Hs. simpl.
  rewrite port_kwargs_module, port_kwargs_portId.
  repeat split; try assumption;
    unfold port_kwargs; simpl; now destruct (Intf.module c).
Qed.

Lemma updates_carry_the_records_witness :
  exists done,
    Forall2 (update_of_record Sample.two_serials)
      (firstn done Sample.intf_configs)
      (filter is_update
         (fst (configure_meraki Sample.empty_dashboard "10.0.2.1"
                 Sample.two_serials Sample.svi_data Sample.shut_interfaces
                 Sample.intf_configs)))
    /\ (snd (configure_meraki Sample.empty_dashboard "10.0.2.1"
               Sample.two_serials Sample.svi_data Sample.shut_interfaces
               Sample.intf_configs) = Ok tt ->
        done = length Sample.intf_configs).
Proof.
  apply (@updates_carry_the_records Sample.empty_dashboard "10.0.2.1"
           Sample.two_serials Sample.svi_data Sample.shut_interfaces
           Sample.intf_configs).
  - unfold dict_ok. simpl. repeat constructor; simpl; intuition discriminate.
  - unfold dict_ok. simpl. repeat constructor; simpl; intuition discriminate.
Defined.

(** ** The calls of a whole run *)

Section GatewayLoop.
Variables (dash : dashboard) (default_gateway : string) (a : Z).
Hypothesis gateway_address : Ip.ip_address default_gateway = Ok a.

Let flag (kr : string * Svi.t) : string * Svi.t :=
  (fst kr, flag_gateway default_gateway a (snd kr)).

Lemma holds_gateway_flag (r : Svi.t) :
  holds_gateway a (flag_gateway default_gateway a r) = holds_gateway a r.
Proof. unfold flag_gateway. now destruct (holds_gateway a r) eqn:E. Qed.

Lemma subnets_parse_flag (l : Dict.t Svi.t) :
  subnets_parse l -> subnets_parse (map flag l).
Proof.
  intros H k r Hin. apply in_map_iff in Hin. destruct Hin as ([k0 r0] & E & Hin).
  injection E as <- <-. destruct (H k0 r0 Hin) as [n Hn]. exists n.
  unfold flag_gateway. simpl. now destruct (holds_gateway a r0).
Qed.

Lemma gateway_calls_flag (l : Dict.t Svi.t) (serial : string) :
  gateway_calls default_gateway a (map flag l) serial
  = gateway_calls default_gateway a l serial.
Proof.
  unfold gateway_calls. f_equal.
  induction l as [| [k r] l IH]; simpl; [reflexivity |].
  rewrite holds_gateway_flag.
  destruct (holds_gateway a r) eqn:E; simpl; [| exact IH].
  unfold flag_gateway. rewrite E. simpl. now rewrite IH.
Qed.

Lemma map_flag_flag (l : Dict.t Svi.t) : map flag (map flag l) = map flag l.
Proof.
  rewrite map_map. apply map_ext. intros [k r]. unfold flag. simpl. f_equal.
  unfold flag_gateway at 1. rewrite holds_gateway_flag.
  unfold flag_gateway. now destruct (holds_gateway a r).
Qed.

Lemma last_holder_flag (l : Dict.t Svi.t) (d : string) :
  last_holder a (map flag l) d = last_holder a l d.
Proof.
  unfold last_holder. revert d. induction l as [| [k r] l IH]; intros d; simpl;
    [reflexivity |].
  rewrite holds_gateway_flag, IH. unfold flag_gateway.
  now destruct (holds_gateway a r).
Qed.

Lemma last_holder_again (l : Dict.t Svi.t) (d : string) :
  last_holder a l (last_holder a l d) = last_holder a l d.
Proof.
  unfold last_holder. induction l as [| x l IH] using rev_ind; [reflexivity |].
  rewrite !fold_left_app. simpl. destruct (holds_gateway a (snd x)); [reflexivity |].
  exact IH.
Qed.

(** The loop over the records for one device. *)
Lemma gateway_scan_closed (serial : string) (values : Dict.t Svi.t) :
  forall d,
    subnets_parse values ->
    gateway_scan default_gateway serial values d
    = (tl (gateway_calls default_gateway a values serial),
       Ok (Next (map flag values, last_holder a values d))).
Proof.
  unfold gateway_calls. simpl tl.
  induction values as [| [k r] values IH]; intros d Hp; [reflexivity |].
  destruct (Hp k r (or_introl eq_refl)) as [n Hn].
  assert (Hh : holds_gateway a r = Ip.contains_address n a).
  { unfold holds_gateway. now rewrite Hn. }
  assert (Hp' : subnets_parse values).
  { intros k' r' Hin. apply (Hp k' r'). now right. }
  cbn [gateway_scan]. unfold create_default_svi. rewrite Hn. simpl bindM.
  rewrite gateway_address. simpl bindM.
  cbn [filter map snd fst]. unfold last_holder. cbn [fold_left snd].
  unfold flag at 1, flag_gateway. cbn [snd fst]. rewrite Hh.
  destruct (Ip.contains_address n a).
  - simpl. rewrite (IH (Svi.vlanId r) Hp'). simpl. now rewrite app_nil_r.
  - simpl. rewrite (IH d Hp'). simpl. now rewrite app_nil_r.
Qed.

(** The loop over the serials. *)
Lemma gateway_phase_closed (serials : list string) :
  forall (svi_data : Dict.t Svi.t) (d : string),
    subnets_parse svi_data -> numeric_ids dash serials ->
    gateway_phase dash default_gateway serials svi_data d
    = (flat_map (gateway_calls default_gateway a svi_data) serials,
       Ok (Next (match serials with
                 | [] => (svi_data, d)
                 | _ :: _ => (map flag svi_data, last_holder a svi_data d)
                 end))).
Proof.
  induction serials as [| serial serials IH]; intros svi_data d Hp Hnum; simpl;
    [reflexivity |].
  rewrite check_default_gateway_numeric
    by (intros ri Hri; apply (Hnum serial ri); [now left | assumption]).
  simpl. rewrite (gateway_scan_closed serial d Hp). simpl.
  rewrite (IH (map flag svi_data) (last_holder a svi_data d)
             (subnets_parse_flag Hp)).
  2:{ intros s ri Hs. apply Hnum. now right. }
  f_equal.
  - f_equal. f_equal.
    apply flat_map_ext. intros s. apply gateway_calls_flag.
  - destruct serials; [reflexivity |].
    now rewrite map_flag_flag, last_holder_flag, last_holder_again.
Qed.

End GatewayLoop.

Lemma last_holder_cases (a : Z) (l : Dict.t Svi.t) :
  forall d,
    last_holder a l d = d
    \/ exists k r, In (k, r) l /\ last_holder a l d = Svi.vlanId r.
Proof.
  unfold last_holder. induction l as [| [k r] l IH]; intros d; simpl; [now left |].
  destruct (holds_gateway a r).
  - right. destruct (IH (Svi.vlanId r)) as [-> | (k' & r' & Hin & ->)].
    + exists k, r. auto.
    + exists k', r'. auto.
  - destruct (IH d) as [-> | (k' & r' & Hin & ->)]; [now left |].
    right. exists k', r'. auto.
Qed.

(** X5.  The calls of a whole run, when the gateway is an IPv4 address, the
    subnets are IPv4 networks and the dashboard gives numeric vlanIds: for
    every serial in turn, the query and then the creation, with the
    gateway set, of every record whose subnet holds the gateway (so the
    creation is repeated on every device, and for every such record); then
    the creations, once per serial, of all the records except the last one
    that holds the gateway, the others that hold it being created again
    with the gateway set; then the port updates. *)
Theorem configure_meraki_calls
  (dash : dashboard) (default_gateway : string) (a : Z) (serials : list string)
  (svi_data : Dict.t Svi.t) (shut_interfaces : list string)
  (intf_configs : Dict.t Intf.t) :
  svi_data_ok svi_data ->
  Ip.ip_address default_gateway = Ok a ->
  subnets_parse svi_data ->
  numeric_ids dash serials ->
  serials <> [] ->
  let working :=
    map (fun kr => (fst kr, flag_gateway default_gateway a (snd kr))) svi_data in
  let default_svi := last_holder a svi_data "" in
  fst (configure_meraki dash default_gateway serials svi_data shut_interfaces
         intf_configs)
  = flat_map (gateway_calls default_gateway a svi_data) serials
    ++ bulk_creations serials
         (if String.eqb default_svi "" then working
          else filter (fun kr => negb (String.eqb (fst kr) default_svi)) working)
    ++ fst (bulk_ports serials shut_interfaces intf_configs
              (Dict.keys intf_configs)).
Proof.
  intros [Hnd Hkeys] Hgw Hp Hnum Hne working default_svi.
  unfold configure_meraki.
  rewrite (@gateway_phase_closed dash default_gateway a Hgw serials svi_data ""
             Hp Hnum).
  destruct serials as [| s0 rest]; [contradiction |].
  fold working. fold default_svi. cbv beta iota. unfold bindM at 1. cbv beta iota.
  assert (Hkw : Dict.keys working = Dict.keys svi_data).
  { unfold working, Dict.keys. rewrite map_map. reflexivity. }
  assert (Hw : dict_ok working) by (unfold dict_ok; now rewrite Hkw).
  set (rest' := if String.eqb default_svi "" then working
                else filter (fun kr => negb (String.eqb (fst kr) default_svi)) working).
  assert (Hdel : (if negb (String.eqb default_svi "")
                  then Dict.del working default_svi else Ok working) = Ok rest').
  { unfold rest'. destruct (String.eqb_spec default_svi "") as [E | Hd]; simpl;
      [reflexivity |].
    apply del_present; [assumption |]. rewrite Hkw.
    destruct (last_holder_cases a svi_data "") as [E | (k & r & Hin & E)].
    - contradiction.
    - fold default_svi in E. rewrite E, (Hkeys k r Hin).
      change k with (fst (k, r)). now apply in_map. }
  assert (Hrest : dict_ok rest').
  { unfold rest'. destruct (String.eqb default_svi ""); [assumption |].
    now apply dict_ok_filter. }
  rewrite (@apply_bulk_trace (s0 :: rest) shut_interfaces working rest' default_svi
             intf_configs Hdel Hrest).
  reflexivity.
Qed.

Lemma configure_meraki_calls_witness :
  fst (configure_meraki Sample.empty_dashboard "10.0.2.1" ["Q2XX-0001"]
         Sample.overlapping [] [])
  = [ getDeviceSwitchRoutingInterfaces "Q2XX-0001";
      createDeviceSwitchRoutingInterface "Q2XX-0001"
        (Svi.Mk "Wide" "5" "10.0.0.1" "10.0.0.0/16" (Some "10.0.2.1"));
      createDeviceSwitchRoutingInterface "Q2XX-0001"
        (Svi.Mk "Vlan20" "20" "10.0.2.1" "10.0.2.0/24" (Some "10.0.2.1"));
      createDeviceSwitchRoutingInterface "Q2XX-0001"
        (Svi.Mk "Wide" "5" "10.0.0.1" "10.0.0.0/16" (Some "10.0.2.1")) ].
Proof.
  rewrite (@configure_meraki_calls Sample.empty_dashboard "10.0.2.1" 167772673
             ["Q2XX-0001"] Sample.overlapping [] []).
  - vm_compute. reflexivity.
  - split.
    + unfold dict_ok. simpl. repeat constructor; simpl; intuition discriminate.
    + simpl. intros k r [E | [E | []]]; injection E as <- <-; reflexivity.
  - vm_compute. reflexivity.
  - intros k r [E | [E | []]]; injection E as <- <-; eexists;
      vm_compute; reflexivity.
  - intros serial ri _ [].
  - discriminate.
Defined.

(** ** The text of a network, read back *)

Lemma all_bytes_ok : forallb byte_text_ok (map Z.of_nat (seq 0 256)) = true.
Proof. vm_compute. reflexivity. Qed.

Lemma all_prefixes_ok : forallb prefix_text_ok (map Z.of_nat (seq 0 33)) = true.
Proof. vm_compute. reflexivity. Qed.

Lemma small_in_seq (z : Z) (n : nat) :
  (0 <= z < Z.of_nat n)%Z -> In z (map Z.of_nat (seq 0 n)).
Proof.
  intros H. apply in_map_iff. exists (Z.to_nat z). split; [lia |].
  apply in_seq. lia.
Qed.

Lemma byte_text (b : Z) :
  (0 <= b < 256)%Z ->
  Ip.parse_octet (str_of_Z b) = Ok b
  /\ occurs "." (str_of_Z b) = false /\ occurs "/" (str_of_Z b) = false.
Proof.
  intros H. pose proof all_bytes_ok as Hall. rewrite forallb_forall in Hall.
  specialize (Hall b (@small_in_seq b 256 H)). unfold byte_text_ok in Hall.
  apply andb_prop in Hall. destruct Hall as [Hall H3].
  apply andb_prop in Hall. destruct Hall as [H1 H2].
  destruct (Ip.parse_octet (str_of_Z b)) as [z |]; [| discriminate].
  apply Z.eqb_eq in H1. subst z.
  repeat split; [now destruct (occurs "." _) | now destruct (occurs "/" _)].
Qed.

Lemma prefix_text (p : Z) :
  (0 <= p <= 32)%Z ->
  Ip.make_netmask (str_of_Z p) = Ok (Ip.ip_int_from_prefix p, p)
  /\ occurs "/" (str_of_Z p) = false.
Proof.
  intros H. pose proof all_prefixes_ok as Hall. rewrite forallb_forall in Hall.
  assert (Hin : (0 <= p < Z.of_nat 33)%Z) by lia.
  specialize (Hall p (@small_in_seq p 33 Hin)). unfold prefix_text_ok in Hall.
  apply andb_prop in Hall. destruct Hall as [H1 H2].
  destruct (Ip.make_netmask (str_of_Z p)) as [[nm q] |]; [| discriminate].
  apply andb_prop in H1. destruct H1 as [Hn Hq].
  apply Z.eqb_eq in Hn, Hq. subst.
  split; [reflexivity | now destruct (occurs "/" _)].
Qed.

Lemma occurs_append (c : ascii) (s1 s2 : string) :
  occurs c (s1 ++ s2) = occurs c s1 || occurs c s2.
Proof.
  induction s1 as [| a s1 IH]; simpl; [reflexivity |].
  now rewrite IH, orb_assoc.
Qed.

Lemma contains_char (c : ascii) (s : string) :
  contains (String c EmptyString) s = occurs c s.
Proof.
  induction s as [| a s IH]; simpl; [reflexivity |].
  destruct (ascii_dec c a) as [-> | Hne].
  - rewrite Ascii.eqb_refl. now destruct s.
  - rewrite IH. destruct (Ascii.eqb_spec c a); [contradiction | reflexivity].
Qed.

Lemma split_without (sep : ascii) (s : string) :
  occurs sep s = false -> Ip.split sep s = [s].
Proof.
  induction s as [| a s IH]; simpl; [reflexivity |].
  rewrite Ascii.eqb_sym. destruct (Ascii.eqb a sep); simpl; [discriminate |].
  intros H. now rewrite (IH H).
Qed.

Lemma from_to_bytes (x : Z) :
  (0 <= x < 2 ^ 32)%Z ->
  Ip.from_bytes (Ip.to_bytes x) = x
  /\ Forall (fun b => 0 <= b < 256)%Z (Ip.to_bytes x).
Proof.
  intros H. unfold Ip.to_bytes, Ip.from_bytes. cbn [fold_left].
  rewrite !Z.shiftr_div_pow2 by lia.
  assert (E24 : (x / 2 ^ 24 = x / 2 ^ 8 / 256 / 256)%Z).
  { rewrite !Z.div_div by lia. reflexivity. }
  assert (E16 : (x / 2 ^ 16 = x / 2 ^ 8 / 256)%Z).
  { rewrite !Z.div_div by lia. reflexivity. }
  rewrite E24, E16. change (2 ^ 8)%Z with 256%Z.
  change (2 ^ 32)%Z with (256 * 256 * 256 * 256)%Z in H.
  set (y3 := (x / 256)%Z). set (y2 := (y3 / 256)%Z). set (y1 := (y2 / 256)%Z).
  pose proof (Z.div_mod x 256 ltac:(lia)) as D3. fold y3 in D3.
  pose proof (Z.div_mod y3 256 ltac:(lia)) as D2. fold y2 in D2.
  pose proof (Z.div_mod y2 256 ltac:(lia)) as D1. fold y1 in D1.
  pose proof (Z.mod_pos_bound x 256 ltac:(lia)) as B4.
  pose proof (Z.mod_pos_bound y3 256 ltac:(lia)) as B3.
  pose proof (Z.mod_pos_bound y2 256 ltac:(lia)) as B2.
  pose proof (Z.mod_pos_bound y1 256 ltac:(lia)) as B1.
  assert (Hy1 : (0 <= y1 < 256)%Z).
  { split.
    - unfold y1, y2, y3. repeat apply Z.div_pos; lia.
    - unfold y1, y2, y3. repeat (apply Z.div_lt_upper_bound; [lia |]). lia. }
  rewrite (Z.mod_small y1 256 Hy1).
  split; [lia |].
  repeat constructor; lia.
Qed.

Lemma quad_text (b1 b2 b3 b4 : Z) :
  (0 <= b1 < 256)%Z -> (0 <= b2 < 256)%Z -> (0 <= b3 < 256)%Z ->
  (0 <= b4 < 256)%Z ->
  Ip.ip_address (Ip.join "." (map str_of_Z [b1; b2; b3; b4]))
  = Ok (Ip.from_bytes [b1; b2; b3; b4])
  /\ occurs "/" (Ip.join "." (map str_of_Z [b1; b2; b3; b4])) = false.
Proof.
  intros H1 H2 H3 H4.
  destruct (byte_text H1) as (P1 & D1 & S1).
  destruct (byte_text H2) as (P2 & D2 & S2).
  destruct (byte_text H3) as (P3 & D3 & S3).
  destruct (byte_text H4) as (P4 & D4 & S4).
  cbn [map Ip.join].
  set (t := (str_of_Z b1 ++ "." ++ str_of_Z b2 ++ "." ++ str_of_Z b3 ++ "."
             ++ str_of_Z b4)%string).
  assert (Hslash : occurs "/" t = false).
  { unfold t. rewrite !occurs_append. simpl. now rewrite S1, S2, S3, S4. }
  assert (Hsplit : Ip.split "." t
                   = [str_of_Z b1; str_of_Z b2; str_of_Z b3; str_of_Z b4]).
  { unfold t. simpl append. rewrite !split_append.
    now rewrite !split_without by assumption. }
  split; [| exact Hslash].
  unfold Ip.ip_address. rewrite contains_char, Hslash.
  unfold Ip.ip_int_from_string. rewrite Hsplit.
  destruct t eqn:E; [discriminate Hsplit |].
  cbn [length Nat.eqb negb Ip.parse_octets].
  rewrite P1, P2, P3, P4. reflexivity.
Qed.

(** The dotted text of a 32-bit address is read back as the address. *)
Lemma address_text (x : Z) :
  (0 <= x < 2 ^ 32)%Z ->
  Ip.ip_address (Ip.str_of_address x) = Ok x
  /\ occurs "/" (Ip.str_of_address x) = false.
Proof.
  intros H. destruct (from_to_bytes H) as [Hfrom Hbytes].
  unfold Ip.str_of_address. unfold Ip.to_bytes in *.
  inversion Hbytes as [| ? ? H1 Hb]; subst.
  inversion Hb as [| ? ? H2 Hb']; subst.
  inversion Hb' as [| ? ? H3 Hb'']; subst.
  inversion Hb'' as [| ? ? H4 _]; subst.
  destruct (quad_text H1 H2 H3 H4) as [Hq Hs].
  rewrite Hq, Hfrom. now split.
Qed.

(** The text of a network is read back, strictly, as the network. *)
Lemma network_text (n : Ip.network) :
  network_ok n -> Ip.ip_network (Ip.str_of_network n) true = Ok n.
Proof.
  destruct n as [na nm p]. unfold network_ok. simpl.
  intros (Hp & -> & Hna & Hland).
  destruct (address_text Hna) as [Ha Hs]. destruct (prefix_text Hp) as [Hm Hs'].
  unfold Ip.ip_network, Ip.str_of_network.
  cbn [Ip.network_address Ip.prefixlen append].
  rewrite split_append. rewrite !split_without by assumption.
  change ([Ip.str_of_address na] ++ [str_of_Z p])
    with [Ip.str_of_address na; str_of_Z p].
  cbv iota. rewrite Ha. unfold Py.bind at 1. rewrite Hm. unfold Py.bind.
  cbv beta iota. rewrite Hland, Z.eqb_refl. reflexivity.
Qed.

(** ** The records of [parse_svi_data] *)

Lemma int_of_str_nonneg (s : string) (z : Z) : int_of_str s = Ok z -> (0 <= z)%Z.
Proof.
  unfold int_of_str. destruct s as [| c s]; [discriminate |].
  destruct (all_digits (String c s)); [| discriminate].
  destruct (max_str_digits <? Z.of_nat (String.length (String c s)))%Z;
    [discriminate |].
  destruct (NilEmpty.uint_of_string (String c s)); [| discriminate].
  intros [= <-]. unfold Z.of_uint. apply N2Z.is_nonneg.
Qed.

Lemma parse_octet_range (s : string) (b : Z) :
  Ip.parse_octet s = Ok b -> (0 <= b < 256)%Z.
Proof.
  unfold Ip.parse_octet. destruct s as [| c s]; [discriminate |].
  destruct (negb (all_digits (String c s))); [discriminate |].
  destruct (3 <? String.length (String c s))%nat; [discriminate |].
  destruct (negb (String.eqb (String c s) "0") && Ascii.eqb c "0"); [discriminate |].
  destruct (int_of_str (String c s)) as [z |] eqn:E; simpl; [| discriminate].
  apply int_of_str_nonneg in E.
  destruct (Z.ltb_spec 255 z); [discriminate |]. intros [= <-]. lia.
Qed.

Lemma parse_octets_range (l : list string) (bs : list Z) :
  Ip.parse_octets l = Ok bs ->
  length bs = length l /\ Forall (fun b => 0 <= b < 256)%Z bs.
Proof.
  revert bs. induction l as [| o l IH]; simpl; intros bs.
  - intros [= <-]. split; [reflexivity | constructor].
  - destruct (Ip.parse_octet o) as [b |] eqn:E; simpl; [| discriminate].
    destruct (Ip.parse_octets l) as [bs' |]; simpl; [| discriminate].
    intros [= <-]. destruct (IH bs' eq_refl) as [Hl Hf].
    split; [simpl; now f_equal |].
    constructor; [now apply parse_octet_range in E | assumption].
Qed.

(** An address that is read is a 32-bit number. *)
Lemma ip_address_range (s : string) (a : Z) :
  Ip.ip_address s = Ok a -> (0 <= a < 2 ^ 32)%Z.
Proof.
  unfold Ip.ip_address. destruct (contains "/" s); [discriminate |].
  unfold Ip.ip_int_from_string. destruct s as [| c s]; [discriminate |].
  destruct (Nat.eqb_spec (length (Ip.split "." (String c s))) 4) as [H4 | _];
    [| discriminate].
  simpl negb. cbv iota.
  destruct (Ip.parse_octets (Ip.split "." (String c s))) as [bs |] eqn:E;
    simpl; [| discriminate].
  intros [= <-]. apply parse_octets_range in E. destruct E as [Hl Hf].
  rewrite H4 in Hl.
  destruct bs as [| b1 [| b2 [| b3 [| b4 [| b5 bs]]]]]; try discriminate.
  inversion Hf as [| ? ? H1 Hf1]; subst. inversion Hf1 as [| ? ? H2 Hf2]; subst.
  inversion Hf2 as [| ? ? H3 Hf3]; subst. inversion Hf3 as [| ? ? H5 _]; subst.
  unfold Ip.from_bytes. cbn [fold_left].
  change (Z.pow_pos 2 32) with 4294967296%Z. lia.
Qed.

Lemma count_righthand_zero_bits_range (z : Z) :
  (0 <= Ip.count_righthand_zero_bits z 32 <= 32)%Z.
Proof.
  assert (H : forall x, (0 <= x -> 0 <= Z.min 32 x <= 32)%Z).
  { intros x Hx. split; [apply Z.min_glb; lia | apply Z.le_min_l]. }
  unfold Ip.count_righthand_zero_bits, Ip.bit_length.
  destruct (z =? 0)%Z; [lia |].
  apply H.
  destruct (Z.land (Z.lnot z) (z - 1) =? 0)%Z; [lia |].
  pose proof (Z.log2_nonneg (Z.abs (Z.land (Z.lnot z) (z - 1)))). lia.
Qed.

Lemma prefix_from_ip_int_range (z p : Z) :
  Ip.prefix_from_ip_int z = Ok p -> (0 <= p <= 32)%Z.
Proof.
  pose proof (count_righthand_zero_bits_range z) as Hc.
  set (t := Ip.count_righthand_zero_bits z 32) in Hc.
  assert (E : Ip.prefix_from_ip_int z
              = if negb (Z.shiftr z t =? Z.shiftl 1 (32 - t) - 1)%Z
                then Raised ValueError else Ok (32 - t)%Z) by reflexivity.
  rewrite E. destruct (negb _); [discriminate |].
  intros H. assert (Hp : p = (32 - t)%Z) by congruence. lia.
Qed.

(** A mask that is read is the mask of a prefix length. *)
Lemma make_netmask_range (s : string) (nm p : Z) :
  Ip.make_netmask s = Ok (nm, p) ->
  (0 <= p <= 32)%Z /\ nm = Ip.ip_int_from_prefix p.
Proof.
  unfold Ip.make_netmask.
  assert (H : forall q,
             match Ip.prefix_from_prefix_string s with
             | Ok p0 => Ok p0
             | Raised _ => Ip.prefix_from_ip_string s
             end = Ok q -> (0 <= q <= 32)%Z).
  { intros q. unfold Ip.prefix_from_prefix_string, Ip.max_prefixlen.
    destruct (negb (all_digits s)); simpl.
    - unfold Ip.prefix_from_ip_string.
      destruct (Ip.ip_int_from_string s) as [z |]; simpl; [| discriminate].
      destruct (Ip.prefix_from_ip_int z) eqn:E.
      + intros [= <-]. now apply prefix_from_ip_int_range in E.
      + apply prefix_from_ip_int_range.
    - destruct (int_of_str s) as [z |]; simpl.
      + destruct (Z.leb_spec 0 z), (Z.leb_spec z 32); simpl.
        * intros [= <-]. lia.
        * unfold Ip.prefix_from_ip_string.
          destruct (Ip.ip_int_from_string s) as [y |]; simpl; [| discriminate].
          destruct (Ip.prefix_from_ip_int y) eqn:E.
          -- intros [= <-]. now apply prefix_from_ip_int_range in E.
          -- apply prefix_from_ip_int_range.
        * unfold Ip.prefix_from_ip_string.
          destruct (Ip.ip_int_from_string s) as [y |]; simpl; [| discriminate].
          destruct (Ip.prefix_from_ip_int y) eqn:E.
          -- intros [= <-]. now apply prefix_from_ip_int_range in E.
          -- apply prefix_from_ip_int_range.
        * unfold Ip.prefix_from_ip_string.
          destruct (Ip.ip_int_from_string s) as [y |]; simpl; [| discriminate].
          destruct (Ip.prefix_from_ip_int y) eqn:E.
          -- intros [= <-]. now apply prefix_from_ip_int_range in E.
          -- apply prefix_from_ip_int_range.
      + unfold Ip.prefix_from_ip_string.
        destruct (Ip.ip_int_from_string s) as [y |]; simpl; [| discriminate].
        destruct (Ip.prefix_from_ip_int y) eqn:E.
        * intros [= <-]. now apply prefix_from_ip_int_range in E.
        * apply prefix_from_ip_int_range. }
  destruct (match Ip.prefix_from_prefix_string s with
            | Ok p0 => Ok p0
            | Raised _ => Ip.prefix_from_ip_string s
            end) as [q |] eqn:E; simpl; [| discriminate].
  intros [= <- <-]. split; [now apply H | reflexivity].
Qed.

Lemma land_32_bits (a m : Z) :
  (0 <= a < 2 ^ 32)%Z -> (0 <= Z.land a m < 2 ^ 32)%Z.
Proof.
  intros H.
  assert (E : Z.land a m = ((Z.land a m) mod 2 ^ 32)%Z).
  { rewrite <- Z.land_ones by lia.
    rewrite <- Z.land_assoc, (Z.land_comm m), Z.land_assoc, Z.land_ones by lia.
    now rewrite (Z.mod_small a) by lia. }
  rewrite E. apply Z.mod_pos_bound. lia.
Qed.

(** The network of an address and a mask read without strictness is a
    network in the above sense. *)
Lemma nonstrict_network_ok (ip mask : string) (n : Ip.network) :
  Ip.ip_network (ip ++ "/" ++ mask) false = Ok n -> network_ok n.
Proof.
  intros H. apply ip_network_nonstrict in H.
  destruct H as (a & nm & p & Ha & Hm & ->).
  apply ip_address_range in Ha. apply make_netmask_range in Hm.
  destruct Hm as [Hp ->]. unfold network_ok. simpl.
  repeat split; try lia; try (now apply land_32_bits).
  now rewrite <- Z.land_assoc, Z.land_diag.
Qed.

(** The VLAN number taken from a header is a run of digits. *)
Lemma vlan_id_digits (v : line) (id : string) :
  vlan_id_of v = Ok id -> id <> "" /\ all_digits id = true.
Proof.
  unfold vlan_id_of, Re.search.
  set (s := list_ascii_of_string (text v)).
  destruct (Re.search_from Pat.digits 0 s) as [m |] eqn:Es; [| discriminate].
  intros [= <-].
  apply ReFacts.search_from_sound in Es. destruct Es as (n & Hm).
  apply ReFacts.match_at_sound in Hm. destruct Hm as (Hstart & s' & Hm).
  change (0 + n)%nat with n in *.
  unfold Pat.digits, Re.Plus in Hm.
  inversion Hm as [| | | | | r1 r2 pos s0 c pos1 s1 c1 pos2 s2 c2 Hd Hstar | | | | |];
    subst.
  inversion Hd as [| p a0 pos0 s3 c0 Hdig | | | | | | | | |]; subst.
  apply ReFacts.digits_star in Hstar. destruct Hstar as (w & -> & Hend & Hw).
  unfold Re.group0. fold s. rewrite Hend.
  match goal with H : _ :: _ = skipn _ _ |- _ => rewrite <- H end.
  match goal with
  | |- context [firstn ?k _] => replace k with (S (length w)) by lia
  end.
  cbn [firstn]. rewrite firstn_app, firstn_all, Nat.sub_diag. cbn [firstn].
  rewrite app_nil_r.
  assert (Hall : forallb is_digit (a0 :: w) = true).
  { simpl in Hdig. simpl. now rewrite Hdig, Hw. }
  split; [discriminate |]. now apply digits_uint in Hall.
Qed.

Lemma svi_step_records (d d' : Dict.t Svi.t) (v : line) :
  (forall k r, In (k, r) d -> svi_record_ok k r) ->
  svi_step d v = Ok d' ->
  forall k r, In (k, r) d' -> svi_record_ok k r.
Proof.
  intros Hd Hs. unfold svi_step in Hs.
  destruct (vlan_id_of v) as [id |] eqn:Hid; simpl in Hs; [| discriminate].
  destruct (svi_fields v) as [[desc ip] mask].
  destruct (Dict.mem d id) eqn:Hm; simpl in Hs; [now injection Hs as <- |].
  destruct (String.eqb_spec ip "") as [| Hip]; simpl in Hs; [now injection Hs as <- |].
  destruct (String.eqb mask ""); simpl in Hs; [now injection Hs as <- |].
  match type of Hs with
  | context [Ip.ip_network ?x false] =>
      destruct (Ip.ip_network x false) as [n |] eqn:Hn
  end; simpl in Hs; [| discriminate].
  injection Hs as <-. apply mem_false_get in Hm.
  rewrite (@set_fresh _ d id _ Hm). intros k r Hin.
  apply in_app_or in Hin. destruct Hin as [Hin | [E | []]]; [now apply Hd |].
  injection E as <- <-. apply vlan_id_digits in Hid. destruct Hid as [Hne Hdig].
  unfold svi_record_ok, svi_record. simpl.
  repeat split; try assumption.
  exists n. split; [| reflexivity].
  exact (@nonstrict_network_ok ip mask n Hn).
Qed.

Lemma for_each_svi_records (l : list line) :
  forall d d',
    (forall k r, In (k, r) d -> svi_record_ok k r) ->
    for_each svi_step l d = Ok d' ->
    forall k r, In (k, r) d' -> svi_record_ok k r.
Proof.
  induction l as [| v l IH]; simpl; intros d d' Hd.
  - now intros [= <-].
  - destruct (svi_step d v) as [d1 |] eqn:E; simpl; [| discriminate].
    apply IH. eapply svi_step_records; eassumption.
Qed.

(** X6.  The map [parse_svi_data] returns holds each VLAN once, under the
    digits taken from the header; every record is stored under its own
    [vlanId], which is a non-empty run of digits (so, never the [""] that
    [configure_meraki] uses for "no default SVI"), carries no
    [defaultGateway] yet, and has a non-empty [interfaceIp]. *)
Theorem parse_svi_data_records (cfg : config) (svi_data : Dict.t Svi.t) :
  parse_svi_data cfg = Ok svi_data ->
  NoDup (Dict.keys svi_data)
  /\ forall k r, In (k, r) svi_data ->
       Svi.vlanId r = k /\ k <> "" /\ all_digits k = true
       /\ Svi.defaultGateway r = None /\ Svi.interfaceIp r <> "".
Proof.
  intros Hrun. unfold parse_svi_data in Hrun. split.
  - apply (@for_each_svi_ok (find_objects Pat.interface_vlan cfg) [] svi_data);
      [| assumption].
    split; [constructor | intros k r []].
  - intros k r Hin.
    destruct (@for_each_svi_records (find_objects Pat.interface_vlan cfg)
                [] svi_data (fun k r (H : In (k, r) []) => match H with end)
                Hrun k r Hin) as (H1 & H2 & H3 & H4 & H5 & _).
    auto.
Qed.

Lemma parse_svi_data_records_witness :
  NoDup (Dict.keys Sample.svi_data)
  /\ forall k r, In (k, r) Sample.svi_data ->
       Svi.vlanId r = k /\ k <> "" /\ all_digits k = true
       /\ Svi.defaultGateway r = None /\ Svi.interfaceIp r <> "".
Proof.
  apply (@parse_svi_data_records Sample.one_switch Sample.svi_data).
  vm_compute. reflexivity.
Defined.

(** X7.  The subnet text [parse_svi_data] writes in a record (the [str] of
    a network built with [strict=False]) is accepted by the strict
    [ip_network] that [configure_meraki] and [create_default_svi] apply to
    it: it reads back as a network with a prefix length between 0 and 32,
    the mask of that length and no host bit, whose text is the subnet
    itself. *)
Theorem parse_svi_data_subnets_read_back (cfg : config) (svi_data : Dict.t Svi.t) :
  parse_svi_data cfg = Ok svi_data ->
  forall k r, In (k, r) svi_data ->
    exists n,
      Ip.ip_network (Svi.subnet r) true = Ok n
      /\ Ip.str_of_network n = Svi.subnet r
      /\ (0 <= Ip.prefixlen n <= 32)%Z
      /\ Ip.netmask n = Ip.ip_int_from_prefix (Ip.prefixlen n)
      /\ Z.land (Ip.network_address n) (Ip.netmask n) = Ip.network_address n.
Proof.
  intros Hrun k r Hin. unfold parse_svi_data in Hrun.
  destruct (@for_each_svi_records (find_objects Pat.interface_vlan cfg)
              [] svi_data (fun k r (H : In (k, r) []) => match H with end)
              Hrun k r Hin) as (_ & _ & _ & _ & _ & n & Hn & Hs).
  exists n. rewrite Hs. split; [now apply network_text |].
  destruct Hn as (Hp & Hm & _ & Hl). auto.
Qed.

Lemma parse_svi_data_subnets_read_back_witness :
  exists n,
    Ip.ip_network
      (Svi.subnet (Svi.Mk "Users" "10" "10.0.1.5" "10.0.1.0/24" None)) true
    = Ok n
    /\ Ip.str_of_network n
       = Svi.subnet (Svi.Mk "Users" "10" "10.0.1.5" "10.0.1.0/24" None)
    /\ (0 <= Ip.prefixlen n <= 32)%Z
    /\ Ip.netmask n = Ip.ip_int_from_prefix (Ip.prefixlen n)
    /\ Z.land (Ip.network_address n) (Ip.netmask n) = Ip.network_address n.
Proof.
  apply (@parse_svi_data_subnets_read_back Sample.one_switch Sample.svi_data
           (eq_refl : parse_svi_data Sample.one_switch = Ok Sample.svi_data)
           "10" (Svi.Mk "Users" "10" "10.0.1.5" "10.0.1.0/24" None)).
  left. reflexivity.
Defined.

(** ** From the extractor to the applier *)

(** With readable subnets and a readable gateway the gateway loop goes
    through, and leaves readable subnets. *)
Lemma gateway_phase_goes_through (dash : dashboard) (gw : string) (a : Z)
  (serials : list string) :
  Ip.ip_address gw = Ok a ->
  forall (svi_data : Dict.t Svi.t) (d : string),
    subnets_parse svi_data ->
    exists t svi_data' d',
      gateway_phase dash gw serials svi_data d = (t, Ok (Next (svi_data', d'))).
Proof.
  intros Hgw. induction serials as [| serial serials IH]; intros svi_data d Hp;
    simpl.
  - now eexists _, _, _.
  - destruct (check_default_gateway _); simpl.
    + destruct (IH svi_data d Hp) as (t & l' & d' & ->). simpl. now eexists _, _, _.
    + rewrite (@gateway_scan_closed gw a Hgw serial svi_data d Hp). simpl.
      destruct (IH _ (last_holder a svi_data d)
                  (@subnets_parse_flag gw a svi_data Hp)) as (t & l' & d' & ->).
      simpl. now eexists _, _, _.
Qed.

(** Once the gateway loop has gone through, the rest can only fail on a
    lookup in [serials]. *)
Lemma after_gateway_outcome
  (dash : dashboard) (default_gateway : string) (serials : list string)
  (svi_data : Dict.t Svi.t) (shut_interfaces : list string)
  (intf_configs : Dict.t Intf.t) (t1 : list api_call)
  (svi_data' : Dict.t Svi.t) (default_svi : string) :
  svi_data_ok svi_data -> dict_ok intf_configs ->
  gateway_phase dash default_gateway serials svi_data ""
  = (t1, Ok (Next (svi_data', default_svi))) ->
  snd (configure_meraki dash default_gateway serials svi_data shut_interfaces
         intf_configs) = Ok tt
  \/ snd (configure_meraki dash default_gateway serials svi_data shut_interfaces
            intf_configs) = Raised IndexError.
Proof.
  intros Hsvi Hintf Hgw. unfold configure_meraki.
  destruct (gateway_phase_spec dash default_gateway serials svi_data "") as [_ Hr].
  rewrite Hgw in Hr |- *. simpl in Hr. destruct Hr as [Hf Hd].
  pose proof (flagged_ok Hf Hsvi) as [Hnd' Hkeys'].
  assert (Hdel : exists rest,
             (if negb (String.eqb default_svi "")
              then Dict.del svi_data' default_svi else Ok svi_data') = Ok rest
             /\ dict_ok rest).
  { destruct (String.eqb_spec default_svi "") as [-> | Hne]; simpl.
    - now exists svi_data'.
    - eexists. split; [| apply dict_ok_filter; exact Hnd'].
      apply del_present; [assumption |].
      destruct Hd as [-> | (k & r & Hin & ->)]; [contradiction |].
      rewrite (Hkeys' k r Hin). change k with (fst (k, r)). now apply in_map. }
  destruct Hdel as (rest & Hdel & Hrest). simpl.
  rewrite (@apply_bulk_trace serials shut_interfaces svi_data' rest
             default_svi intf_configs Hdel Hrest). simpl.
  destruct (@bulk_ports_trace serials shut_interfaces intf_configs
              intf_configs Hintf) as (done & _ & _ & Hres);
    [intros; now apply get_in |].
  destruct (snd (bulk_ports serials shut_interfaces intf_configs
                   (Dict.keys intf_configs))) as [d | e].
  - now left.
  - destruct Hres as [-> _]. now right.
Qed.

(** X8.  What [parse_svi_data] returns is never rejected by
    [configure_meraki]: with the records of a parsed configuration and a
    gateway that is an IPv4 address, no [ValueError] (nor [KeyError]) can
    arise, whatever the dashboard answers; the run ends normally or on the
    [IndexError] of a lookup in [serials]. *)
Theorem parsed_svis_are_accepted
  (dash : dashboard) (cfg : config) (default_gateway : string) (a : Z)
  (serials : list string) (svi_data : Dict.t Svi.t)
  (shut_interfaces : list string) (intf_configs : Dict.t Intf.t) :
  parse_svi_data cfg = Ok svi_data ->
  Ip.ip_address default_gateway = Ok a ->
  dict_ok intf_configs ->
  snd (configure_meraki dash default_gateway serials svi_data shut_interfaces
         intf_configs) = Ok tt
  \/ snd (configure_meraki dash default_gateway serials svi_data shut_interfaces
            intf_configs) = Raised IndexError.
Proof.
  intros Hparse Hgw Hintf.
  assert (Hok : svi_data_ok svi_data).
  { unfold parse_svi_data in Hparse.
    apply (@for_each_svi_ok (find_objects Pat.interface_vlan cfg) [] svi_data);
      [| assumption].
    split; [constructor | intros k r []]. }
  assert (Hp : subnets_parse svi_data).
  { intros k r Hin. unfold parse_svi_data in Hparse.
    destruct (@for_each_svi_records (find_objects Pat.interface_vlan cfg)
                [] svi_data (fun k r (H : In (k, r) []) => match H with end)
                Hparse k r Hin) as (_ & _ & _ & _ & _ & n & Hn & Hs).
    exists n. rewrite Hs. now apply network_text. }
  destruct (@gateway_phase_goes_through dash default_gateway a serials Hgw
              svi_data "" Hp) as (t & l' & d' & Hphase).
  eapply after_gateway_outcome; eassumption.
Qed.

Lemma parsed_svis_are_accepted_witness :
  snd (configure_meraki Sample.dashboard_with_gateway "10.0.2.1"
         Sample.two_serials Sample.svi_data Sample.shut_interfaces
         Sample.intf_configs) = Ok tt
  \/ snd (configure_meraki Sample.dashboard_with_gateway "10.0.2.1"
            Sample.two_serials Sample.svi_data Sample.shut_interfaces
            Sample.intf_configs) = Raised IndexError.
Proof.
  apply (@parsed_svis_are_accepted Sample.dashboard_with_gateway
           Sample.one_switch "10.0.2.1" 167772673).
  - vm_compute. reflexivity.
  - vm_compute. reflexivity.
  - unfold dict_ok. simpl. repeat constructor; simpl; intuition discriminate.
Defined.

(** ** The interface extractor *)

(** What the loop body does on a retained interface, when it returns. *)
Lemma intf_step_retained (n mc : Z) (d : Dict.t Intf.t) (intf_obj : line)
  (st' : Z * Dict.t Intf.t) :
  is_downlink intf_obj = true ->
  intf_step n (mc, d) intf_obj = Ok st' ->
  exists u p,
    int_of_str (switch_module_of intf_obj) = Ok u
    /\ int_of_str (port_number_of intf_obj) = Ok p
    /\ (n = 1%Z -> (u <= 1)%Z)
    /\ snd st' = Dict.set d (intf_name_of intf_obj) (intf_record n u p intf_obj).
Proof.
  intros Hdown Hs.
  destruct (@header_numbers intf_obj (@is_downlink_port intf_obj Hdown))
    as ((u & Hu & _) & Hp).
  assert (Hp' : exists p, int_of_str (port_number_of intf_obj) = Ok p).
  { destruct (port_too_long intf_obj).
    - unfold intf_step in Hs. rewrite Hdown, Hp in Hs. discriminate.
    - destruct Hp as (p & Hp & _). now exists p. }
  clear Hp. destruct Hp' as (p & Hp).
  exists u, p. unfold intf_step in Hs. rewrite Hdown, Hp in Hs. simpl in Hs.
  unfold number_port in Hs. unfold intf_record.
  destruct (Z.eqb_spec n 1) as [En | Hn1].
  - subst n. simpl in Hs. rewrite Hu in Hs. simpl in Hs. change (1 <? 1)%Z with false.
    destruct (u =? 1)%Z eqn:Eu; simpl in Hs.
    + apply Z.eqb_eq in Eu. injection Hs as <-. repeat split; auto; lia.
    + destruct (Z.ltb_spec 1 u); simpl in Hs; [discriminate |].
      injection Hs as <-. repeat split; auto.
  - destruct (1 <? n)%Z; simpl in Hs; rewrite ?Hu in Hs; simpl in Hs;
      injection Hs as <-; repeat split; auto; contradiction.
Qed.

Lemma for_each_intf_outcome (n : Z) (l : list line) :
  forall st,
    match first_fault n l with
    | Some e => for_each (intf_step n) l st = Raised e
    | None => exists st', for_each (intf_step n) l st = Ok st'
    end.
Proof.
  induction l as [| b l IH]; intros [mc d]; cbn [for_each first_fault].
  - now eexists.
  - pose proof (@intf_step_outcome n mc d b) as Hb.
    destruct (step_fault n b) as [e |].
    + now rewrite Hb.
    + destruct Hb as [st' ->]. cbn [Py.bind]. apply IH.
Qed.

(** X9.  [parse_intf_config] raises for two reasons only, and the first
    block with one of them decides: a retained interface whose port
    number has more digits than [int] converts ([ValueError]), or, with
    exactly one target switch, a retained interface on a stacking unit
    above 1 ([TypeError]).  With no such block it returns a dict, whatever
    the configuration and the number of switches. *)
Theorem parse_intf_config_outcome (cfg : config) (num_switches : Z) :
  match first_fault num_switches (find_objects Pat.interface cfg) with
  | Some e => parse_intf_config cfg num_switches = Raised e
  | None =>
      exists intf_configs, parse_intf_config cfg num_switches = Ok intf_configs
  end.
Proof.
  unfold parse_intf_config.
  pose proof (@for_each_intf_outcome num_switches
                (find_objects Pat.interface cfg) (0%Z, [])) as H.
  destruct (first_fault num_switches (find_objects Pat.interface cfg)) as [e |].
  - now rewrite H.
  - destruct H as [st' ->]. simpl. now eexists.
Qed.

Lemma keys_set_in {V : Type} (d : Dict.t V) (k k' : string) (v : V) :
  In k' (Dict.keys (Dict.set d k v)) <-> k' = k \/ In k' (Dict.keys d).
Proof.
  induction d as [| [k0 v0] d IH]; simpl.
  - intuition.
  - destruct (String.eqb_spec k k0) as [-> | Hne]; simpl.
    + intuition.
    + rewrite IH. intuition.
Qed.

(** The keys after the loop: those before it and the names of the retained
    interfaces. *)
Lemma for_each_intf_keys (n : Z) (l : list line) :
  forall st st',
    for_each (intf_step n) l st = Ok st' ->
    forall k,
      In k (Dict.keys (snd st'))
      <-> In k (Dict.keys (snd st))
          \/ exists b, In b l /\ is_downlink b = true /\ intf_name_of b = k.
Proof.
  induction l as [| b l IH]; intros [mc d] st'; cbn [for_each].
  - intros [= <-] k. split; [auto | intros [H | (b & [] & _)]; exact H].
  - destruct (intf_step n (mc, d) b) as [st1 |] eqn:E; cbn [Py.bind];
      [| discriminate].
    intros Hrun k. rewrite (IH st1 st' Hrun k).
    destruct (is_downlink b) eqn:Hdown.
    + destruct (@intf_step_retained n mc d b st1 Hdown E)
        as (u & p & _ & _ & _ & Hst1).
      rewrite Hst1, keys_set_in. simpl. split.
      * intros [[-> | H] | (x & Hx & Hd & Hk)]; auto.
        -- right. exists b. auto.
        -- right. exists x. auto.
      * intros [H | (x & [-> | Hx] & Hd & Hk)]; auto.
        right. exists x. auto.
    + rewrite intf_step_skips in E by assumption. injection E as <-. simpl. split.
      * intros [H | (x & Hx & Hd & Hk)]; auto. right. exists x. auto.
      * intros [H | (x & [-> | Hx] & Hd & Hk)]; auto; [congruence |].
        right. exists x. auto.
Qed.

Lemma for_each_intf_dict_ok (n : Z) (l : list line) :
  forall st st',
    for_each (intf_step n) l st = Ok st' -> dict_ok (snd st) -> dict_ok (snd st').
Proof.
  induction l as [| b l IH]; intros [mc d] st'; cbn [for_each].
  - now intros [= <-].
  - destruct (intf_step n (mc, d) b) as [st1 |] eqn:E; cbn [Py.bind];
      [| discriminate].
    intros Hrun Hd. apply (IH st1 st' Hrun).
    destruct (is_downlink b) eqn:Hdown.
    + destruct (@intf_step_retained n mc d b st1 Hdown E)
        as (u & p & _ & _ & _ & ->).
      now apply dict_ok_set.
    + rewrite intf_step_skips in E by assumption. now injection E as <-.
Qed.

(** The record of a name is kept as long as no retained interface of that
    name comes. *)
Lemma for_each_intf_keeps (n : Z) (l : list line) (k : string) (r : Intf.t) :
  (forall x, In x l -> is_downlink x = true -> intf_name_of x <> k) ->
  forall st st',
    for_each (intf_step n) l st = Ok st' ->
    Dict.get (snd st) k = Some r -> Dict.get (snd st') k = Some r.
Proof.
  induction l as [| b l IH]; intros Hl [mc d] st'; cbn [for_each].
  - now intros [= <-].
  - destruct (intf_step n (mc, d) b) as [st1 |] eqn:E; cbn [Py.bind];
      [| discriminate].
    intros Hrun Hg.
    apply (IH (fun x Hx => Hl x (or_intror Hx)) st1 st' Hrun).
    destruct (is_downlink b) eqn:Hdown.
    + destruct (@intf_step_retained n mc d b st1 Hdown E)
        as (u & p & _ & _ & _ & ->).
      rewrite get_set_neq; [assumption |]. apply Hl; [now left | assumption].
    + rewrite intf_step_skips in E by assumption. now injection E as <-.
Qed.

(** X10.  The dict [parse_intf_config] returns holds exactly the retained
    interfaces: its keys, each held once, are the names of the blocks that
    pass the downlink test (a name cleared of digits and slashes that
    starts with "Giga", and a port number found); no other interface
    (VLAN, loopback, port-channel, an interface without unit/slot/port
    numbering) gets a record. *)
Theorem parse_intf_config_keys
  (cfg : config) (num_switches : Z) (intf_configs : Dict.t Intf.t) :
  parse_intf_config cfg num_switches = Ok intf_configs ->
  NoDup (Dict.keys intf_configs)
  /\ forall k,
       In k (Dict.keys intf_configs)
       <-> exists intf_obj,
             In intf_obj (find_objects Pat.interface cfg)
             /\ is_downlink intf_obj = true
             /\ intf_name_of intf_obj = k.
Proof.
  unfold parse_intf_config.
  destruct (for_each (intf_step num_switches) (find_objects Pat.interface cfg)
              (0%Z, [])) as [st' |] eqn:E; simpl; [| discriminate].
  intros [= <-]. split.
  - apply (@for_each_intf_dict_ok num_switches _ (0%Z, []) st' E). constructor.
  - intros k. rewrite (@for_each_intf_keys num_switches _ (0%Z, []) st' E k).
    simpl. tauto.
Qed.

Lemma parse_intf_config_keys_witness :
  NoDup (Dict.keys Sample.intf_configs)
  /\ forall k,
       In k (Dict.keys Sample.intf_configs)
       <-> exists intf_obj,
             In intf_obj (find_objects Pat.interface Sample.one_switch)
             /\ is_downlink intf_obj = true
             /\ intf_name_of intf_obj = k.
Proof.
  apply (@parse_intf_config_keys Sample.one_switch 1 Sample.intf_configs).
  vm_compute. reflexivity.
Defined.

(** X11.  When the configuration holds several blocks for one interface
    name, the last one wins (the opposite of the VLAN interfaces): the
    record returned for a retained interface is built from the last
    retained block of its name alone.  Its [portId] is the port number of
    the header as read, with no offset; its [module] is the stacking unit
    when there are several target switches and is absent otherwise; the
    settings come from the children of that block. *)
Theorem parse_intf_config_last_block_wins
  (cfg : config) (num_switches : Z) (intf_configs : Dict.t Intf.t)
  (pre post : list line) (intf_obj : line) :
  parse_intf_config cfg num_switches = Ok intf_configs ->
  find_objects Pat.interface cfg = pre ++ intf_obj :: post ->
  is_downlink intf_obj = true ->
  (forall x, In x post -> is_downlink x = true ->
             intf_name_of x <> intf_name_of intf_obj) ->
  exists u p r,
    int_of_str (switch_module_of intf_obj) = Ok u
    /\ int_of_str (port_number_of intf_obj) = Ok p
    /\ Dict.get intf_configs (intf_name_of intf_obj) = Some r
    /\ r = intf_record num_switches u p intf_obj
    /\ Intf.portId r = str_of_Z p
    /\ Intf.module r = (if (1 <? num_switches)%Z then Some u else None)
    /\ Intf.enabled r = None.
Proof.
  unfold parse_intf_config. intros Hrun Hsplit Hdown Hpost.
  destruct (for_each (intf_step num_switches) (find_objects Pat.interface cfg)
              (0%Z, [])) as [st' |] eqn:E; simpl in Hrun; [| discriminate].
  assert (Hst : snd st' = intf_configs) by congruence. subst intf_configs.
  clear Hrun. rewrite Hsplit, for_each_app in E.
  destruct (for_each (intf_step num_switches) pre (0%Z, [])) as [[mc d] |];
    cbn [Py.bind for_each] in E; [| discriminate].
  destruct (intf_step num_switches (mc, d) intf_obj) as [st1 |] eqn:E1;
    cbn [Py.bind] in E; [| discriminate].
  destruct (@intf_step_retained num_switches mc d intf_obj st1 Hdown E1)
    as (u & p & Hu & Hp & _ & Hst1).
  exists u, p, (intf_record num_switches u p intf_obj).
  destruct (intf_children_keep (children intf_obj)
              (Intf.Mk (str_of_Z p)
                 (if (1 <? num_switches)%Z then Some u else None)
                 None None None None None None)) as [Hport Hmod].
  repeat split; try assumption.
  - apply (@for_each_intf_keeps num_switches post (intf_name_of intf_obj) _
             Hpost st1 st' E).
    rewrite Hst1. apply get_set_eq.
  - unfold intf_record. generalize (children intf_obj).
    intros l. set (r0 := Intf.Mk _ _ _ _ _ _ _ _).
    assert (H0 : Intf.enabled r0 = None) by reflexivity.
    clearbody r0. revert r0 H0. induction l as [| c l IH]; intros r0 H0; simpl;
      [assumption |].
    apply IH. unfold intf_child. cbv zeta.
    repeat match goal with
           | |- context [if ?b then _ else _] => destruct b
           end; simpl; assumption.
Qed.

Lemma parse_intf_config_last_block_wins_witness :
  exists u p r,
    int_of_str (switch_module_of (Sample.gigabit 1 3 [" switchport access vlan 30"]))
    = Ok u
    /\ int_of_str (port_number_of (Sample.gigabit 1 3 [" switchport access vlan 30"]))
       = Ok p
    /\ Dict.get [("GigabitEthernet1/0/3",
                  Intf.Mk "3" (Some 1%Z) None None None (Some "30") None None)]
         (intf_name_of (Sample.gigabit 1 3 [" switchport access vlan 30"]))
       = Some r
    /\ r = intf_record 2 u p (Sample.gigabit 1 3 [" switchport access vlan 30"])
    /\ Intf.portId r = str_of_Z p
    /\ Intf.module r = (if (1 <? 2)%Z then Some u else None)
    /\ Intf.enabled r = None.
Proof.
  apply (@parse_intf_config_last_block_wins Sample.repeated_port 2 _
           [Sample.gigabit 1 3 [" switchport access vlan 10"; " shutdown"]] []).
  - vm_compute. reflexivity.
  - vm_compute. reflexivity.
  - vm_compute. reflexivity.
  - intros x [].
Defined.

(** ** The names of the shut interfaces *)

Module NameFacts.
Import Re ReSem ReFacts.

(** A run of characters of one class. *)
Lemma class_star p g pos s c pos' s' c' :
  matches (Star g (Chr p)) pos s c pos' s' c' ->
  exists w, s = w ++ s' /\ pos' = (pos + length w)%nat
            /\ forallb (cls_match p) w = true /\ c' = c.
Proof.
  intros H. remember (Star g (Chr p)) as r eqn:Er.
  induction H; try discriminate.
  - exists []. repeat split. simpl. lia.
  - injection Er as -> ->.
    inversion H as [| p0 a pos0 s0 c0 Hd | | | | | | | | |]; subst.
    destruct (IHmatches2 eq_refl) as (w & -> & -> & Hw & ->).
    exists (a :: w). simpl in *. repeat split; [lia |].
    now rewrite Hd, Hw.
Qed.

Lemma class_star_build p g w :
  forall pos s' c,
    forallb (cls_match p) w = true ->
    matches (Star g (Chr p)) pos (w ++ s') c (pos + length w) s' c.
Proof.
  induction w as [| a w IH]; intros pos s' c Hw; simpl.
  - rewrite Nat.add_0_r. apply M_Star_stop.
  - simpl in Hw. apply andb_prop in Hw. destruct Hw as [Ha Hw].
    apply M_Star_more with (pos1 := S pos) (s1 := w ++ s') (c1 := c).
    + now apply M_Chr.
    + lia.
    + replace (pos + S (length w))%nat with (S pos + length w)%nat by lia.
      now apply IH.
Qed.

Lemma eol_tail pos s c pos' s' c' :
  matches Eol pos s c pos' s' c' ->
  pos' = pos /\ s' = s /\ c' = c /\ (s = [] \/ s = [newline]).
Proof. intros H. inversion H; subst; auto. Qed.

Lemma eol_build pos tail c :
  tail = [] \/ tail = [newline] -> matches Eol pos tail c pos tail c.
Proof. intros [-> | ->]; constructor. Qed.

(** White space, then a character that is none: the white space is
    determined. *)
Lemma spaces_unique (ws ws' : list ascii) (a a' : ascii) (r r' : list ascii) :
  forallb is_space ws = true -> forallb is_space ws' = true ->
  is_space a = false -> is_space a' = false ->
  ws ++ a :: r = ws' ++ a' :: r' ->
  ws = ws' /\ a = a' /\ r = r'.
Proof.
  revert ws'. induction ws as [| x ws IH]; intros [| x' ws'] Hws Hws' Ha Ha' E;
    simpl in *.
  - injection E as -> ->. auto.
  - injection E as -> _. apply andb_prop in Hws'. destruct Hws' as [Hx _].
    congruence.
  - injection E as -> _. apply andb_prop in Hws. destruct Hws as [Hx _].
    congruence.
  - injection E as -> E. apply andb_prop in Hws, Hws'.
    destruct Hws as [_ Hws], Hws' as [_ Hws'].
    destruct (IH ws' Hws Hws' Ha Ha' E) as (-> & -> & ->). auto.
Qed.

(** Characters of a line, then its end: the characters are determined. *)
Lemma line_unique (w w' tail tail' : list ascii) :
  forallb (cls_match AnyChar) w = true ->
  forallb (cls_match AnyChar) w' = true ->
  tail = [] \/ tail = [newline] -> tail' = [] \/ tail' = [newline] ->
  w ++ tail = w' ++ tail' -> w = w'.
Proof.
  revert w'. induction w as [| x w IH]; intros [| x' w'] Hw Hw' Ht Ht' E;
    simpl in *.
  - reflexivity.
  - apply andb_prop in Hw'. destruct Hw' as [Hx _].
    destruct Ht as [-> | ->]; [discriminate |].
    injection E as <- _. vm_compute in Hx. discriminate.
  - apply andb_prop in Hw. destruct Hw as [Hx _].
    destruct Ht' as [-> | ->]; [discriminate |].
    injection E as -> _. vm_compute in Hx. discriminate.
  - injection E as -> E. apply andb_prop in Hw, Hw'.
    destruct Hw as [_ Hw], Hw' as [_ Hw'].
    now rewrite (IH w' Hw Hw' Ht Ht' E).
Qed.

(** A header is taken apart in one way. *)
Lemma parts_unique (s ws name tail ws' name' tail' : list ascii) :
  header_parts s ws name tail -> header_parts s ws' name' tail' ->
  name = name'.
Proof.
  intros (Hs & _ & Hws & (a & w & -> & Ha & Hw) & Ht)
         (Hs' & _ & Hws' & (a' & w' & -> & Ha' & Hw') & Ht').
  rewrite Hs in Hs'. apply app_inv_head in Hs'.
  simpl in Hs'.
  destruct (@spaces_unique ws ws' a a' _ _ Hws Hws' Ha Ha' Hs') as (_ & -> & E).
  now rewrite (@line_unique w w' tail tail' Hw Hw' Ht Ht' E).
Qed.

Ltac take_apart :=
  repeat invert_match;
  repeat match goal with
    | H : matches (Star _ (Chr _)) _ _ _ _ _ _ |- _ =>
        apply class_star in H; destruct H as (? & ? & ? & ? & ?); subst
    | H : matches Eol _ _ _ _ _ _ |- _ =>
        apply eol_tail in H; destruct H as (? & ? & ? & ?); subst
    end.

Lemma name_group (n : nat) (a : ascii) (w tail : list ascii) :
  n = S (length w) ->
  firstn n (a :: w ++ tail) = a :: w.
Proof.
  intros ->. simpl. f_equal.
  rewrite firstn_app, firstn_all, Nat.sub_diag. simpl. apply app_nil_r.
Qed.

(** What [Pat.intf_name] matches, and what it captures. *)
Lemma intf_shape s e s' cs :
  matches Pat.intf_name 0 s [] e s' cs ->
  exists ws name tail,
    header_parts s ws name tail /\ group_of cs 1 = Some name.
Proof.
  unfold Pat.intf_name, Plus. cbn [Word].
  intros H. take_apart.
  match goal with
  | Hs : cls_match Space ?a = true, Hws : forallb (cls_match Space) ?ws = true,
    Hn : cls_match NonSpace ?b = true, Hw : forallb (cls_match AnyChar) ?w = true,
    Ht : ?t = [] \/ _ |- _ =>
      exists (a :: ws), (b :: w), t; split;
      [ unfold header_parts; split; [reflexivity |];
        split; [discriminate |];
        split; [simpl; simpl in Hs; now rewrite Hs |];
        split; [| exact Ht];
        exists b, w; split; [reflexivity |]; split;
        [ simpl in Hn; now apply negb_true_iff in Hn | exact Hw ]
      | cbn [group_of Nat.eqb]; f_equal; apply name_group; lia ]
  end.
Qed.

(** What [Pat.shut_name] matches, and what it captures. *)
Lemma shut_shape s e s' cs :
  matches Pat.shut_name 0 s [] e s' cs ->
  exists ws name tail,
    header_parts s ws name tail /\ group_of cs 1 = Some name
    /\ (2 <= length name)%nat.
Proof.
  unfold Pat.shut_name, Plus. cbn [Word].
  intros H. take_apart.
  match goal with
  | Hs : cls_match Space ?a = true, Hws : forallb (cls_match Space) ?ws = true,
    Hn : cls_match NonSpace ?b = true, Hx : cls_match AnyChar ?x = true,
    Hw : forallb (cls_match AnyChar) ?w = true,
    Ht : ?t = [] \/ _ |- _ =>
      exists (a :: ws), (b :: x :: w), t; split; [| split];
      [ unfold header_parts; split; [reflexivity |];
        split; [discriminate |];
        split; [simpl; simpl in Hs; now rewrite Hs |];
        split; [| exact Ht];
        exists b, (x :: w); split; [reflexivity |]; split;
        [ simpl in Hn; now apply negb_true_iff in Hn
        | cbn [forallb]; now rewrite Hx, Hw ]
      | cbn [group_of Nat.eqb]; f_equal;
        apply (@name_group _ b (x :: w) t); cbn [length]; lia
      | simpl; lia ]
  end.
Qed.

Ltac build_header :=
  eapply M_Seq; [apply M_Bol |];
  eapply M_Seq;
    [repeat (eapply M_Seq; [apply M_Chr; reflexivity |]); apply M_Eps |].

(** Every header that can be taken apart is matched by [Pat.intf_name]. *)
Lemma intf_build s ws name tail :
  header_parts s ws name tail ->
  exists e s' cs, matches Pat.intf_name 0 s [] e s' cs.
Proof.
  intros (-> & Hne & Hws & (a & w & -> & Ha & Hw) & Ht).
  destruct ws as [| x ws]; [contradiction |].
  simpl in Hws. apply andb_prop in Hws. destruct Hws as [Hx Hws].
  unfold Pat.intf_name, Plus. cbn [Word]. simpl.
  do 3 eexists. build_header.
  eapply M_Seq;
    [eapply M_Seq; [apply M_Chr; exact Hx | apply class_star_build; exact Hws] |].
  eapply M_Seq;
    [apply M_Group; eapply M_Seq;
     [apply M_Chr; simpl; now rewrite Ha | apply class_star_build; exact Hw]
    | apply eol_build; exact Ht].
Qed.

(** [Pat.shut_name] wants a name of two characters at least. *)
Lemma shut_build s ws name tail :
  header_parts s ws name tail -> (2 <= length name)%nat ->
  exists e s' cs, matches Pat.shut_name 0 s [] e s' cs.
Proof.
  intros (-> & Hne & Hws & (a & w & -> & Ha & Hw) & Ht) Hlen.
  destruct ws as [| x ws]; [contradiction |].
  simpl in Hws. apply andb_prop in Hws. destruct Hws as [Hx Hws].
  destruct w as [| y w]; [simpl in Hlen; lia |].
  cbn [forallb] in Hw. apply andb_prop in Hw. destruct Hw as [Hy Hw].
  unfold Pat.shut_name, Plus. cbn [Word]. simpl.
  do 3 eexists. build_header.
  eapply M_Seq;
    [eapply M_Seq; [apply M_Chr; exact Hx | apply class_star_build; exact Hws] |].
  eapply M_Seq;
    [apply M_Group; eapply M_Seq;
     [apply M_Chr; simpl; now rewrite Ha
     | eapply M_Seq; [apply M_Chr; exact Hy | apply class_star_build; exact Hw]]
    | apply eol_build; exact Ht].
Qed.

Lemma search_bol_sound r s m :
  search_from (Seq Bol r) 0 s = Some m ->
  exists s', matches (Seq Bol r) 0 s [] (m_end m) s' (m_groups m).
Proof.
  intros Es. apply search_from_sound in Es. destruct Es as (n & Hm).
  apply match_at_sound in Hm. destruct Hm as (_ & s' & Hm).
  assert (n = 0%nat) as ->.
  { inversion Hm; subst.
    match goal with
    | Hb : matches Bol _ _ _ _ _ _ |- _ => inversion Hb; subst
    end.
    lia. }
  simpl in Hm. now exists s'.
Qed.

Lemma search_complete r s e s' cs :
  matches r 0 s [] e s' cs -> exists m, search_from r 0 s = Some m.
Proof.
  intros Hm. apply match_at_complete in Hm.
  destruct (match_at r 0 s) as [m |] eqn:E; [| contradiction].
  exists m. now apply search_from_first.
Qed.

(** The name [parse_intf_config] reads in a header. *)
Lemma intf_name_parts (t : string) :
  (exists ws name tail,
      header_parts (list_ascii_of_string t) ws name tail
      /\ re_match_typed Pat.intf_name 1 t = string_of_list_ascii name)
  \/ ((forall ws name tail, ~ header_parts (list_ascii_of_string t) ws name tail)
      /\ re_match_typed Pat.intf_name 1 t = "").
Proof.
  unfold re_match_typed, Re.search.
  destruct (search_from Pat.intf_name 0 (list_ascii_of_string t)) as [m |] eqn:E.
  - left. apply search_bol_sound in E. destruct E as (s' & Hm).
    apply intf_shape in Hm. destruct Hm as (ws & name & tail & Hp & Hg).
    exists ws, name, tail. split; [assumption |].
    unfold group. now rewrite Hg.
  - right. split; [| reflexivity]. intros ws name tail Hp.
    apply intf_build in Hp. destruct Hp as (e & s' & cs & Hm).
    apply search_complete in Hm. destruct Hm as (m & Hm). congruence.
Qed.

(** The name [parse_shut_intf] reads in a header. *)
Lemma shut_name_parts (t : string) :
  (exists ws name tail,
      header_parts (list_ascii_of_string t) ws name tail
      /\ (2 <= length name)%nat
      /\ re_match_typed Pat.shut_name 1 t = string_of_list_ascii name)
  \/ ((forall ws name tail,
          header_parts (list_ascii_of_string t) ws name tail ->
          (length name < 2)%nat)
      /\ re_match_typed Pat.shut_name 1 t = "").
Proof.
  unfold re_match_typed, Re.search.
  destruct (search_from Pat.shut_name 0 (list_ascii_of_string t)) as [m |] eqn:E.
  - left. apply search_bol_sound in E. destruct E as (s' & Hm).
    apply shut_shape in Hm. destruct Hm as (ws & name & tail & Hp & Hg & Hlen).
    exists ws, name, tail. split; [assumption |]. split; [assumption |].
    unfold group. now rewrite Hg.
  - right. split; [| reflexivity]. intros ws name tail Hp.
    destruct (Nat.lt_ge_cases (length name) 2) as [Hlt | Hge]; [assumption |].
    destruct (shut_build Hp Hge) as (e & s' & cs & Hm).
    apply search_complete in Hm. destruct Hm as (m & Hm). congruence.
Qed.

End NameFacts.

(** The two patterns read the same name in a header, but for a name of
    one character, which the pattern of [parse_shut_intf] does not
    match. *)
Lemma names_agree (t : string) :
  (re_match_typed Pat.shut_name 1 t <> "" ->
   re_match_typed Pat.intf_name 1 t = re_match_typed Pat.shut_name 1 t)
  /\ ((2 <= String.length (re_match_typed Pat.intf_name 1 t))%nat ->
      re_match_typed Pat.shut_name 1 t = re_match_typed Pat.intf_name 1 t).
Proof.
  destruct (NameFacts.shut_name_parts t)
    as [(ws & name & tail & Hp & Hlen & ->) | (Hno & ->)];
    destruct (NameFacts.intf_name_parts t)
      as [(ws' & name' & tail' & Hp' & ->) | (Hno' & ->)].
  - rewrite (NameFacts.parts_unique Hp Hp'). split; reflexivity.
  - exfalso. exact (Hno' _ _ _ Hp).
  - split; [congruence |]. rewrite string_of_list_length.
    intros Hlen. specialize (Hno _ _ _ Hp'). lia.
  - split; [congruence | simpl; lia].
Qed.

Lemma shut_list_spec (cfg : config) (k : string) :
  In k (parse_shut_intf cfg)
  <-> exists b, In b (find_objects Pat.interface cfg)
                /\ is_shut b = true
                /\ re_match_typed Pat.shut_name 1 (text b) = k.
Proof.
  unfold parse_shut_intf, find_objects_w_child. rewrite in_map_iff. split.
  - intros (b & E & Hin). apply filter_In in Hin. destruct Hin as [Hin Hs].
    exists b. auto.
  - intros (b & Hin & Hs & E). exists b. split; [assumption |].
    apply filter_In. auto.
Qed.

Lemma shut_list_named (cfg : config) (k : string) :
  (2 <= String.length k)%nat ->
  In k (parse_shut_intf cfg) <-> shut_in_config cfg k = true.
Proof.
  intros Hlen. rewrite shut_list_spec. unfold shut_in_config.
  rewrite existsb_exists. split.
  - intros (b & Hin & Hs & E). exists b. split; [assumption |].
    rewrite Hs. simpl. apply String.eqb_eq. unfold intf_name_of.
    destruct (names_agree (text b)) as [H1 _]. rewrite H1; [assumption |].
    rewrite E. intros ->. simpl in Hlen. lia.
  - intros (b & Hin & Hb). apply andb_prop in Hb. destruct Hb as [Hs E].
    apply String.eqb_eq in E. exists b. repeat split; try assumption.
    unfold intf_name_of in E.
    destruct (names_agree (text b)) as [_ H2]. rewrite H2; [assumption |].
    now rewrite E.
Qed.

(** X12.  A name of two characters or more is in the list
    [parse_shut_intf] returns exactly when some interface block of the
    configuration has that name, as [parse_intf_config] reads it, and a
    [shutdown] line among its children: although the two functions read
    the name with different patterns, the entries of the shut list are
    keys [parse_intf_config] would use. *)
Theorem shut_list_names (cfg : config) (intf_name : string) :
  (2 <= String.length intf_name)%nat ->
  In intf_name (parse_shut_intf cfg)
  <-> exists intf_obj,
        In intf_obj (find_objects Pat.interface cfg)
        /\ intf_name_of intf_obj = intf_name
        /\ existsb (re_search Pat.shutdown) (children intf_obj) = true.
Proof.
  intros Hlen. rewrite (@shut_list_named cfg intf_name Hlen). unfold shut_in_config.
  rewrite existsb_exists. split.
  - intros (b & Hin & Hb). apply andb_prop in Hb. destruct Hb as [Hs E].
    apply String.eqb_eq in E. exists b. auto.
  - intros (b & Hin & E & Hs). exists b. split; [assumption |].
    unfold is_shut. rewrite Hs. simpl. now apply String.eqb_eq.
Qed.

Lemma shut_list_names_witness :
  In "GigabitEthernet1/0/2" (parse_shut_intf Sample.one_switch)
  <-> exists intf_obj,
        In intf_obj (find_objects Pat.interface Sample.one_switch)
        /\ intf_name_of intf_obj = "GigabitEthernet1/0/2"
        /\ existsb (re_search Pat.shutdown) (children intf_obj) = true.
Proof.
  apply (@shut_list_names Sample.one_switch "GigabitEthernet1/0/2").
  simpl. lia.
Defined.

(** ** From the [shutdown] lines to the [enabled] flags *)

Lemma sub_empty_from_length (r : Re.regex) (fuel : nat) :
  forall pos s, (length (Re.sub_empty_from fuel r pos s) <= length s)%nat.
Proof.
  induction fuel as [| fuel IH]; intros pos s; cbn [Re.sub_empty_from].
  - lia.
  - destruct s as [| a s]; [simpl; lia |].
    destruct (Re.match_at r pos (a :: s)) as [m |];
      [destruct (pos <? Re.m_end m)%nat |].
    + etransitivity; [apply IH |]. rewrite length_skipn. lia.
    + specialize (IH (S pos) s). simpl. lia.
    + specialize (IH (S pos) s). simpl. lia.
Qed.

Lemma list_of_string_length (t : string) :
  length (list_ascii_of_string t) = String.length t.
Proof. induction t as [| a t IH]; simpl; [reflexivity | now rewrite IH]. Qed.

Lemma sub_empty_length (r : Re.regex) (t : string) :
  (String.length (Re.sub_empty r t) <= String.length t)%nat.
Proof.
  unfold Re.sub_empty. rewrite string_of_list_length.
  etransitivity; [apply sub_empty_from_length |].
  now rewrite list_of_string_length.
Qed.

Lemma prefix_length (p : string) :
  forall s, String.prefix p s = true -> (String.length p <= String.length s)%nat.
Proof.
  induction p as [| a p IH]; intros [| b s]; simpl; try lia; try discriminate.
  destruct (ascii_dec a b); [| discriminate].
  intros H. apply IH in H. lia.
Qed.

(** The name of a retained interface has four characters at least. *)
Lemma retained_name_length (intf_obj : line) :
  is_downlink intf_obj = true ->
  (4 <= String.length (intf_name_of intf_obj))%nat.
Proof.
  unfold is_downlink, startswith. intros H. apply andb_prop in H.
  destruct H as [H _]. apply prefix_length in H. simpl in H.
  unfold only_intf_name_of in H.
  pose proof (sub_empty_length Pat.digits_or_slash (intf_name_of intf_obj)). lia.
Qed.

Lemma in_keys {V : Type} (d : Dict.t V) (k : string) (v : V) :
  In (k, v) d -> In k (Dict.keys d).
Proof. intros H. unfold Dict.keys. apply in_map_iff. now exists (k, v). Qed.

(** For a key of [parse_intf_config], the test of the port loop on the
    shut list is the test for a [shutdown] line in a block of that
    name. *)
Lemma shut_test_of_a_key (cfg : config) (num_switches : Z)
  (intf_configs : Dict.t Intf.t) (k : string) :
  parse_intf_config cfg num_switches = Ok intf_configs ->
  In k (Dict.keys intf_configs) ->
  in_list k (parse_shut_intf cfg) = shut_in_config cfg k.
Proof.
  unfold parse_intf_config.
  destruct (for_each (intf_step num_switches) (find_objects Pat.interface cfg)
              (0%Z, [])) as [st' |] eqn:E; simpl; [| discriminate].
  intros [= <-] Hk.
  apply (@for_each_intf_keys num_switches _ (0%Z, []) st' E k) in Hk.
  destruct Hk as [[] | (b & _ & Hb & <-)].
  apply retained_name_length in Hb.
  assert (Hlen : (2 <= String.length (intf_name_of b))%nat) by lia.
  destruct (@shut_list_named cfg (intf_name_of b) Hlen) as [H1 H2].
  destruct (in_list (intf_name_of b) (parse_shut_intf cfg)) eqn:Ein.
  - apply in_list_In in Ein. symmetry. now apply H1.
  - destruct (shut_in_config cfg (intf_name_of b)); [| reflexivity].
    specialize (H2 eq_refl). apply in_list_In in H2. congruence.
Qed.

(** X13.  From the configuration to the dashboard: every update-port call
    of a run of [main] is the call of a record [parse_intf_config] made,
    sent to the switch of that record, and its [enabled] flag is [False]
    exactly when some interface block with the name of the record has a
    [shutdown] line among its children, and [True] otherwise.  With two
    blocks of one name, a [shutdown] line in either disables the port,
    whichever block gave the other settings. *)
Theorem shutdown_lines_disable_ports
  (dash : dashboard) (cfg : config) (default_gateway : string)
  (serials : list string) (c : api_call) :
  In c (fst (main dash cfg default_gateway serials)) ->
  is_update c = true ->
  exists intf_configs intf_name r serial kwargs,
    parse_intf_config cfg (Z.of_nat (length serials)) = Ok intf_configs
    /\ In (intf_name, r) intf_configs
    /\ c = updateDeviceSwitchPort serial kwargs
    /\ index serials (port_target r) = Ok serial
    /\ Intf.portId kwargs = Intf.portId r
    /\ Intf.enabled kwargs = Some (negb (shut_in_config cfg intf_name)).
Proof.
  unfold main, bindM, lift.
  destruct (parse_svi_data cfg) as [svi_data | e] eqn:Esvi; [| intros []].
  destruct (parse_intf_config cfg (Z.of_nat (length serials)))
    as [intf_configs | e] eqn:Eintf; [| intros []].
  assert (Hsvi : dict_ok svi_data).
  { unfold parse_svi_data in Esvi.
    apply (@for_each_svi_ok (find_objects Pat.interface_vlan cfg) [] svi_data);
      [| assumption].
    split; [constructor | intros k r []]. }
  assert (Hintf : dict_ok intf_configs).
  { unfold parse_intf_config in Eintf.
    destruct (for_each (intf_step (Z.of_nat (length serials)))
                (find_objects Pat.interface cfg) (0%Z, [])) as [st' |] eqn:E;
      simpl in Eintf; [| discriminate].
    injection Eintf as <-.
    apply (@for_each_intf_dict_ok _ _ (0%Z, []) st' E). constructor. }
  destruct (@configure_meraki_updates dash default_gateway serials svi_data
              (parse_shut_intf cfg) intf_configs Hsvi Hintf)
    as (done & Hup & Hidx & _).
  destruct (configure_meraki dash default_gateway serials svi_data
              (parse_shut_intf cfg) intf_configs) as [t res].
  simpl in Hup |- *. intros Hin Hc.
  assert (Hf : In c (filter is_update t)) by (apply filter_In; auto).
  rewrite Hup in Hf. apply in_map_iff in Hf. destruct Hf as ([k r] & <- & Hkr).
  rewrite Forall_forall in Hidx. destruct (Hidx _ Hkr) as (serial & Hs).
  simpl in Hs |- *. rewrite Hs.
  assert (Hkr' : In (k, r) intf_configs).
  { rewrite <- (firstn_skipn done intf_configs). apply in_or_app. now left. }
  exists intf_configs, k, r, serial, (port_kwargs (parse_shut_intf cfg) k r).
  repeat split; try assumption.
  - apply port_kwargs_portId.
  - rewrite port_kwargs_enabled.
    now rewrite (@shut_test_of_a_key cfg _ intf_configs k Eintf (in_keys _ _ _ Hkr')).
Qed.

Lemma shutdown_lines_disable_ports_witness :
  exists intf_configs intf_name r serial kwargs,
    parse_intf_config Sample.repeated_port
      (Z.of_nat (length Sample.two_serials)) = Ok intf_configs
    /\ In (intf_name, r) intf_configs
    /\ updateDeviceSwitchPort "Q2XX-0001"
         (Intf.Mk "3" None None None None (Some "30") None (Some false))
       = updateDeviceSwitchPort serial kwargs
    /\ index Sample.two_serials (port_target r) = Ok serial
    /\ Intf.portId kwargs = Intf.portId r
    /\ Intf.enabled kwargs
       = Some (negb (shut_in_config Sample.repeated_port intf_name)).
Proof.
  apply (@shutdown_lines_disable_ports Sample.empty_dashboard
           Sample.repeated_port "10.0.2.1" Sample.two_serials).
  - vm_compute. right. right. left. reflexivity.
  - reflexivity.
Defined.

(** * The unit, the port and the enabled flag *)

(** ** The numbers of a header in unit/slot/port numbering *)

Module HeaderFacts.
Import Re.

Lemma run_word (w : string) :
  forall pos s c k,
    run (Word w) pos (list_ascii_of_string w ++ s) c k
    = k (pos + String.length w)%nat s c.
Proof.
  induction w as [| a w IH]; intros pos s c k;
    cbn [Word list_ascii_of_string app run cls_match String.length].
  - now rewrite Nat.add_0_r.
  - change ((a :: list_ascii_of_string w) ++ s)
      with (a :: (list_ascii_of_string w ++ s)).
    cbv iota. rewrite Ascii.eqb_refl, IH. now rewrite Nat.add_succ_r.
Qed.

(** A lazy repetition goes on where what follows does not match. *)
Lemma lazy_skip
  (step : nat -> list ascii -> captures -> cont -> option (nat * captures))
  (k : cont) (fuel pos pos' : nat) (s s' : list ascii) (c : captures) :
  k pos s c = None ->
  (forall k', step pos s c k' = k' pos' s' c) ->
  (pos <? pos')%nat = true ->
  star_loop false step k (S fuel) pos s c = star_loop false step k fuel pos' s' c.
Proof.
  intros Hk Hstep Hlt. cbn [star_loop]. rewrite Hk, Hstep, Hlt. reflexivity.
Qed.

(** It stops where what follows matches. *)
Lemma lazy_stop
  (step : nat -> list ascii -> captures -> cont -> option (nat * captures))
  (k : cont) (fuel pos : nat) (s : list ascii) (c : captures) x :
  k pos s c = Some x -> star_loop false step k fuel pos s c = Some x.
Proof. intros Hk. destruct fuel; cbn [star_loop]; now rewrite Hk. Qed.

Lemma run_chr (p : cls) pos a s c k :
  run (Chr p) pos (a :: s) c k = if cls_match p a then k (S pos) s c else None.
Proof. reflexivity. Qed.

Lemma run_chr_nil (p : cls) pos c k : run (Chr p) pos [] c k = None.
Proof. reflexivity. Qed.

(** A greedy repetition of a class takes a run of that class to the end
    of the text. *)
Lemma greedy_to_the_end (p : cls) (k : cont) (w : list ascii) :
  forall fuel pos c x,
    forallb (cls_match p) w = true ->
    (length w <= fuel)%nat ->
    k (pos + length w)%nat [] c = Some x ->
    star_loop true (run (Chr p)) k fuel pos w c = Some x.
Proof.
  induction w as [| a w IH]; intros fuel pos c x Hw Hfuel Hk.
  - simpl in Hk. rewrite Nat.add_0_r in Hk.
    destruct fuel; cbn [star_loop]; rewrite ?run_chr_nil; now rewrite Hk.
  - simpl in Hw. apply andb_prop in Hw. destruct Hw as [Ha Hw].
    destruct fuel as [| fuel]; [simpl in Hfuel; lia |].
    cbn [star_loop]. rewrite run_chr, Ha.
    assert (Hlt : (pos <? S pos)%nat = true) by (apply Nat.ltb_lt; lia).
    rewrite Hlt. rewrite (IH fuel (S pos) c x); [reflexivity | assumption | |].
    + simpl in Hfuel. lia.
    + simpl in Hk. now rewrite Nat.add_succ_r in Hk.
Qed.

Lemma run_seq r1 r2 pos s c k :
  run (Seq r1 r2) pos s c k
  = run r1 pos s c (fun pos' s' c' => run r2 pos' s' c' k).
Proof. reflexivity. Qed.

Lemma run_bol s c k : run Bol 0 s c k = k 0%nat s c.
Proof. reflexivity. Qed.

Lemma run_chr_ok (p : cls) pos a s c k :
  cls_match p a = true -> run (Chr p) pos (a :: s) c k = k (S pos) s c.
Proof. intros H. now rewrite run_chr, H. Qed.

Lemma run_star g r pos s c k :
  run (Star g r) pos s c k = star_loop g (run r) k (length s) pos s c.
Proof. reflexivity. Qed.

Lemma run_group n r pos s c k :
  run (Group n r) pos s c k
  = run r pos s c (fun pos' s' c' => k pos' s' ((n, firstn (pos' - pos) s) :: c')).
Proof. reflexivity. Qed.

Ltac run_step :=
  first [ rewrite run_seq | rewrite run_bol | rewrite run_word
        | rewrite run_group
        | rewrite run_chr_ok by (first [reflexivity | assumption]) ];
  cbv beta.

(** What follows the name of the interface kind in the pattern of the
    port number, on the numbers of a header. *)
Lemma port_numbers_tail (cu cs c0 : ascii) (dp : list ascii) pos :
  is_digit cu = true -> is_digit cs = true ->
  is_digit c0 = true -> forallb is_digit dp = true ->
  run (Seq (Word "thernet")
         (Seq (Chr Digit)
            (Seq (Chr AnyChar)
               (Seq (Chr Digit)
                  (Seq (Chr AnyChar) (Group 1 (Plus true (Chr Digit))))))))
    pos
    (list_ascii_of_string "thernet"
     ++ cu :: "/"%char :: cs :: "/"%char :: c0 :: dp) [] (fun e _ c => Some (e, c))
  = Some ((pos + 12 + length dp)%nat, [(1%nat, c0 :: dp)]).
Proof.
  intros Hu Hs H0 Hp. unfold Plus.
  repeat run_step. rewrite run_star.
  apply greedy_to_the_end; [exact Hp | lia |].
  cbv beta. change (String.length "thernet") with 7%nat.
  f_equal. f_equal; [lia |].
  f_equal. f_equal. apply firstn_all2. cbn [length]. lia.
Qed.

(** A greedy repetition of a class stops at a character outside it. *)
Lemma greedy_stop (p : cls) (k : cont) fuel pos a s c :
  cls_match p a = false ->
  star_loop true (run (Chr p)) k fuel pos (a :: s) c = k pos (a :: s) c.
Proof.
  intros H. destruct fuel; cbn [star_loop]; rewrite ?run_chr, ?H; reflexivity.
Qed.

Lemma digit_not_t (a : ascii) : is_digit a = true -> Ascii.eqb "t" a = false.
Proof.
  destruct a as [[|] [|] [|] [|] [|] [|] [|] [|]]; intros H; vm_compute in H;
    try discriminate; reflexivity.
Qed.

(** The same for the pattern of the stacking unit. *)
Lemma switch_module_tail (cu : ascii) (rest : list ascii) pos :
  is_digit cu = true ->
  run (Seq (Word "therne") (Seq (Plus true (Chr (Lit "t"))) (Group 1 (Chr Digit))))
    pos (list_ascii_of_string "thernet" ++ cu :: rest) []
    (fun e _ c => Some (e, c))
  = Some ((pos + 8)%nat, [(1%nat, [cu])]).
Proof.
  intros Hu. unfold Plus.
  change (list_ascii_of_string "thernet" ++ cu :: rest)
    with (list_ascii_of_string "therne" ++ "t"%char :: cu :: rest).
  repeat run_step. rewrite run_star.
  rewrite greedy_stop by (apply digit_not_t; exact Hu).
  repeat run_step. change (String.length "therne") with 6%nat.
  f_equal. f_equal; [lia |]. f_equal. f_equal.
  replace (S (S (pos + 6)) - S (pos + 6))%nat with 1%nat by lia. reflexivity.
Qed.

Lemma lazy_skip_chr (p : cls) (k : cont) fuel pos a s c :
  k pos (a :: s) c = None -> cls_match p a = true ->
  star_loop false (run (Chr p)) k (S fuel) pos (a :: s) c
  = star_loop false (run (Chr p)) k fuel (S pos) s c.
Proof.
  intros Hk Ha. apply lazy_skip; [assumption | | apply Nat.ltb_lt; lia].
  intros k'. now apply run_chr_ok.
Qed.

(** The lazy run of characters before [thernet] in the two patterns, on a
    header of a [GigabitEthernet] port: what follows in the pattern is
    first matched after [GigabitE]. *)
Lemma kind_skipped (r : regex) (tail : list ascii) (x : nat * captures) :
  run r 18 (list_ascii_of_string "thernet" ++ tail) [] (fun e _ c => Some (e, c))
  = Some x ->
  (forall a s pos, a <> "t"%char ->
     run r pos (a :: s) [] (fun e _ c => Some (e, c)) = None) ->
  (forall a s pos, a <> "h"%char ->
     run r pos ("t"%char :: a :: s) [] (fun e _ c => Some (e, c)) = None) ->
  match_at
    (Seq Bol
       (Seq (Word "interface")
          (Seq (Chr Space) (Seq (Plus false (Chr NonSpace)) r))))
    0 (list_ascii_of_string "interface GigabitE"
       ++ list_ascii_of_string "thernet" ++ tail)
  = Some (MkMatch 0 (fst x) (snd x)).
Proof.
  intros Hstop Hother Hth. unfold match_at, Plus.
  change (list_ascii_of_string "interface GigabitE"
          ++ list_ascii_of_string "thernet" ++ tail)
    with (list_ascii_of_string "interface"
          ++ " "%char :: "G"%char :: "i"%char :: "g"%char :: "a"%char
             :: "b"%char :: "i"%char :: "t"%char :: "E"%char
             :: list_ascii_of_string "thernet" ++ tail).
  repeat run_step. rewrite run_star.
  change (S (S (0 + String.length "interface"))) with 11%nat.
  cbn [length].
  repeat (rewrite lazy_skip_chr;
          [ | cbv beta; first [apply Hother; discriminate | apply Hth; discriminate]
            | reflexivity ]).
  erewrite lazy_stop by (cbv beta; exact Hstop).
  now destruct x.
Qed.

Lemma port_number_on_header (cu cs c0 : ascii) (dp : list ascii) :
  is_digit cu = true -> is_digit cs = true ->
  is_digit c0 = true -> forallb is_digit dp = true ->
  match_at Pat.port_number 0
    (list_ascii_of_string "interface GigabitEthernet"
     ++ cu :: "/"%char :: cs :: "/"%char :: c0 :: dp)
  = Some (MkMatch 0 (30 + length dp) [(1%nat, c0 :: dp)]).
Proof.
  intros Hu Hs H0 Hp.
  apply (@kind_skipped _ (cu :: "/"%char :: cs :: "/"%char :: c0 :: dp)
           ((30 + length dp)%nat, [(1%nat, c0 :: dp)])).
  - now rewrite port_numbers_tail.
  - intros a s pos Ha. rewrite run_seq. cbn [Word]. rewrite run_seq, run_chr.
    cbn [cls_match]. apply Ascii.eqb_neq in Ha. rewrite Ascii.eqb_sym in Ha.
    now rewrite Ha.
  - intros a s pos Ha. rewrite run_seq. cbn [Word].
    rewrite run_seq, run_chr_ok by reflexivity. cbv beta.
    rewrite run_seq, run_chr.
    cbn [cls_match]. apply Ascii.eqb_neq in Ha. rewrite Ascii.eqb_sym in Ha.
    now rewrite Ha.
Qed.

Lemma switch_module_on_header (cu : ascii) (rest : list ascii) :
  is_digit cu = true ->
  match_at Pat.switch_module 0
    (list_ascii_of_string "interface GigabitEthernet" ++ cu :: rest)
  = Some (MkMatch 0 26 [(1%nat, [cu])]).
Proof.
  intros Hu.
  apply (@kind_skipped _ (cu :: rest) (26%nat, [(1%nat, [cu])])).
  - now rewrite switch_module_tail.
  - intros a s pos Ha. rewrite run_seq. cbn [Word]. rewrite run_seq, run_chr.
    cbn [cls_match]. apply Ascii.eqb_neq in Ha. rewrite Ascii.eqb_sym in Ha.
    now rewrite Ha.
  - intros a s pos Ha. rewrite run_seq. cbn [Word].
    rewrite run_seq, run_chr_ok by reflexivity. cbv beta.
    rewrite run_seq, run_chr.
    cbn [cls_match]. apply Ascii.eqb_neq in Ha. rewrite Ascii.eqb_sym in Ha.
    now rewrite Ha.
Qed.

End HeaderFacts.

(** ** The text of a number *)

Lemma uint_digits (d : Decimal.uint) :
  all_digits (NilEmpty.string_of_uint d) = true.
Proof. induction d; simpl; auto. Qed.

(** [str] of a natural number is a non-empty run of digits. *)
Lemma str_of_Z_digits (z : Z) :
  (0 <= z)%Z ->
  exists c rest,
    str_of_Z z = String c rest /\ is_digit c = true /\ all_digits rest = true.
Proof.
  intros Hz. unfold str_of_Z. destruct z as [| q | q]; [| | lia].
  - exists "0"%char, "". auto.
  - cbn [Z.to_int NilZero.string_of_int]. unfold NilZero.string_of_uint.
    pose proof (Unsigned.to_uint_nonnil q) as Hnn.
    pose proof (uint_digits (Pos.to_uint q)) as Hd.
    destruct (Pos.to_uint q) eqn:E; try contradiction;
      cbn [NilEmpty.string_of_uint all_digits] in Hd |- *;
      apply andb_prop in Hd; destruct Hd as [Hc Hr];
      eexists _, _; (split; [reflexivity | split; assumption]).
Qed.

(** [int] reads the text of a natural number back, unless it is too
    long. *)
Lemma int_of_str_of_Z (z : Z) :
  (0 <= z)%Z ->
  int_of_str (str_of_Z z)
  = if (max_str_digits <? Z.of_nat (String.length (str_of_Z z)))%Z
    then Raised ValueError else Ok z.
Proof.
  intros Hz. destruct z as [| q | q]; [reflexivity | | lia].
  destruct (@str_of_Z_digits (Z.pos q) Hz) as (c & rest & E & Hc & Hr).
  assert (Hu : NilEmpty.uint_of_string (str_of_Z (Z.pos q)) = Some (Pos.to_uint q)).
  { unfold str_of_Z. cbn [Z.to_int NilZero.string_of_int].
    unfold NilZero.string_of_uint.
    pose proof (Unsigned.to_uint_nonnil q) as Hnn.
    destruct (Pos.to_uint q) eqn:Eq; try contradiction;
      rewrite <- Eq; apply NilEmpty.usu. }
  assert (Hall : all_digits (str_of_Z (Z.pos q)) = true)
    by (rewrite E; simpl; now rewrite Hc, Hr).
  unfold int_of_str. rewrite Hall, Hu. rewrite E at 1.
  destruct (max_str_digits <? Z.of_nat (String.length (str_of_Z (Z.pos q))))%Z;
    [reflexivity |].
  f_equal. unfold Z.of_uint. now rewrite Unsigned.of_to.
Qed.

Lemma digit_text (z : Z) :
  (0 <= z <= 9)%Z -> exists c, str_of_Z z = String c "" /\ is_digit c = true.
Proof.
  intros Hz.
  assert (H : (z = 0 \/ z = 1 \/ z = 2 \/ z = 3 \/ z = 4 \/ z = 5 \/ z = 6
               \/ z = 7 \/ z = 8 \/ z = 9)%Z) by lia.
  repeat (destruct H as [-> | H]); try subst z; eexists; split; reflexivity.
Qed.

Lemma list_of_string_app (a b : string) :
  list_ascii_of_string (a ++ b) = list_ascii_of_string a ++ list_ascii_of_string b.
Proof. induction a as [| c a IH]; simpl; [reflexivity | now rewrite IH]. Qed.

Lemma all_digits_list (s : string) :
  all_digits s = true -> forallb is_digit (list_ascii_of_string s) = true.
Proof.
  induction s as [| c s IH]; simpl; [reflexivity |].
  intros H. apply andb_prop in H. destruct H as [-> H]. now apply IH.
Qed.

(** What the two patterns read in a header in unit/slot/port numbering:
    the unit and the port, as written. *)
Lemma header_captures (intf_obj : line) (u s p : Z) :
  (0 <= u <= 9)%Z -> (0 <= s <= 9)%Z -> (0 <= p)%Z ->
  text intf_obj = stack_header u s p ->
  switch_module_of intf_obj = str_of_Z u
  /\ port_number_of intf_obj = str_of_Z p.
Proof.
  intros Hu Hs Hp Htext.
  destruct (digit_text Hu) as (cu & Eu & Hcu).
  destruct (digit_text Hs) as (cs & Es & Hcs).
  destruct (str_of_Z_digits Hp) as (c0 & rest & Ep & Hc0 & Hrest).
  assert (Hl : list_ascii_of_string (text intf_obj)
               = list_ascii_of_string "interface GigabitEthernet"
                 ++ cu :: "/"%char :: cs :: "/"%char :: c0
                    :: list_ascii_of_string rest).
  { rewrite Htext. unfold stack_header. rewrite Eu, Es, Ep.
    now rewrite list_of_string_app. }
  unfold switch_module_of, port_number_of, re_match_typed, Re.search.
  rewrite Hl. split.
  - rewrite (@ReFacts.search_from_first _ _ _ _
               (@HeaderFacts.switch_module_on_header cu _ Hcu)).
    now rewrite Eu.
  - rewrite (@ReFacts.search_from_first _ _ _ _
               (@HeaderFacts.port_number_on_header cu cs c0 _ Hcu Hcs Hc0
                  (all_digits_list _ Hrest))).
    rewrite Ep. unfold Re.group. cbn [Re.m_groups Re.group_of Nat.eqb option_map].
    cbn [string_of_list_ascii]. now rewrite string_of_list_ascii_of_string.
Qed.

(** ** C4: the module and the port, for every retained interface *)

(** C4.  With several target switches, when [parse_intf_config] returns,
    every retained downlink interface (the last block of its name) has a
    stacking unit [u] and a raw port [p] in its header and is recorded
    under its name with [module] = [u] and [portId] = the text of [p], the
    port number as read.  For a header in unit/slot/port numbering,
    "interface GigabitEthernet<unit>/<slot>/<port>", [u] is that unit and
    [p] that port.  When [u] is between 1 and the number of serials, the
    port loop sends the record to the serial at position [u - 1] (from 0)
    of the serial list, with the same [portId] and without the [module]
    key. *)
Theorem C4_multi_switch_module_selects_serial
  (cfg : config) (num_switches : Z) (intf_configs : Dict.t Intf.t)
  (pre post : list line) (intf_obj : line)
  (serials shut_interfaces : list string) :
  (1 < num_switches)%Z ->
  parse_intf_config cfg num_switches = Ok intf_configs ->
  find_objects Pat.interface cfg = pre ++ intf_obj :: post ->
  is_downlink intf_obj = true ->
  (forall x, In x post -> is_downlink x = true ->
             intf_name_of x <> intf_name_of intf_obj) ->
  exists u p r,
    int_of_str (switch_module_of intf_obj) = Ok u
    /\ int_of_str (port_number_of intf_obj) = Ok p
    /\ (forall unit_no slot port,
          (0 <= unit_no <= 9)%Z -> (0 <= slot <= 9)%Z -> (0 <= port)%Z ->
          text intf_obj = stack_header unit_no slot port ->
          u = unit_no /\ p = port)
    /\ Dict.get intf_configs (intf_name_of intf_obj) = Some r
    /\ Intf.module r = Some u
    /\ Intf.portId r = str_of_Z p
    /\ ((1 <= u <= Z.of_nat (length serials))%Z ->
        exists serial kwargs,
          nth_error serials (Z.to_nat (u - 1)) = Some serial
          /\ port_step serials shut_interfaces (intf_name_of intf_obj) r
             = ([updateDeviceSwitchPort serial kwargs], Ok kwargs)
          /\ Intf.portId kwargs = str_of_Z p
          /\ Intf.module kwargs = None).
Proof.
  unfold parse_intf_config. intros Hn Hrun Hsplit Hdown Hpost.
  destruct (for_each (intf_step num_switches) (find_objects Pat.interface cfg)
              (0%Z, [])) as [st' |] eqn:E; simpl in Hrun; [| discriminate].
  assert (Hst : snd st' = intf_configs) by congruence. subst intf_configs.
  clear Hrun. rewrite Hsplit, for_each_app in E.
  destruct (for_each (intf_step num_switches) pre (0%Z, [])) as [[mc d] |];
    cbn [Py.bind for_each] in E; [| discriminate].
  destruct (intf_step num_switches (mc, d) intf_obj) as [st1 |] eqn:E1;
    cbn [Py.bind] in E; [| discriminate].
  destruct (@intf_step_retained num_switches mc d intf_obj st1 Hdown E1)
    as (u & p & Hu & Hp & _ & Hst1).
  set (r := intf_record num_switches u p intf_obj).
  assert (Hkeep : Intf.portId r = str_of_Z p /\ Intf.module r = Some u).
  { unfold r, intf_record.
    destruct (intf_children_keep (children intf_obj)
                (Intf.Mk (str_of_Z p)
                   (if (1 <? num_switches)%Z then Some u else None)
                   None None None None None None)) as [-> ->].
    apply Z.ltb_lt in Hn. rewrite Hn. auto. }
  destruct Hkeep as [Hport Hmod].
  exists u, p, r. repeat split; try assumption.
  - destruct (@header_captures intf_obj unit_no slot port) as [Es _];
      try assumption.
    rewrite Es, int_of_str_of_Z in Hu by lia.
    destruct (max_str_digits <? _)%Z; congruence.
  - destruct (@header_captures intf_obj unit_no slot port) as [_ Ep];
      try assumption.
    rewrite Ep, int_of_str_of_Z in Hp by lia.
    destruct (max_str_digits <? _)%Z; congruence.
  - apply (@for_each_intf_keeps num_switches post (intf_name_of intf_obj) _
             Hpost st1 st' E).
    rewrite Hst1. apply get_set_eq.
  - intros Hrange.
    destruct (@port_step_in_range serials shut_interfaces
                (intf_name_of intf_obj) r u Hmod Hrange) as (serial & Hnth & Hstep).
    exists serial, (port_kwargs shut_interfaces (intf_name_of intf_obj) r).
    repeat split; try assumption.
    + now rewrite port_kwargs_portId.
    + apply port_kwargs_module.
Qed.

Lemma C4_multi_switch_module_selects_serial_witness :
  exists r,
    Dict.get
      [ ("GigabitEthernet1/0/1",
         Intf.Mk "1" (Some 1%Z) None (Some "access") None None None None);
        ("GigabitEthernet2/0/7",
         Intf.Mk "7" (Some 2%Z) None None None (Some "20") None None) ]
      "GigabitEthernet2/0/7" = Some r
    /\ Intf.module r = Some 2%Z
    /\ Intf.portId r = "7"
    /\ exists kwargs,
         port_step Sample.two_serials [] "GigabitEthernet2/0/7" r
         = ([updateDeviceSwitchPort "Q2XX-0002" kwargs], Ok kwargs)
         /\ Intf.portId kwargs = "7"
         /\ Intf.module kwargs = None.
Proof.
  destruct (@C4_multi_switch_module_selects_serial Sample.two_units 2
              [ ("GigabitEthernet1/0/1",
                 Intf.Mk "1" (Some 1%Z) None (Some "access") None None None None);
                ("GigabitEthernet2/0/7",
                 Intf.Mk "7" (Some 2%Z) None None None (Some "20") None None) ]
              [Sample.vlan10; Sample.vlan20;
               Sample.gigabit 1 1 [" switchport mode access"]]
              []
              (Sample.gigabit 2 7 [" switchport access vlan 20"])
              Sample.two_serials [])
    as (u & p & r & _ & _ & Hpin & Hget & Hmod & Hport & Hroute).
  - lia.
  - vm_compute. reflexivity.
  - vm_compute. reflexivity.
  - vm_compute. reflexivity.
  - intros x [].
  - destruct (Hpin 2%Z 0%Z 7%Z) as [-> ->]; [lia | lia | lia | reflexivity |].
    destruct Hroute as (serial & kwargs & Hnth & Hstep & Hkp & Hkm);
      [simpl; lia |].
    assert (En : intf_name_of (Sample.gigabit 2 7 [" switchport access vlan 20"])
                 = "GigabitEthernet2/0/7") by (vm_compute; reflexivity).
    rewrite En in Hget, Hstep.
    assert (Es : serial = "Q2XX-0002") by (simpl in Hnth; congruence).
    subst serial.
    exists r. repeat split; try assumption. exists kwargs. auto.
Defined.

(** ** C8: the enabled flag *)

(** Once the gateway loop has gone through, the run goes on with the
    creations of the bulk step and the port loop, and ends as the port
    loop does. *)
Lemma after_gateway_trace
  (dash : dashboard) (default_gateway : string) (serials : list string)
  (svi_data : Dict.t Svi.t) (shut_interfaces : list string)
  (intf_configs : Dict.t Intf.t) (t1 : list api_call)
  (svi_data' : Dict.t Svi.t) (default_svi : string) :
  svi_data_ok svi_data ->
  gateway_phase dash default_gateway serials svi_data ""
  = (t1, Ok (Next (svi_data', default_svi))) ->
  no_update t1
  /\ exists rest,
       configure_meraki dash default_gateway serials svi_data shut_interfaces
         intf_configs
       = (t1 ++ bulk_creations serials rest
          ++ fst (bulk_ports serials shut_interfaces intf_configs
                    (Dict.keys intf_configs)),
          match snd (bulk_ports serials shut_interfaces intf_configs
                       (Dict.keys intf_configs)) with
          | Ok _ => Ok tt
          | Raised e => Raised e
          end).
Proof.
  intros Hsvi Hgw. unfold configure_meraki.
  destruct (gateway_phase_spec dash default_gateway serials svi_data "") as [Ht Hr].
  rewrite Hgw in Ht, Hr |- *. simpl in Ht, Hr. destruct Hr as [Hf Hd].
  split; [assumption |].
  pose proof (flagged_ok Hf Hsvi) as [Hnd' Hkeys'].
  assert (Hdel : exists rest,
             (if negb (String.eqb default_svi "")
              then Dict.del svi_data' default_svi else Ok svi_data') = Ok rest
             /\ dict_ok rest).
  { destruct (String.eqb_spec default_svi "") as [-> | Hne]; simpl.
    - now exists svi_data'.
    - eexists. split; [| apply dict_ok_filter; exact Hnd'].
      apply del_present; [assumption |].
      destruct Hd as [-> | (k & r & Hin & ->)]; [contradiction |].
      rewrite (Hkeys' k r Hin). change k with (fst (k, r)). now apply in_map. }
  destruct Hdel as (rest & Hdel & Hrest). exists rest. simpl.
  now rewrite (@apply_bulk_trace serials shut_interfaces svi_data' rest
                 default_svi intf_configs Hdel Hrest).
Qed.

(** C8.  The port step sets [enabled] from the shut list and issues the
    call: for a record whose switch is found in [serials], it issues
    exactly one update-port call, with [enabled] false when the name of
    the record is in [shut_interfaces] and true when it is not.  In a run
    of [configure_meraki] on SVI records with readable subnets and an IPv4
    gateway, the update-port calls go, in order, with the records of
    [intf_configs], each with its [enabled] flag so set: every record gets
    its call and the run ends normally, unless the switch of a record is
    not found in [serials]; then the records before that one have got their
    calls and the run ends on that [IndexError]. *)
Theorem C8_enabled_follows_shut_list
  (dash : dashboard) (default_gateway : string) (a : Z) (serials : list string)
  (svi_data : Dict.t Svi.t) (shut_interfaces : list string)
  (intf_configs : Dict.t Intf.t) :
  svi_data_ok svi_data -> subnets_parse svi_data ->
  Ip.ip_address default_gateway = Ok a ->
  dict_ok intf_configs ->
  (forall intf cfg serial,
      index serials (port_target cfg) = Ok serial ->
      exists kwargs,
        port_step serials shut_interfaces intf cfg
        = ([updateDeviceSwitchPort serial kwargs], Ok kwargs)
        /\ Intf.enabled kwargs = Some (negb (in_list intf shut_interfaces)))
  /\ exists done,
       Forall2 (enabled_as_listed shut_interfaces)
         (firstn done intf_configs)
         (filter is_update
            (fst (configure_meraki dash default_gateway serials svi_data
                    shut_interfaces intf_configs)))
       /\ match nth_error intf_configs done with
          | None =>
              snd (configure_meraki dash default_gateway serials svi_data
                     shut_interfaces intf_configs) = Ok tt
          | Some kc =>
              index serials (port_target (snd kc)) = Raised IndexError
              /\ snd (configure_meraki dash default_gateway serials svi_data
                        shut_interfaces intf_configs) = Raised IndexError
          end.
Proof.
  intros Hsvi Hp Hgw Hintf. split.
  - intros intf cfg serial Hidx. rewrite port_step_unfold, Hidx.
    eexists. split; [reflexivity | apply port_kwargs_enabled].
  - destruct (@gateway_phase_goes_through dash default_gateway a serials Hgw
                svi_data "" Hp) as (t1 & svi_data' & d' & Hphase).
    destruct (@after_gateway_trace dash default_gateway serials svi_data
                shut_interfaces intf_configs t1 svi_data' d' Hsvi Hphase)
      as (Ht1 & rest & ->).
    destruct (@bulk_ports_trace serials shut_interfaces intf_configs
                intf_configs Hintf) as (done & Htr & _ & Hres);
      [intros; now apply get_in |].
    exists done. cbn [fst snd]. split.
    + rewrite !filter_app. rewrite (no_update_filter Ht1).
      rewrite (no_update_filter (bulk_creations_no_update serials rest)).
      rewrite filter_all by now apply bulk_ports_all_updates.
      simpl. rewrite Htr. apply port_call_enabled_as_listed.
    + destruct (snd (bulk_ports serials shut_interfaces intf_configs
                       (Dict.keys intf_configs))) as [d | e].
      * subst done. now rewrite (proj2 (nth_error_None intf_configs _) (le_n _)).
      * destruct Hres as (-> & kc & -> & Hkc). auto.
Qed.

Lemma C8_enabled_follows_shut_list_witness :
  (exists kwargs,
      port_step ["Q2XX-0001"] Sample.shut_interfaces "GigabitEthernet1/0/2"
        (Intf.Mk "2" None None (Some "access") (Some "20") (Some "10") None None)
      = ([updateDeviceSwitchPort "Q2XX-0001" kwargs], Ok kwargs)
      /\ Intf.enabled kwargs = Some false)
  /\ Forall2 (enabled_as_listed Sample.shut_interfaces)
       Sample.intf_configs
       [ updateDeviceSwitchPort "Q2XX-0001"
           (Intf.Mk "1" None (Some "uplink") (Some "trunk") None (Some "99")
              (Some "10,20") (Some true));
         updateDeviceSwitchPort "Q2XX-0001"
           (Intf.Mk "2" None None (Some "access") (Some "20") (Some "10") None
              (Some false)) ]
  /\ snd (configure_meraki Sample.empty_dashboard "10.0.2.1" ["Q2XX-0001"]
            Sample.svi_data Sample.shut_interfaces Sample.intf_configs) = Ok tt.
Proof.
  destruct (@C8_enabled_follows_shut_list Sample.empty_dashboard "10.0.2.1"
              167772673 ["Q2XX-0001"] Sample.svi_data Sample.shut_interfaces
              Sample.intf_configs) as (Hstep & done & Hall & Hres).
  - split.
    + unfold dict_ok. simpl. repeat constructor; simpl; intuition discriminate.
    + simpl. intros k r [E | [E | []]]; injection E as <- <-; reflexivity.
  - intros k r [E | [E | []]]; injection E as <- <-; eexists;
      vm_compute; reflexivity.
  - vm_compute. reflexivity.
  - unfold dict_ok. simpl. repeat constructor; simpl; intuition discriminate.
  - split; [apply Hstep; vm_compute; reflexivity |].
    destruct done as [| [| done]].
    + simpl in Hres. destruct Hres as [Hres _]. vm_compute in Hres. discriminate.
    + simpl in Hres. destruct Hres as [Hres _]. vm_compute in Hres. discriminate.
    + assert (E : filter is_update
                    (fst (configure_meraki Sample.empty_dashboard "10.0.2.1"
                            ["Q2XX-0001"] Sample.svi_data Sample.shut_interfaces
                            Sample.intf_configs))
                  = [ updateDeviceSwitchPort "Q2XX-0001"
                        (Intf.Mk "1" None (Some "uplink") (Some "trunk") None
                           (Some "99") (Some "10,20") (Some true));
                      updateDeviceSwitchPort "Q2XX-0001"
                        (Intf.Mk "2" None None (Some "access") (Some "20")
                           (Some "10") None (Some false)) ])
        by (vm_compute; reflexivity).
      rewrite E in Hall. destruct done; (split; [exact Hall | exact Hres]).
Defined.
